(** * CognitiaOS: the orchestration core of [server.ts] and its client

    A shallow embedding of the retrying invoker ([withRetry]), the response
    normalizer and error mapping of [POST /api/analyze], the report routes
    over the [reports] table, and the two client functions that talk to them
    ([handleMessage] and [runAnalysis]).

    Conventions.  JavaScript strings are modelled by [string]: the bytes of
    the text in UTF-8.  [undefined] is [None].  A thrown value is a
    [JsError]: the three properties of an error object that the program
    reads ([status], [response.status], [message]). *)

From Stdlib Require Import ZArith List String Ascii Bool Lia Arith.
From Stdlib Require Import Permutation Sorted RelationClasses.
From Stdlib Require Import DecimalString DecimalN DecimalFacts.
Import ListNotations.

Set Warnings "-register-all".

Local Open Scope string_scope.
Local Open Scope Z_scope.
Local Open Scope list_scope.

(* ================================================================= *)
(** ** String primitives of the platform *)

Module Str.

Definition is_byte (c : ascii) (n : nat) : bool := (nat_of_ascii c =? n)%nat.

Definition lower_ascii (c : ascii) : ascii :=
  let n := nat_of_ascii c in
  if ((65 <=? n) && (n <=? 90))%nat then ascii_of_nat (n + 32) else c.

(** [String.prototype.toLowerCase], as far as a test for an ASCII text
    can tell.  The letters [A]-[Z] become [a]-[z].  Two characters outside
    ASCII lower-case to a text with an ASCII letter in it: U+212A KELVIN
    SIGN (bytes E2 84 AA) to [k], and U+0130 (bytes C4 B0) to [i] followed
    by U+0307 (bytes CC 87).  Every other character outside ASCII
    lower-cases to characters outside ASCII; its bytes are left as they
    are, which changes no [includes], [startsWith] or [endsWith] test for
    an ASCII text, the only use this program makes of the result. *)
Fixpoint toLowerCase (s : string) : string :=
  match s with
  | EmptyString => EmptyString
  | String c s1 =>
      match s1 with
      | EmptyString => String (lower_ascii c) EmptyString
      | String d s2 =>
          if is_byte c 196 && is_byte d 176 then
            String "i" (String "204" (String "135" (toLowerCase s2)))
          else
            match s2 with
            | EmptyString => String (lower_ascii c) (toLowerCase s1)
            | String e s3 =>
                if is_byte c 226 && is_byte d 132 && is_byte e 170
                then String "k" (toLowerCase s3)
                else String (lower_ascii c) (toLowerCase s1)
            end
      end
  end.

(** [s.startsWith(p)] *)
Fixpoint startsWith (s p : string) : bool :=
  match p, s with
  | EmptyString, _ => true
  | String _ _, EmptyString => false
  | String a p', String b s' => Ascii.eqb a b && startsWith s' p'
  end.

(** [s.includes(p)] *)
Fixpoint includes (s p : string) : bool :=
  startsWith s p ||
  match s with
  | EmptyString => false
  | String _ s' => includes s' p
  end.

(** [s.endsWith(p)] *)
Fixpoint endsWith (s p : string) : bool :=
  String.eqb s p ||
  match s with
  | EmptyString => false
  | String _ s' => endsWith s' p
  end.

(** White space removed by [String.prototype.trim]: the characters
    WhiteSpace and LineTerminator of the language.  In one byte: TAB, LF,
    VT, FF, CR, SP. *)
Definition is_space (c : ascii) : bool :=
  let n := nat_of_ascii c in
  ((9 <=? n) && (n <=? 13) || (n =? 32))%nat.

(** In two bytes: U+00A0 (C2 A0). *)
Definition is_space2 (c d : ascii) : bool :=
  is_byte c 194 && is_byte d 160.

(** In three bytes: U+1680 (E1 9A 80), U+2000 to U+200A (E2 80 80 to
    E2 80 8A), U+2028 and U+2029 (E2 80 A8, E2 80 A9), U+202F (E2 80 AF),
    U+205F (E2 81 9F), U+3000 (E3 80 80) and U+FEFF (EF BB BF). *)
Definition is_space3 (c d e : ascii) : bool :=
  let n := nat_of_ascii e in
  is_byte c 225 && is_byte d 154 && is_byte e 128 ||
  is_byte c 226 && is_byte d 128 &&
    ((128 <=? n) && (n <=? 138) || (n =? 168) || (n =? 169) || (n =? 175))%nat ||
  is_byte c 226 && is_byte d 129 && is_byte e 159 ||
  is_byte c 227 && is_byte d 128 && is_byte e 128 ||
  is_byte c 239 && is_byte d 187 && is_byte e 191.

Fixpoint trimStart (s : string) : string :=
  match s with
  | EmptyString => EmptyString
  | String c s1 =>
      if is_space c then trimStart s1
      else
        match s1 with
        | EmptyString => s
        | String d s2 =>
            if is_space2 c d then trimStart s2
            else
              match s2 with
              | EmptyString => s
              | String e s3 => if is_space3 c d e then trimStart s3 else s
              end
        end
  end.

(** The text is white space and nothing else. *)
Definition all_space (s : string) : bool :=
  match trimStart s with
  | EmptyString => true
  | String _ _ => false
  end.

(** The text up to where only white space follows. *)
Fixpoint trimEnd (s : string) : string :=
  match s with
  | EmptyString => EmptyString
  | String c s' => if all_space s then EmptyString else String c (trimEnd s')
  end.

Definition trim (s : string) : string := trimEnd (trimStart s).

(** JavaScript truthiness of a string: non-empty. *)
Definition truthy (s : string) : bool :=
  match s with EmptyString => false | _ => true end.

End Str.

(* ================================================================= *)
(** ** Thrown values *)

(** What the program reads of a caught value [error]: [error.status],
    [error.response] (absent, or present with its own [status]) and
    [error.message]. *)
Record JsError : Type := mkError {
  err_status : option Z;
  err_response : option (option Z);
  err_message : option string
}.

(** Truthiness of an optional number: [undefined] and [0] are falsy. *)
Definition truthy_num (v : option Z) : bool :=
  match v with
  | Some n => negb (n =? 0)
  | None => false
  end.

(** [error.status || (error.response && error.response.status)], kept as
    a number when it is one: a falsy left operand gives the right one, and
    a missing [response] gives [undefined]. *)
Definition status_of (e : JsError) : option Z :=
  if truthy_num (err_status e) then err_status e
  else match err_response e with
       | None => None
       | Some s => s
       end.

(** [error.message?.toLowerCase() || ""] *)
Definition message_of (e : JsError) : string :=
  match err_message e with
  | Some m => Str.toLowerCase m
  | None => ""
  end.

Definition status_is (v : option Z) (n : Z) : bool :=
  match v with
  | Some m => m =? n
  | None => false
  end.

(* ================================================================= *)
(** ** The retrying invoker: [withRetry] (server.ts, lines 45-72) *)

Module Retry.

Inductive Outcome (T : Type) : Type :=
| Resolved (v : T)
| Rejected (e : JsError).
Arguments Resolved {T} v.
Arguments Rejected {T} e.

(** How a call of [withRetry] ends.  [ThrowUndefined] is [throw lastError]
    with [lastError] never assigned ([maxRetries = 0]). *)
Inductive Completion (T : Type) : Type :=
| Return (v : T)
| Throw (e : JsError)
| ThrowUndefined.
Arguments Return {T} v.
Arguments Throw {T} e.
Arguments ThrowUndefined {T}.

(** Observable steps, in program order. *)
Inductive Event : Type :=
| Attempt (i : nat)                        (* [await fn()] in iteration [i] *)
| Warn (attempt maxRetries : nat) (delay : Z)  (* the [console.warn] line *)
| Sleep (ms : Z).                          (* [setTimeout(resolve, delay)] *)

Record Run (T : Type) : Type := mkRun {
  completion : Completion T;
  trace : list Event
}.
Arguments mkRun {T} _ _.
Arguments completion {T} _.
Arguments trace {T} _.

(** The condition of the [if] in the [catch] block. *)
Definition isTransient (e : JsError) : bool :=
  let status := status_of e in
  let message := message_of e in
  status_is status 503 || status_is status 429 ||
  Str.includes message "503" ||
  Str.includes message "429" ||
  Str.includes message "demand" ||
  Str.includes message "rate exceeded" ||
  Str.includes message "quota".

Section Loop.
Context {T : Type}.
(** [fn] is an effectful thunk: [fn i] is what its call in iteration [i]
    produces. *)
Variable fn : nat -> Outcome T.
Variable maxRetries : nat.
Variable baseDelay : Z.

(** The [for] loop from iteration [i] on, with [remaining = maxRetries - i]
    iterations left. *)
Fixpoint loop (remaining i : nat) (lastError : option JsError)
         (tr : list Event) : Run T :=
  match remaining with
  | O =>
      match lastError with
      | Some e => mkRun (Throw e) tr
      | None => mkRun ThrowUndefined tr
      end
  | S remaining' =>
      let tr := tr ++ [Attempt i] in
      match fn i with
      | Resolved v => mkRun (Return v) tr
      | Rejected error =>
          if isTransient error then
            let delay := baseDelay * 2 ^ Z.of_nat i in
            loop remaining' (S i) (Some error)
                 (tr ++ [Warn (i + 1) maxRetries delay; Sleep delay])
          else mkRun (Throw error) tr
      end
  end.
End Loop.

Definition withRetry_with {T} (fn : nat -> Outcome T)
           (maxRetries : nat) (baseDelay : Z) : Run T :=
  loop fn maxRetries baseDelay maxRetries 0 None [].

(** The default arguments [maxRetries = 5, baseDelay = 2000]. *)
Definition withRetry {T} (fn : nat -> Outcome T) : Run T :=
  withRetry_with fn 5 2000.

Definition is_attempt (ev : Event) : bool :=
  match ev with Attempt _ => true | _ => false end.

Definition attempts {T} (r : Run T) : nat :=
  List.length (filter is_attempt (trace r)).

Fixpoint sleeps (tr : list Event) : list Z :=
  match tr with
  | [] => []
  | Sleep ms :: tr' => ms :: sleeps tr'
  | _ :: tr' => sleeps tr'
  end.

Definition delays {T} (r : Run T) : list Z := sleeps (trace r).

(** What one failed iteration with a retryable error adds to the trace,
    and [k] such iterations from iteration [i] on. *)
Definition round (maxRetries : nat) (baseDelay : Z) (i : nat) : list Event :=
  let delay := baseDelay * 2 ^ Z.of_nat i in
  [Attempt i; Warn (i + 1) maxRetries delay; Sleep delay].

Definition rounds (maxRetries : nat) (baseDelay : Z) (i k : nat)
  : list Event :=
  flat_map (round maxRetries baseDelay) (seq i k).

(** The classification in the words of the specification. *)
Definition keywords : list string :=
  ["503"; "429"; "demand"; "rate exceeded"; "quota"].

Definition contains_ci (msg kw : string) : Prop :=
  exists pre suf, Str.toLowerCase msg = (pre ++ kw ++ suf)%string.

Definition transient_spec (e : JsError) : Prop :=
  status_of e = Some 429 \/ status_of e = Some 503 \/
  exists kw, In kw keywords /\
             exists m, err_message e = Some m /\ contains_ci m kw.

End Retry.

(* ================================================================= *)
(** ** JSON values, [JSON.stringify] and [JSON.parse] *)

Module Json.

(** A finite number other than zero is [(-1)^neg * 0.d1d2...dk * 10^point]
    with [d1...dk] its significant decimal digits ([d1] and [dk] not ['0']):
    the digits and exponent from which [Number::toString] prints.  Zero has
    no digits.  Every double has exactly one such form; the model does not
    round, so it also holds decimals that no double equals. *)
Record Number : Type := mkNumber {
  neg : bool;
  digits : string;
  point : Z
}.

Definition zero : Number := mkNumber false EmptyString 0.

Inductive json : Type :=
| JNull
| JBool (b : bool)
| JNum (n : Number)
| JStr (s : string)
| JArr (items : list json)
| JObj (fields : list (string * json)).

(** [undefined] is [None]. *)
Definition jsval : Type := option json.

(** [!!v] *)
Definition truthy (v : jsval) : bool :=
  match v with
  | None => false
  | Some JNull => false
  | Some (JBool b) => b
  | Some (JNum n) => Str.truthy (digits n)
  | Some (JStr s) => Str.truthy s
  | Some (JArr _) => true
  | Some (JObj _) => true
  end.

(** Own properties of an object, in creation order. *)
Fixpoint get_field (fields : list (string * json)) (k : string) : jsval :=
  match fields with
  | [] => None
  | (k', v) :: rest => if String.eqb k' k then Some v else get_field rest k
  end.

(** [o[k] = v]: an existing property keeps its place, a new one comes
    last. *)
Fixpoint set_field (k : string) (v : json) (fields : list (string * json))
  : list (string * json) :=
  match fields with
  | [] => [(k, v)]
  | (k', v') :: rest =>
      if String.eqb k' k then (k, v) :: rest
      else (k', v') :: set_field k v rest
  end.

Definition has_field (fields : list (string * json)) (k : string) : bool :=
  match get_field fields k with Some _ => true | None => false end.

(** *** Characters *)

Definition dquote : ascii := "034"%char.
Definition backslash : ascii := "092"%char.

Definition is_digit (c : ascii) : bool :=
  let n := nat_of_ascii c in ((48 <=? n) && (n <=? 57))%nat.

(** JSON white space: TAB, LF, CR, SP. *)
Definition is_ws (c : ascii) : bool :=
  let n := nat_of_ascii c in
  ((n =? 9) || (n =? 10) || (n =? 13) || (n =? 32))%nat.

Fixpoint zeros (n : nat) : string :=
  match n with
  | O => EmptyString
  | S n' => String "0" (zeros n')
  end.

Fixpoint take (n : nat) (s : string) : string :=
  match n, s with
  | S n', String c s' => String c (take n' s')
  | _, _ => EmptyString
  end.

Fixpoint drop (n : nat) (s : string) : string :=
  match n, s with
  | S n', String _ s' => drop n' s'
  | _, _ => s
  end.

(** *** Numbers: [Number::toString] *)

Definition nat_to_string (n : N) : string :=
  DecimalString.NilEmpty.string_of_uint (N.to_uint n).

(** Exponential notation: one digit, the others after a point, and the
    exponent with its sign. *)
Definition exponent_form (ds : string) (n : Z) : string :=
  let e := n - 1 in
  let sign := if e <? 0 then "-" else "+" in
  let mantissa :=
    match ds with
    | String d EmptyString => ds
    | String d rest => String d ("." ++ rest)
    | EmptyString => EmptyString
    end in
  (mantissa ++ "e" ++ sign ++ nat_to_string (Z.to_N (Z.abs e)))%string.

(** The digits [ds] with the decimal point after the first [n] of them:
    the four cases of [Number::toString] by [n] and the number [k] of
    digits. *)
Definition decimal_form (ds : string) (n : Z) : string :=
  let k := Z.of_nat (String.length ds) in
  if (k <=? n) && (n <=? 21) then
    (ds ++ zeros (Z.to_nat (n - k)))%string
  else if (0 <? n) && (n <=? 21) then
    (take (Z.to_nat n) ds ++ "." ++ drop (Z.to_nat n) ds)%string
  else if (-6 <? n) && (n <=? 0) then
    ("0." ++ zeros (Z.to_nat (- n)) ++ ds)%string
  else exponent_form ds n.

Definition number_to_string (x : Number) : string :=
  match digits x with
  | EmptyString => "0"
  | _ =>
      if neg x then String "-" (decimal_form (digits x) (point x))
      else decimal_form (digits x) (point x)
  end.

(** *** Numbers: the JSON number grammar *)

Fixpoint span_digits (s : string) : string * string :=
  match s with
  | String c s' =>
      if is_digit c then
        let (ds, rest) := span_digits s' in (String c ds, rest)
      else (EmptyString, s)
  | EmptyString => (EmptyString, EmptyString)
  end.

Definition digits_to_N (ds : string) : N :=
  match DecimalString.NilEmpty.uint_of_string ds with
  | Some u => N.of_uint u
  | None => 0%N
  end.

Fixpoint strip_leading (ds : string) (n : Z) : string * Z :=
  match ds with
  | String c ds' =>
      if Ascii.eqb c "0" then strip_leading ds' (n - 1) else (ds, n)
  | EmptyString => (EmptyString, n)
  end.

Fixpoint strip_trailing (ds : string) : string :=
  match ds with
  | EmptyString => EmptyString
  | String c ds' =>
      match strip_trailing ds' with
      | EmptyString => if Ascii.eqb c "0" then EmptyString
                       else String c EmptyString
      | t => String c t
      end
  end.

(** The value of sign, digit string and decimal-point position, in the
    form of [Number] (the sign of a zero is dropped). *)
Definition normalise (sign : bool) (ds : string) (n : Z) : Number :=
  let (ds1, n1) := strip_leading ds n in
  match strip_trailing ds1 with
  | EmptyString => zero
  | ds2 => mkNumber sign ds2 n1
  end.

(** integer part: ["0"] or a non-zero digit followed by digits *)
Definition lex_int (s : string) : option (string * string) :=
  match s with
  | String c s' =>
      if Ascii.eqb c "0" then Some ("0", s')
      else match span_digits s with
           | (EmptyString, _) => None
           | (ip, rest) => Some (ip, rest)
           end
  | EmptyString => None
  end.

(** optional fraction: ['.'] and at least one digit *)
Definition lex_frac (s : string) : option (string * string) :=
  match s with
  | String c s' =>
      if Ascii.eqb c "." then
        match span_digits s' with
        | (EmptyString, _) => None
        | (fp, rest) => Some (fp, rest)
        end
      else Some (EmptyString, s)
  | EmptyString => Some (EmptyString, EmptyString)
  end.

(** optional exponent: ['e'] or ['E'], optional sign, at least one digit *)
Definition lex_exp (s : string) : option (Z * string) :=
  match s with
  | String c s' =>
      if Ascii.eqb c "e" || Ascii.eqb c "E" then
        let (minus, s'') :=
          match s' with
          | String sg t =>
              if Ascii.eqb sg "-" then (true, t)
              else if Ascii.eqb sg "+" then (false, t)
              else (false, s')
          | EmptyString => (false, s')
          end in
        match span_digits s'' with
        | (EmptyString, _) => None
        | (ds, rest) =>
            let e := Z.of_N (digits_to_N ds) in
            Some (if minus then - e else e, rest)
        end
      else Some (0, s)
  | EmptyString => Some (0, EmptyString)
  end.

(** A number without its sign: its digits, the position of the decimal
    point among them, and the text after it. *)
Definition lex_unsigned (s : string) : option (string * Z * string) :=
  match lex_int s with
  | None => None
  | Some (ip, s2) =>
      match lex_frac s2 with
      | None => None
      | Some (fp, s3) =>
          match lex_exp s3 with
          | None => None
          | Some (e, s4) =>
              Some ((ip ++ fp)%string, Z.of_nat (String.length ip) + e, s4)
          end
      end
  end.

Definition lex_number (s : string) : option (Number * string) :=
  let (sign, s1) :=
    match s with
    | String c s' => if Ascii.eqb c "-" then (true, s') else (false, s)
    | EmptyString => (false, s)
    end in
  match lex_unsigned s1 with
  | Some (ds, n, rest) => Some (normalise sign ds n, rest)
  | None => None
  end.

(** *** Strings: [QuoteJSONString] *)

Definition hex_char (n : nat) : ascii :=
  if (n <? 10)%nat then ascii_of_nat (48 + n) else ascii_of_nat (87 + n).

Definition quote_char (c : ascii) : string :=
  let n := nat_of_ascii c in
  if (n =? 8)%nat then "\b"
  else if (n =? 9)%nat then "\t"
  else if (n =? 10)%nat then "\n"
  else if (n =? 12)%nat then "\f"
  else if (n =? 13)%nat then "\r"
  else if (n =? 34)%nat then String backslash (String dquote EmptyString)
  else if (n =? 92)%nat then String backslash (String backslash EmptyString)
  else if (n <? 32)%nat then
    String backslash
      (String "u" (String "0" (String "0"
        (String (hex_char (n / 16)) (String (hex_char (n mod 16)) EmptyString)))))
  else String c EmptyString.

Fixpoint quote_body (s : string) : string :=
  match s with
  | EmptyString => EmptyString
  | String c s' => (quote_char c ++ quote_body s')%string
  end.

Definition quote (s : string) : string :=
  String dquote (quote_body s ++ String dquote EmptyString).

(** *** Strings: the JSON string grammar *)

Definition hex_val (c : ascii) : option N :=
  let n := nat_of_ascii c in
  if ((48 <=? n) && (n <=? 57))%nat then Some (N.of_nat (n - 48))
  else if ((97 <=? n) && (n <=? 102))%nat then Some (N.of_nat (n - 87))
  else if ((65 <=? n) && (n <=? 70))%nat then Some (N.of_nat (n - 55))
  else None.

Definition hex4 (a b c d : ascii) : option N :=
  match hex_val a, hex_val b, hex_val c, hex_val d with
  | Some x, Some y, Some z, Some w => Some (((x * 16 + y) * 16 + z) * 16 + w)%N
  | _, _, _, _ => None
  end.

Definition byte (n : N) : ascii := ascii_of_N n.

(** UTF-8 bytes of a code point. *)
Definition utf8 (cp : N) : string :=
  (if cp <? 128 then String (byte cp) EmptyString
   else if cp <? 2048 then
     String (byte (192 + cp / 64)) (String (byte (128 + cp mod 64)) EmptyString)
   else if cp <? 65536 then
     String (byte (224 + cp / 4096))
       (String (byte (128 + (cp / 64) mod 64))
          (String (byte (128 + cp mod 64)) EmptyString))
   else
     String (byte (240 + cp / 262144))
       (String (byte (128 + (cp / 4096) mod 64))
          (String (byte (128 + (cp / 64) mod 64))
             (String (byte (128 + cp mod 64)) EmptyString))))%N.

Definition is_high (cu : N) : bool := ((55296 <=? cu) && (cu <=? 56319))%N.
Definition is_low (cu : N) : bool := ((56320 <=? cu) && (cu <=? 57343))%N.

(** A surrogate without its partner has no UTF-8 form; it is read as
    U+FFFD, which is what writing the string out as UTF-8 makes of it. *)
Definition replacement : string := utf8 65533.

Definition flush (pending : option N) : string :=
  match pending with
  | Some _ => replacement
  | None => EmptyString
  end.

(** One [\uXXXX] code unit [cu] after a possibly pending high surrogate:
    the bytes it completes and the surrogate left pending. *)
Definition step_unit (pending : option N) (cu : N) : string * option N :=
  match pending with
  | Some hi =>
      if is_low cu then
        (utf8 (65536 + (hi - 55296) * 1024 + (cu - 56320))%N, None)
      else if is_high cu then (replacement, Some cu)
      else ((replacement ++ utf8 cu)%string, None)
  | None =>
      if is_high cu then (EmptyString, Some cu)
      else if is_low cu then (replacement, None)
      else (utf8 cu, None)
  end.

Definition simple_escape (e : ascii) : option ascii :=
  if Ascii.eqb e dquote then Some dquote
  else if Ascii.eqb e backslash then Some backslash
  else if Ascii.eqb e "/" then Some "/"%char
  else if Ascii.eqb e "b" then Some "008"%char
  else if Ascii.eqb e "f" then Some "012"%char
  else if Ascii.eqb e "n" then Some "010"%char
  else if Ascii.eqb e "r" then Some "013"%char
  else if Ascii.eqb e "t" then Some "009"%char
  else None.

Definition prepend (out : string) (r : option (string * string))
  : option (string * string) :=
  match r with
  | Some (str, rest) => Some ((out ++ str)%string, rest)
  | None => None
  end.

(** The characters after an opening quote, up to the closing one: the
    string they denote and the text after the closing quote. *)
Fixpoint lex_string (pending : option N) (s : string)
  : option (string * string) :=
  match s with
  | EmptyString => None
  | String c s1 =>
      if Ascii.eqb c dquote then Some (flush pending, s1)
      else if Ascii.eqb c backslash then
        match s1 with
        | EmptyString => None
        | String e s2 =>
            if Ascii.eqb e "u" then
              match s2 with
              | String h1 (String h2 (String h3 (String h4 s6))) =>
                  match hex4 h1 h2 h3 h4 with
                  | Some cu =>
                      let (out, pending') := step_unit pending cu in
                      prepend out (lex_string pending' s6)
                  | None => None
                  end
              | _ => None
              end
            else
              match simple_escape e with
              | Some c' =>
                  prepend (flush pending ++ String c' EmptyString)
                          (lex_string None s2)
              | None => None
              end
        end
      else if (nat_of_ascii c <? 32)%nat then None
      else prepend (flush pending ++ String c EmptyString) (lex_string None s1)
  end.

(** *** Tokens *)

Inductive token : Type :=
| TLBrace | TRBrace | TLBracket | TRBracket | TColon | TComma
| TString (s : string)
| TNumber (n : Number)
| TTrue | TFalse | TNull.

Definition print_token (t : token) : string :=
  match t with
  | TLBrace => "{" | TRBrace => "}"
  | TLBracket => "[" | TRBracket => "]"
  | TColon => ":" | TComma => ","
  | TString s => quote s
  | TNumber n => number_to_string n
  | TTrue => "true" | TFalse => "false" | TNull => "null"
  end.

Fixpoint print_tokens (ts : list token) : string :=
  match ts with
  | [] => EmptyString
  | t :: ts' => (print_token t ++ print_tokens ts')%string
  end.

Definition cons_token (t : token) (r : option (list token))
  : option (list token) :=
  match r with
  | Some ts => Some (t :: ts)
  | None => None
  end.

(** The token sequence of a text; [None] for a text that is not a sequence
    of JSON tokens and white space.  Every step takes at least one
    character, so [fuel] above the length of the text is never used up. *)
Fixpoint lex (fuel : nat) (s : string) : option (list token) :=
  match fuel with
  | O => None
  | S fuel' =>
      match s with
      | EmptyString => Some []
      | String c s' =>
          if is_ws c then lex fuel' s'
          else if Ascii.eqb c "{" then cons_token TLBrace (lex fuel' s')
          else if Ascii.eqb c "}" then cons_token TRBrace (lex fuel' s')
          else if Ascii.eqb c "[" then cons_token TLBracket (lex fuel' s')
          else if Ascii.eqb c "]" then cons_token TRBracket (lex fuel' s')
          else if Ascii.eqb c ":" then cons_token TColon (lex fuel' s')
          else if Ascii.eqb c "," then cons_token TComma (lex fuel' s')
          else if Ascii.eqb c dquote then
            match lex_string None s' with
            | Some (str, rest) => cons_token (TString str) (lex fuel' rest)
            | None => None
            end
          else if Ascii.eqb c "-" || is_digit c then
            match lex_number s with
            | Some (n, rest) => cons_token (TNumber n) (lex fuel' rest)
            | None => None
            end
          else if Str.startsWith s "true" then
            cons_token TTrue (lex fuel' (drop 4 s))
          else if Str.startsWith s "false" then
            cons_token TFalse (lex fuel' (drop 5 s))
          else if Str.startsWith s "null" then
            cons_token TNull (lex fuel' (drop 4 s))
          else None
      end
  end.

(** *** The JSON grammar over tokens *)

Fixpoint parse_value (fuel : nat) (ts : list token)
  : option (json * list token) :=
  match fuel with
  | O => None
  | S f =>
      match ts with
      | TNull :: r => Some (JNull, r)
      | TTrue :: r => Some (JBool true, r)
      | TFalse :: r => Some (JBool false, r)
      | TNumber n :: r => Some (JNum n, r)
      | TString s :: r => Some (JStr s, r)
      | TLBracket :: TRBracket :: r => Some (JArr [], r)
      | TLBracket :: r =>
          match parse_elements f r with
          | Some (items, r') => Some (JArr items, r')
          | None => None
          end
      | TLBrace :: TRBrace :: r => Some (JObj [], r)
      | TLBrace :: r =>
          match parse_members f r [] with
          | Some (fields, r') => Some (JObj fields, r')
          | None => None
          end
      | _ => None
      end
  end
with parse_elements (fuel : nat) (ts : list token)
  : option (list json * list token) :=
  match fuel with
  | O => None
  | S f =>
      match parse_value f ts with
      | Some (v, TComma :: r) =>
          match parse_elements f r with
          | Some (vs, r') => Some (v :: vs, r')
          | None => None
          end
      | Some (v, TRBracket :: r) => Some ([v], r)
      | _ => None
      end
  end
with parse_members (fuel : nat) (ts : list token)
                   (acc : list (string * json))
  : option (list (string * json) * list token) :=
  match fuel with
  | O => None
  | S f =>
      match ts with
      | TString k :: TColon :: r =>
          match parse_value f r with
          | Some (v, TComma :: r') => parse_members f r' (set_field k v acc)
          | Some (v, TRBrace :: r') => Some (set_field k v acc, r')
          | _ => None
          end
      | _ => None
      end
  end.

(** [JSON.parse(text)]: [None] stands for the [SyntaxError] it throws.  A
    repeated key keeps its first place and takes the last value.

    Two limits.  A number is kept as the exact decimal of the text, where
    the platform keeps the nearest double: [1e400] is [Infinity] there,
    [1e-400] is [0], and a 17th significant digit is rounded away.
    Properties keep the order of the text, where a JavaScript object
    lists its array indices (["0"], ["1"], ...) first.  Besides, [-0] is
    read as [0] (the two are equal under [===] and print alike), and a
    surrogate without its partner as U+FFFD.  On every other text the
    value is the platform's. *)
Definition parse (text : string) : option json :=
  match lex (S (String.length text)) text with
  | Some ts =>
      match parse_value (S (List.length ts)) ts with
      | Some (v, []) => Some v
      | _ => None
      end
  | None => None
  end.

(** *** [JSON.stringify] of a JSON value: its tokens, printed with nothing
    in between *)

Fixpoint tokens_of (v : json) : list token :=
  match v with
  | JNull => [TNull]
  | JBool true => [TTrue]
  | JBool false => [TFalse]
  | JNum n => [TNumber n]
  | JStr s => [TString s]
  | JArr items =>
      TLBracket ::
      (fix elements (l : list json) : list token :=
         match l with
         | [] => []
         | x :: l' =>
             tokens_of x ++
             match l' with [] => [] | _ :: _ => TComma :: elements l' end
         end) items ++ [TRBracket]
  | JObj fields =>
      TLBrace ::
      (fix members (l : list (string * json)) : list token :=
         match l with
         | [] => []
         | (k, x) :: l' =>
             TString k :: TColon :: tokens_of x ++
             match l' with [] => [] | _ :: _ => TComma :: members l' end
         end) fields ++ [TRBrace]
  end.

Definition stringify (v : json) : string := print_tokens (tokens_of v).

(** *** The values [JSON.stringify] and [JSON.parse] exchange *)

Fixpoint all_digits (s : string) : bool :=
  match s with
  | EmptyString => true
  | String c s' => is_digit c && all_digits s'
  end.

Fixpoint last_char (s : string) (d : ascii) : ascii :=
  match s with
  | EmptyString => d
  | String c s' => last_char s' c
  end.

(** The form of [Number]: no digits, or digits that neither start nor end
    with ['0']. *)
Definition number_ok (x : Number) : bool :=
  match digits x with
  | EmptyString => negb (neg x) && (point x =? 0)
  | String d rest =>
      all_digits (digits x) && negb (Ascii.eqb d "0") &&
      negb (Ascii.eqb (last_char rest d) "0")
  end.

Fixpoint mem_string (k : string) (l : list string) : bool :=
  match l with
  | [] => false
  | k' :: l' => String.eqb k' k || mem_string k l'
  end.

Fixpoint distinct (l : list string) : bool :=
  match l with
  | [] => true
  | k :: l' => negb (mem_string k l') && distinct l'
  end.

(** A value of the platform: numbers in their form, property names of one
    object all different. *)
Fixpoint value_ok (v : json) : bool :=
  match v with
  | JNum n => number_ok n
  | JArr items => forallb value_ok items
  | JObj fields =>
      distinct (map fst fields) &&
      forallb (fun kv => value_ok (snd kv)) fields
  | _ => true
  end.

(** *** Where a token ends *)

(** The text after a number does not continue it: it is empty or starts
    with something other than a digit, a point or an exponent mark. *)
Definition ends_number (rest : string) : bool :=
  match rest with
  | EmptyString => true
  | String c _ =>
      negb (is_digit c || Ascii.eqb c "." || Ascii.eqb c "e" || Ascii.eqb c "E")
  end.

Definition not_digit_next (rest : string) : Prop :=
  match rest with
  | EmptyString => True
  | String c _ => is_digit c = false
  end.

(** Tokens that may come after a value inside an array or object. *)
Definition closes (t : token) : bool :=
  match t with
  | TComma | TRBracket | TRBrace => true
  | _ => false
  end.

Definition closed (ts : list token) : bool :=
  match ts with
  | [] => true
  | t :: _ => closes t
  end.

(** Every number of a token sequence is in its form and is followed by
    nothing or by a closing token. *)
Fixpoint separated (ts : list token) : bool :=
  match ts with
  | [] => true
  | t :: ts' =>
      match t with
      | TNumber n => number_ok n && closed ts'
      | _ => true
      end && separated ts'
  end.

(** The tokens between the brackets of an array and between the braces of
    an object, as [tokens_of] lists them. *)
Fixpoint tokens_elements (l : list json) : list token :=
  match l with
  | [] => []
  | x :: l' =>
      tokens_of x ++
      match l' with [] => [] | _ :: _ => TComma :: tokens_elements l' end
  end.

Fixpoint tokens_members (l : list (string * json)) : list token :=
  match l with
  | [] => []
  | (k, x) :: l' =>
      TString k :: TColon :: tokens_of x ++
      match l' with [] => [] | _ :: _ => TComma :: tokens_members l' end
  end.

End Json.

(* ================================================================= *)
(** ** What a route handler leaves behind *)

Inductive SqliteCode : Type :=
| SQLITE_CONSTRAINT_PRIMARYKEY
| SQLITE_CONSTRAINT_FOREIGNKEY.

(** A value thrown out of a handler, for the framework to deal with. *)
Inductive Exception : Type :=
| SqliteError (code : SqliteCode)
| SyntaxError
| TypeError.

Inductive Reply : Type :=
| Sent (status : Z) (body : Json.json)   (* [res.status(status).json(body)] *)
| Raised (e : Exception).

Definition error_body (msg : string) : Json.json :=
  Json.JObj [("error", Json.JStr msg)].

(* ================================================================= *)
(** ** The report store: table [reports] and its two routes
       (server.ts, lines 75-91 and 203-216) *)

Module Store.

(** A row of [reports].  [user_id] is [None] for NULL, which the column
    allows.  [result] is the TEXT column holding the encoded analysis;
    [created_at] is the text of [CURRENT_TIMESTAMP]
    (["YYYY-MM-DD HH:MM:SS"]), which the database compares byte by byte. *)
Record Report : Type := mkReport {
  id : string;
  user_id : option string;
  query : string;
  context : string;
  result : string;
  created_at : string
}.

(** The database: the keys of [users], the rows of [reports] in the order
    of their insertion, and whether the connection enforces the
    [FOREIGN KEY] clause. *)
Record Db : Type := mkDb {
  users : list string;
  reports : list Report;
  foreign_keys : bool
}.

Definition has_id (rows : list Report) (i : string) : bool :=
  existsb (fun r => String.eqb (id r) i) rows.

(** [FOREIGN KEY(user_id) REFERENCES users(id)]: a [user_id] that is
    NULL refers to nothing and passes. *)
Definition refers (users : list string) (uid : option string) : bool :=
  match uid with
  | Some u => Json.mem_string u users
  | None => true
  end.

(** [INSERT INTO reports (id, user_id, query, context, result) VALUES ...]
    at clock reading [now]: [id] is the PRIMARY KEY, [created_at] takes its
    default. *)
Definition insert_report (now : string) (db : Db)
           (i : string) (uid : option string) (q c res : string)
  : SqliteCode + Db :=
  if has_id (reports db) i then inl SQLITE_CONSTRAINT_PRIMARYKEY
  else if foreign_keys db && negb (refers (users db) uid)
  then inl SQLITE_CONSTRAINT_FOREIGNKEY
  else inr (mkDb (users db)
                 (reports db ++ [mkReport i uid q c res now])
                 (foreign_keys db)).

(** [ORDER BY created_at DESC]: each row is at least as recent as the
    next. *)
Definition desc (a b : Report) : Prop :=
  String.leb (created_at b) (created_at a) = true.

(** [WHERE user_id = ?]: a NULL [user_id] equals nothing. *)
Definition owned_by (userId : string) (r : Report) : bool :=
  match user_id r with
  | Some u => String.eqb u userId
  | None => false
  end.

(** [SELECT * FROM reports WHERE user_id = ? ORDER BY created_at DESC
    LIMIT 10], read as a contract: the rows the text of the statement
    allows.  It names no second sort key, so by its text alone rows with
    equal [created_at] may come in any order.  The database the program
    runs on gives one of these answers, [stmt_all] below. *)
Definition select_by_user (db : Db) (userId : string)
           (rows : list Report) : Prop :=
  exists ordered,
    Permutation ordered (filter (owned_by userId) (reports db)) /\
    Sorted desc ordered /\
    rows = firstn 10 ordered.

(** What the database does: it sorts the rows it scans in the order of
    their insertion, and its sort is stable, so that rows with equal
    [created_at] stay in insertion order.  [insert_desc] puts a row before
    the first row that is not more recent than it. *)
Fixpoint insert_desc (r : Report) (l : list Report) : list Report :=
  match l with
  | [] => [r]
  | x :: l' =>
      if String.leb (created_at x) (created_at r) then r :: l
      else x :: insert_desc r l'
  end.

Definition sort_desc (l : list Report) : list Report :=
  fold_right insert_desc [] l.

Definition stmt_all (db : Db) (userId : string) : list Report :=
  firstn 10 (sort_desc (filter (owned_by userId) (reports db))).

(** [a] stands before [b] in [l]. *)
Inductive before : list Report -> Report -> Report -> Prop :=
| before_here : forall a b l, In b l -> before (a :: l) a b
| before_later : forall x a b l, before l a b -> before (x :: l) a b.

(** The order of a listing in the words of the specification: by creation
    time descending, ties broken by insertion order.  [a] is listed before
    [b] when it is at least as recent and, at equal creation time, was
    inserted first. *)
Definition listed_before (db : Db) (a b : Report) : Prop :=
  String.leb (created_at b) (created_at a) = true /\
  (created_at a = created_at b -> before (reports db) a b).

(** The store's encoding and decoding of an analysis result:
    [JSON.stringify(result)] in [POST /api/reports] and
    [JSON.parse(r.result)] in [GET /api/reports]. *)
Definition encode (x : Json.json) : string := Json.stringify x.
Definition decode (text : string) : option Json.json := Json.parse text.

(** [{ ...r, result: JSON.parse(r.result) }] *)
Definition report_json (r : Report) (parsed : Json.json) : Json.json :=
  Json.JObj [("id", Json.JStr (id r));
             ("user_id", match user_id r with
                         | Some u => Json.JStr u
                         | None => Json.JNull
                         end);
             ("query", Json.JStr (query r));
             ("context", Json.JStr (context r));
             ("result", parsed);
             ("created_at", Json.JStr (created_at r))].

(** [reports.map(...)]: the first row whose text [JSON.parse] rejects
    ends the mapping. *)
Fixpoint decode_rows (rows : list Report) : option (list Json.json) :=
  match rows with
  | [] => Some []
  | r :: rows' =>
      match decode (result r) with
      | None => None
      | Some parsed =>
          match decode_rows rows' with
          | None => None
          | Some l => Some (report_json r parsed :: l)
          end
      end
  end.

Definition respond_rows (rows : list Report) : Reply :=
  match decode_rows rows with
  | Some l => Sent 200 (Json.JArr l)
  | None => Raised SyntaxError
  end.

Definition query_truthy (userId : option string) : bool :=
  match userId with
  | Some s => Str.truthy s
  | None => false
  end.

(** [GET /api/reports] with [req.query.userId], over every answer the
    text of its statement allows. *)
Inductive get_reports (db : Db) : option string -> Reply -> Prop :=
| get_reports_required : forall userId,
    query_truthy userId = false ->
    get_reports db userId (Sent 400 (error_body "userId required"))
| get_reports_rows : forall userId rows,
    Str.truthy userId = true ->
    select_by_user db userId rows ->
    get_reports db (Some userId) (respond_rows rows).

(** [GET /api/reports] as the program runs: over the answer of the
    database, [stmt_all]. *)
Definition get_reports_run (db : Db) (userId : option string) : Reply :=
  match userId with
  | Some u =>
      if Str.truthy u then respond_rows (stmt_all db u)
      else Sent 400 (error_body "userId required")
  | None => Sent 400 (error_body "userId required")
  end.

(** The body of [POST /api/reports].  [userId] is [None] when the body
    holds [null] there or has no such property, as in the request of a
    client whose [user.id] is [undefined]: the insert then binds NULL.
    The client always sends [id], [query] and [context] as strings. *)
Record ReportBody : Type := mkReportBody {
  body_id : string;
  body_userId : option string;
  body_query : string;
  body_context : string;
  body_result : Json.json
}.

(** [POST /api/reports]: the reply and the database afterwards. *)
Definition post_reports (now : string) (db : Db) (b : ReportBody)
  : Reply * Db :=
  match insert_report now db (body_id b) (body_userId b) (body_query b)
                      (body_context b) (encode (body_result b)) with
  | inl code => (Raised (SqliteError code), db)
  | inr db' => (Sent 200 (Json.JObj [("success", Json.JBool true)]), db')
  end.

End Store.

(* ================================================================= *)
(** ** [POST /api/analyze] (server.ts, lines 237-433) *)

Module Server.

Import Json.

Record Env : Type := mkEnv {
  COGAPI3 : option string;
  GEMINI_API_KEY : option string
}.

(** [a || b] on two environment variables: the empty string is falsy. *)
Definition or_env (a b : option string) : option string :=
  match a with
  | Some s => if Str.truthy s then a else b
  | None => b
  end.

Definition env_truthy (a : option string) : bool :=
  match a with
  | Some s => Str.truthy s
  | None => false
  end.

(** [req.body], as far as the handler reads it. *)
Record AnalyzeBody : Type := mkBody {
  dataset : jsval;
  query : option string;
  context : option string
}.

(** The SDK's answer, of which the handler reads [text]. *)
Record GenerateContentResponse : Type := mkResponse {
  text : option string
}.

Definition nl : string := String "010"%char EmptyString.
Definition qt (s : string) : string :=
  String dquote (s ++ String dquote EmptyString).

Fixpoint join (sep : string) (l : list string) : string :=
  match l with
  | [] => EmptyString
  | [x] => x
  | x :: l' => (x ++ sep ++ join sep l')%string
  end.

Definition or_default (v : option string) (d : string) : string :=
  match v with
  | Some s => if Str.truthy s then s else d
  | None => d
  end.

(** The template literal [prompt]. *)
Definition prompt_of (rows : list json) (b : AnalyzeBody) : string :=
  (nl ++ "Dataset Context: " ++ or_default (context b) "General Business Data" ++ nl ++
   "User Intent: " ++ or_default (query b) "Analyze this data for executive insights" ++ nl ++
   nl ++
   "DATASET (First 100 rows):" ++ nl ++
   join nl (map stringify (firstn 100 rows)) ++ nl ++
   nl ++
   "Perform full intelligence analysis and return the results in the specified JSON format." ++ nl ++
   "- For " ++ qt "geographic_matrix" ++ ", provide a comprehensive " ++ qt "Geographic Opportunity Matrix" ++ " covering ALL major cities or regions identified in the dataset. Do not limit to just 3; include as many as are relevant to show a complete geographic spread." ++ nl ++
   "- For " ++ qt "forecast.projection_data" ++ ", provide at least 6-8 data points representing a logical progression." ++ nl ++
   "- For " ++ qt "strategic_growth" ++ ", provide a comparison of current vs projected performance across key segments." ++ nl ++
   "- For " ++ qt "risk_heatmap" ++ ", provide data points that can be visualized as a scatter or bubble chart (risk vs impact)." ++ nl ++
   "- For " ++ qt "operational_efficiency" ++ ", provide scores (0-100) for different operational areas." ++ nl ++
   "- Ensure all JSON is valid and strictly follows the schema." ++ nl)%string.

Definition js_error (msg : string) : JsError :=
  mkError None None (Some msg).

(** [dataset.slice(0, 100).map(...)]: the rows of an array; a string has
    [slice] but its result has no [map]; other values have no [slice]. *)
Definition dataset_rows (d : json) : JsError + list json :=
  match d with
  | JArr rows => inr rows
  | JStr _ => inl (js_error "dataset.slice(...).map is not a function")
  | _ => inl (js_error "dataset.slice is not a function")
  end.

(** *** The normalizer (lines 393-409) *)

Definition default_data_summary : json :=
  JObj [("detected_entities", JArr []);
        ("key_metrics", JArr []);
        ("relationships", JArr [])].
Definition default_risk_heatmap : json :=
  JObj [("title", JStr "Risk Distribution"); ("data", JArr [])].
Definition default_operational_efficiency : json :=
  JObj [("title", JStr "Operational Efficiency"); ("metrics", JArr [])].
Definition default_geographic_matrix : json :=
  JObj [("title", JStr "Geographic Opportunity Matrix"); ("data", JArr [])].

(** The eight tests, in program order. *)
Definition defaults : list (string * json) :=
  [("data_summary", default_data_summary);
   ("insights", JArr []);
   ("anomalies", JArr []);
   ("risk_analysis", JArr []);
   ("recommendations", JArr []);
   ("risk_heatmap", default_risk_heatmap);
   ("operational_efficiency", default_operational_efficiency);
   ("geographic_matrix", default_geographic_matrix)].

(** [if (!result.k) result.k = d;] on the properties of an object *)
Definition fill (fields : list (string * json)) (kd : string * json)
  : list (string * json) :=
  if negb (truthy (get_field fields (fst kd)))
  then set_field (fst kd) (snd kd) fields
  else fields.

Definition fill_defaults (fields : list (string * json))
  : list (string * json) :=
  fold_left fill defaults fields.

(** The text after [on] in the error of assigning to a property of a
    primitive. *)
Definition describe (v : json) : string :=
  match v with
  | JStr s => ("string '" ++ s ++ "'")%string
  | JNum n => ("number '" ++ number_to_string n ++ "'")%string
  | JBool b => ("boolean '" ++ (if b then "true" else "false") ++ "'")%string
  | _ => EmptyString
  end.

(** Lines 396-409 on the value [JSON.parse] returned, and what
    [res.json(result)] then sends.  Reading a property of [null] throws.
    A primitive has none of the eight properties and, the file being an
    ES module, assigning the first one throws.  An array takes the eight
    assignments as properties that are not elements, which [res.json]
    does not write. *)
Definition normalize (result : json) : JsError + json :=
  match result with
  | JObj fields => inr (JObj (fill_defaults fields))
  | JArr items => inr (JArr items)
  | JNull =>
      inl (js_error "Cannot read properties of null (reading 'data_summary')")
  | v =>
      inl (js_error ("Cannot create property 'data_summary' on " ++ describe v))
  end.

(** *** The [catch] block (lines 413-432) *)

Definition keySource (env : Env) : string :=
  if env_truthy (COGAPI3 env) then "COGAPI3"
  else if env_truthy (GEMINI_API_KEY env) then "GEMINI_API_KEY"
  else "Unknown".

Definition rate_limit_message : string :=
  "Gemini API rate limit exceeded. The system is currently under high load. Please wait a few moments and try again.".

Definition catch_status (error : JsError) : Z :=
  match status_of error with
  | Some n => if n =? 0 then 500 else n
  | None => 500
  end.

(** The conditions of the two [if]s. *)
Definition invalid_key (error : JsError) : bool :=
  let status := catch_status error in
  let message := message_of error in
  (status =? 400) && Str.includes message "api key not valid".

Definition rate_limited (error : JsError) : bool :=
  let status := catch_status error in
  let message := message_of error in
  (status =? 429) || Str.includes message "rate exceeded"
  || Str.includes message "quota".

Definition on_error (env : Env) (error : JsError) : Reply :=
  if invalid_key error then
    Sent 400 (error_body
      ("The Gemini API key is invalid. Current key source: " ++ keySource env ++
       ". Please update your environment variables in AI Studio."))
  else if rate_limited error then
    Sent 429 (error_body rate_limit_message)
  else
    Sent (catch_status error)
         (error_body (or_default (err_message error)
                                 "Failed to analyze data")).

(** A credential is configured: [COGAPI3 || GEMINI_API_KEY] is a string
    that is not blank. *)
Definition configured (e : Env) : Prop :=
  exists apiKey, or_env (COGAPI3 e) (GEMINI_API_KEY e) = Some apiKey /\
                 Str.trim apiKey <> EmptyString.

(** *** The handler *)

Record Handled : Type := mkHandled {
  reply : Reply;
  upstream : list Retry.Event   (* the calls and waits of [withRetry] *)
}.

Section Handler.
(** The message of the [SyntaxError] of [JSON.parse] for a text: the
    engine's wording, which the program does not fix. *)
Variable syntax_error_message : string -> string.
(** [ai.models.generateContent] for [contents = prompt] (the model, the
    system instruction and the response type are constants of the call):
    what its [i]-th call in a request produces. *)
Variable generateContent :
  string -> nat -> Retry.Outcome GenerateContentResponse.
Variable env : Env.

(** Lines 389-412, on the response [withRetry] returned: the reply, or
    the value thrown to the [catch] block. *)
Definition finish (response : GenerateContentResponse) : JsError + Reply :=
  match text response with
  | None => inl (js_error "Model returned empty response")
  | Some t =>
      if negb (Str.truthy t) then inl (js_error "Model returned empty response")
      else match parse t with
           | None => inl (js_error (syntax_error_message t))
           | Some result =>
               match normalize result with
               | inl e => inl e
               | inr result' => inr (Sent 200 result')
               end
           end
  end.

Definition analyze (b : AnalyzeBody) : Handled :=
  if negb (truthy (dataset b)) then
    mkHandled (Sent 400 (error_body "Dataset is required")) []
  else
    match or_env (COGAPI3 env) (GEMINI_API_KEY env) with
    | None =>
        mkHandled (Sent 500 (error_body
          "Gemini API key is not configured. Please set COGAPI3 or GEMINI_API_KEY in the environment variables.")) []
    | Some apiKey =>
        if String.eqb (Str.trim apiKey) EmptyString then
          mkHandled (Sent 500 (error_body
            "Gemini API key is not configured. Please set COGAPI3 or GEMINI_API_KEY in the environment variables.")) []
        else
          match dataset b with
          | None => mkHandled (Sent 400 (error_body "Dataset is required")) []
          | Some d =>
              match dataset_rows d with
              | inl e => mkHandled (on_error env e) []
              | inr rows =>
                  let run :=
                    Retry.withRetry (generateContent (prompt_of rows b)) in
                  match Retry.completion run with
                  | Retry.Return response =>
                      match finish response with
                      | inr r => mkHandled r (Retry.trace run)
                      | inl e => mkHandled (on_error env e) (Retry.trace run)
                      end
                  | Retry.Throw e =>
                      mkHandled (on_error env e) (Retry.trace run)
                  | Retry.ThrowUndefined =>
                      (* [error.status] of [undefined]: the [catch] block
                         itself throws and nothing is sent *)
                      mkHandled (Raised TypeError) (Retry.trace run)
                  end
              end
          end
    end.

End Handler.

End Server.

(* ================================================================= *)
(** ** The client: [handleMessage] and [runAnalysis] *)

Module Client.

Import Json.

(** [v.k] for a value that is not [null] or [undefined]: a property of an
    object; none of the names read here is a property of an array or of a
    primitive. *)
Definition prop (v : json) (k : string) : jsval :=
  match v with
  | JObj fields => get_field fields k
  | _ => None
  end.

Inductive Effect : Type :=
| FetchHistory (userId : jsval)                 (* [fetchHistory(id)] *)
| PostReport (body : json)                      (* [fetch('/api/reports', ...)] *)
| ConsoleError (label : option string) (e : JsError)
| Uncaught (e : JsError).                       (* thrown out of the function *)

(** The React state the two functions touch, the [cognitia_user] entry of
    [localStorage], and what they set in motion. *)
Record AppState : Type := mkState {
  user : jsval;
  result : jsval;
  error : option string;
  isAnalyzing : bool;
  stored_user : option string;
  effects : list Effect
}.

(** *** [handleMessage] (lines 292-304) *)

Record MessageEvent : Type := mkEvent {
  origin : string;
  data : jsval
}.

(** The test of the first [if], negated: the origins the function goes on
    with. *)
Definition origin_allowed (o : string) : bool :=
  Str.endsWith o ".run.app" || Str.includes o "localhost".

(** [event.data?.type === 'OAUTH_AUTH_SUCCESS'] *)
Definition is_auth_success (d : jsval) : bool :=
  match d with
  | Some v =>
      match prop v "type" with
      | Some (JStr t) => String.eqb t "OAUTH_AUTH_SUCCESS"
      | _ => false
      end
  | None => false
  end.

(** [JSON.stringify(u)] as [localStorage.setItem] stores it. *)
Definition stored_text (u : jsval) : string :=
  match u with
  | Some v => stringify v
  | None => "undefined"
  end.

Definition handleMessage (st : AppState) (event : MessageEvent) : AppState :=
  if negb (Str.endsWith (origin event) ".run.app") &&
     negb (Str.includes (origin event) "localhost")
  then st
  else if is_auth_success (data event) then
    let u := match data event with
             | Some v => prop v "user"
             | None => None
             end in
    let after :=
      match u with
      | None =>
          Uncaught (Server.js_error
            "Cannot read properties of undefined (reading 'id')")
      | Some JNull =>
          Uncaught (Server.js_error
            "Cannot read properties of null (reading 'id')")
      | Some v => FetchHistory (prop v "id")
      end in
    mkState u (result st) (error st) (isAnalyzing st)
            (Some (stored_text u)) (effects st ++ [after])
  else st.

(** *** [runAnalysis] (lines 503-565) *)

(** How a [fetch] ends: rejected, or resolved with a response of any
    status. *)
Inductive Fetch : Type :=
| NetworkError (e : JsError)
| Response (status : Z) (contentType : option string) (body : string).

Definition ok (status : Z) : bool := (200 <=? status) && (status <=? 299).

Definition high_demand_message : string :=
  "The Intelligence Engine is currently experiencing high demand. Please wait 30-60 seconds and try again.".

(** What the client receives of a reply sent with [res.json]. *)
Definition deliver (status : Z) (body : json) : Fetch :=
  Response status (Some "application/json; charset=utf-8") (stringify body).

Section RunAnalysis.
Variable syntax_error_message : string -> string.
(** [data], [query] and [context] of the component, and [Date.now()]. *)
Variable rows : list json.
Variable query context : string.
Variable now : N.
(** The two requests, as the network answers them. *)
Variable fetch_analyze : Fetch.
Variable fetch_reports : Fetch.

(** Lines 518-527: the body read off the response. *)
Definition read_body (contentType : option string) (body : string)
  : JsError + json :=
  if match contentType with
     | Some ct => Str.truthy ct && Str.includes ct "application/json"
     | None => false
     end
  then match parse body with
       | Some v => inr v
       | None => inl (Server.js_error (syntax_error_message body))
       end
  else inr (JObj [("error",
                   JStr (if Str.truthy body then body
                         else "An unexpected error occurred."))]).

(** Lines 529-534: the error thrown for a response that is not [ok]. *)
Definition not_ok_error (status : Z) (json : json) : JsError :=
  if status =? 429 then Server.js_error high_demand_message
  else
    match json with
    | JNull =>
        Server.js_error "Cannot read properties of null (reading 'error')"
    | _ =>
        match prop json "error" with
        | None | Some JNull =>
            Server.js_error "Intelligence Engine failed to process data."
        | Some (JStr s) =>
            if Str.includes (Str.toLowerCase s) "rate exceeded"
            then Server.js_error high_demand_message
            else Server.js_error
                   (if Str.truthy s then s
                    else "Intelligence Engine failed to process data.")
        | Some _ =>
            Server.js_error "json.error?.toLowerCase is not a function"
        end
    end.

(** The request body of [POST /api/reports]; [JSON.stringify] leaves out
    [userId] when [user.id] is [undefined]. *)
Definition report_body (u : json) (json : json) : Json.json :=
  JObj ([("id", JStr ("rep_" ++ nat_to_string now))] ++
        match prop u "id" with
        | Some i => [("userId", i)]
        | None => []
        end ++
        [("query", JStr query); ("context", JStr context); ("result", json)]).

(** Lines 538-557: the inner [try]/[catch] around the persistence step. *)
Definition persist (st : AppState) (json : json) : AppState :=
  match user st with
  | Some u =>
      if truthy (Some u) then
        let st1 := mkState (user st) (result st) (error st) (isAnalyzing st)
                     (stored_user st)
                     (effects st ++ [PostReport (report_body u json)]) in
        match fetch_reports with
        | NetworkError e =>
            mkState (user st1) (result st1) (error st1) (isAnalyzing st1)
              (stored_user st1)
              (effects st1 ++ [ConsoleError (Some "Failed to save report") e])
        | Response _ _ _ =>
            mkState (user st1) (result st1) (error st1) (isAnalyzing st1)
              (stored_user st1)
              (effects st1 ++ [FetchHistory (prop u "id")])
        end
      else st
  | None => st
  end.

(** The outer [catch] and [finally]. *)
Definition failed (st : AppState) (err : JsError) : AppState :=
  mkState (user st) (result st)
    (Some (Server.or_default (err_message err)
             "An unexpected error occurred during analysis."))
    false (stored_user st)
    (effects st ++ [ConsoleError None err]).

Definition finished (st : AppState) : AppState :=
  mkState (user st) (result st) (error st) false (stored_user st) (effects st).

Definition runAnalysis (st : AppState) : AppState :=
  match rows with
  | [] => st
  | _ :: _ =>
      let st1 := mkState (user st) (result st) None true
                   (stored_user st) (effects st) in
      match fetch_analyze with
      | NetworkError e => failed st1 e
      | Response status contentType body =>
          match read_body contentType body with
          | inl e => failed st1 e
          | inr json =>
              if negb (ok status) then failed st1 (not_ok_error status json)
              else
                let st2 := mkState (user st1) (Some json) (error st1)
                             (isAnalyzing st1) (stored_user st1)
                             (effects st1) in
                finished (persist st2 json)
          end
      end
  end.

End RunAnalysis.

End Client.

(* ================================================================= *)
(** ** The time a call of [withRetry] spends waiting *)

Definition total_delay (l : list Z) : Z := fold_right Z.add 0 l.

(* ================================================================= *)
(** ** The origin check of the specification *)

Module Origin.

(** The text after [://] in an origin [scheme://host] or
    [scheme://host:port]. *)
Fixpoint after_scheme (o : string) : string :=
  match o with
  | EmptyString => EmptyString
  | String c o1 =>
      match o1 with
      | String d (String e rest) =>
          if Ascii.eqb c ":" && Ascii.eqb d "/" && Ascii.eqb e "/" then rest
          else after_scheme o1
      | _ => EmptyString
      end
  end.

Fixpoint up_to_colon (s : string) : string :=
  match s with
  | EmptyString => EmptyString
  | String c s' => if Ascii.eqb c ":" then EmptyString
                   else String c (up_to_colon s')
  end.

Definition host (o : string) : string := up_to_colon (after_scheme o).

(** The check in the words of the specification: the origin's host is the
    expected application host or a local-development host. *)
Definition expected (app_host o : string) : bool :=
  String.eqb (host o) app_host ||
  String.eqb (host o) "localhost" ||
  String.eqb (host o) "127.0.0.1".

End Origin.

(* ================================================================= *)
(** ** What [POST /api/analyze] answers with *)

(** A reply of the handler is an error object, or the normalized
    document of a text that one of the upstream calls answered with. *)
Definition reply_shape
           (generateContent :
              string -> nat -> Retry.Outcome Server.GenerateContentResponse)
           (b : Server.AnalyzeBody) (status : Z) (body : Json.json) : Prop :=
  (exists msg, body = error_body msg) \/
  (status = 200 /\
   exists rows i t v,
     Server.dataset b = Some (Json.JArr rows) /\ (i < 5)%nat /\
     generateContent (Server.prompt_of rows b) i =
       Retry.Resolved (Server.mkResponse (Some t)) /\
     Json.parse t = Some v /\ Server.normalize v = inr body).

(* ================================================================= *)
(** ** Values on which [Json] and the platform agree to the letter *)

Module Platform.

Import Json.

(** A decimal of at most 15 significant digits whose decimal point lies
    within 300 places of them is the shortest decimal of the double
    nearest to it, so [JSON.parse] and [JSON.stringify] hand it on digit
    for digit.  Beyond that a double rounds (17 digits and more),
    overflows to [Infinity] (1e400) or underflows to 0 (1e-400), which the
    exact decimals of [Json] do not follow. *)
Definition number_plain (n : Number) : bool :=
  (String.length (digits n) <=? 15)%nat &&
  (-300 <=? point n) && (point n <=? 300).

(** A property name written as a whole number: JavaScript lists the
    array indices among these before all other names, in numeric order,
    where [Json] keeps the order of the text. *)
Definition index_like (k : string) : bool :=
  match k with
  | EmptyString => false
  | String _ _ => all_digits k
  end.

(** A value without such numbers and property names: what [Json.parse]
    returns for its text is what [JSON.parse] returns. *)
Fixpoint plain (v : json) : bool :=
  match v with
  | JNum n => number_plain n
  | JArr items => forallb plain items
  | JObj fields =>
      forallb (fun kv => negb (index_like (fst kv)) && plain (snd kv)) fields
  | _ => true
  end.

End Platform.

(* ================================================================= *)
(** ** Texts and their lines *)

Module Text.

Fixpoint every (p : ascii -> bool) (s : string) : bool :=
  match s with
  | EmptyString => true
  | String c s' => p c && every p s'
  end.

(** Not a C0 control character (U+0000 to U+001F, among them tab, line
    feed and carriage return): the characters [JSON.stringify] writes
    escaped inside a string.  It says nothing of U+007F or of the
    characters outside ASCII. *)
Definition above_c0 (c : ascii) : bool := (32 <=? nat_of_ascii c)%nat.

Definition is_lf (c : ascii) : bool := Ascii.eqb c "010".

(** [s.split('\n')]: the lines of a text. *)
Fixpoint lines (s : string) : list string :=
  match s with
  | EmptyString => [EmptyString]
  | String c s' =>
      if is_lf c then EmptyString :: lines s'
      else match lines s' with
           | l :: ls => String c l :: ls
           | [] => [String c EmptyString]
           end
  end.

End Text.

(* ================================================================= *)
(** ** What the schema and the two report routes keep true of the store *)

Module Integrity.

(** [id TEXT PRIMARY KEY] *)
Definition keys_unique (db : Store.Db) : Prop :=
  NoDup (map Store.id (Store.reports db)).

(** [FOREIGN KEY(user_id) REFERENCES users(id)], where the connection
    enforces it: every report that names a user names a stored one. *)
Definition references_hold (db : Store.Db) : Prop :=
  Store.foreign_keys db = true ->
  Forall (fun r => forall u, Store.user_id r = Some u -> In u (Store.users db))
         (Store.reports db).

(** Every [result] column holds what [POST /api/reports] writes: the text
    [JSON.stringify] gives for a value. *)
Definition well_stored (db : Store.Db) : Prop :=
  Forall (fun r => exists x, Json.value_ok x = true /\
                             Store.result r = Store.encode x)
         (Store.reports db).

(** The row [POST /api/reports] inserts for a body at clock reading
    [now]. *)
Definition row_of (now : string) (b : Store.ReportBody) : Store.Report :=
  Store.mkReport (Store.body_id b) (Store.body_userId b) (Store.body_query b)
                 (Store.body_context b) (Store.encode (Store.body_result b))
                 now.

End Integrity.

(* ================================================================= *)
(** ** Sign-in with Google: [GET /api/auth/google/url]
       (server.ts, lines 103-133) and the redirect address of the
       callback route (lines 137 and 149) *)

Module Auth.

Import Json.

Record Env : Type := mkEnv {
  APP_URL : option string;
  GOOGLE_CLIENT_ID : option string
}.

(** [s.replace(/\/$/, "")]: a slash at the very end is removed, once. *)
Fixpoint strip_slash (s : string) : string :=
  match s with
  | EmptyString => EmptyString
  | String c s' =>
      match s' with
      | EmptyString => if Ascii.eqb c "/" then EmptyString else s
      | String _ _ => String c (strip_slash s')
      end
  end.

(** [process.env.APP_URL?.replace(/\/$/, "")] *)
Definition appUrl (env : Env) : option string :=
  match APP_URL env with
  | Some s => Some (strip_slash s)
  | None => None
  end.

Definition rootUrl : string := "https://accounts.google.com/o/oauth2/v2/auth".

(** [`${appUrl}/auth/google/callback`] for an [appUrl] that is a string. *)
Definition redirect_of (appUrl : string) : string :=
  (appUrl ++ "/auth/google/callback")%string.

(** The serializer of [URLSearchParams]: letters, digits and [* - . _]
    stand for themselves, a space becomes [+], and every other byte is
    written as [%] and two upper-case hexadecimal digits. *)
Definition unreserved (c : ascii) : bool :=
  let n := nat_of_ascii c in
  ((48 <=? n) && (n <=? 57) || (65 <=? n) && (n <=? 90) ||
   (97 <=? n) && (n <=? 122) ||
   (n =? 42) || (n =? 45) || (n =? 46) || (n =? 95))%nat.

Definition hex_upper (n : nat) : ascii :=
  if (n <? 10)%nat then ascii_of_nat (48 + n) else ascii_of_nat (55 + n).

Definition encode_byte (c : ascii) : string :=
  let n := nat_of_ascii c in
  if unreserved c then String c EmptyString
  else if Ascii.eqb c " " then "+"
  else String "%" (String (hex_upper (n / 16))
                     (String (hex_upper (n mod 16)) EmptyString)).

Fixpoint form_encode (s : string) : string :=
  match s with
  | EmptyString => EmptyString
  | String c s' => (encode_byte c ++ form_encode s')%string
  end.

Definition pair_text (kv : string * string) : string :=
  (form_encode (fst kv) ++ "=" ++ form_encode (snd kv))%string.

(** [new URLSearchParams(options).toString()] *)
Definition to_query (params : list (string * string)) : string :=
  Server.join "&" (map pair_text params).

(** The object [options], as the list of its properties. *)
Definition options (redirectUri client_id : string) : list (string * string) :=
  [("redirect_uri", redirectUri);
   ("client_id", client_id);
   ("access_type", "offline");
   ("response_type", "code");
   ("prompt", "consent");
   ("scope", Server.join " "
               ["https://www.googleapis.com/auth/userinfo.profile";
                "https://www.googleapis.com/auth/userinfo.email"])].

Definition google_url (env : Env) : Reply :=
  match appUrl env with
  | None =>
      Sent 500 (error_body "APP_URL environment variable is not set.")
  | Some a =>
      if negb (Str.truthy a) then
        Sent 500 (error_body "APP_URL environment variable is not set.")
      else
        let redirectUri := redirect_of a in
        match GOOGLE_CLIENT_ID env with
        | None =>
            Sent 500 (error_body
              "GOOGLE_CLIENT_ID environment variable is not set.")
        | Some client_id =>
            if negb (Str.truthy client_id) then
              Sent 500 (error_body
                "GOOGLE_CLIENT_ID environment variable is not set.")
            else
              Sent 200 (JObj [("url",
                JStr (rootUrl ++ "?" ++
                      to_query (options redirectUri client_id)))])
        end
  end.

(** A template literal writes [undefined] for a value that is missing. *)
Definition interpolate (v : option string) : string :=
  match v with
  | Some s => s
  | None => "undefined"
  end.

(** The [redirect_uri] the callback route sends when it exchanges the
    code for tokens. *)
Definition callback_redirect_uri (env : Env) : string :=
  (interpolate (appUrl env) ++ "/auth/google/callback")%string.

(** The characters that separate the parts of an address and of its
    query string. *)
Definition separator (c : ascii) : Prop :=
  c = "&"%char \/ c = "="%char \/ c = "#"%char \/ c = "?"%char \/
  c = " "%char.

(** How often a character occurs in a text. *)
Fixpoint count (c : ascii) (s : string) : nat :=
  match s with
  | EmptyString => O
  | String c' s' => ((if Ascii.eqb c' c then 1 else 0) + count c s')%nat
  end.

End Auth.

(* ================================================================= *)
(** ** [GET /api/health] (server.ts, lines 219-235) *)

Module Health.

Import Json.

(** [!!geminiKey && geminiKey.trim() !== ""] *)
Definition isGeminiKeyConfigured (geminiKey : option string) : bool :=
  match geminiKey with
  | Some k => Str.truthy k && negb (String.eqb (Str.trim k) EmptyString)
  | None => false
  end.

Definition geminiKeyName (env : Server.Env) : string :=
  if Server.env_truthy (Server.COGAPI3 env) then "COGAPI3"
  else if Server.env_truthy (Server.GEMINI_API_KEY env) then "GEMINI_API_KEY"
  else "NONE".

(** The object the route sends; [firebase] is [!!firebaseAdmin]. *)
Definition health (env : Server.Env) (auth : Auth.Env) (firebase : bool)
  : json :=
  let appUrl := Auth.appUrl auth in
  let geminiKey :=
    Server.or_env (Server.COGAPI3 env) (Server.GEMINI_API_KEY env) in
  JObj [("status", JStr "ok");
        ("firebase", JBool firebase);
        ("appUrl", JStr (Server.or_default appUrl "NOT_SET"));
        ("googleClientId",
         JBool (Server.env_truthy (Auth.GOOGLE_CLIENT_ID auth)));
        ("geminiKeyConfigured", JBool (isGeminiKeyConfigured geminiKey));
        ("geminiKeyName", JStr (geminiKeyName env));
        ("redirectUri",
         JStr (match appUrl with
               | Some a => if Str.truthy a then Auth.redirect_of a
                           else "APP_URL_MISSING"
               | None => "APP_URL_MISSING"
               end));
        ("origin", JStr (Server.or_default appUrl "APP_URL_MISSING"))].

End Health.

(* ================================================================= *)
(** ** [getFirebaseAdmin] (server.ts, lines 13-40) *)

Module Firebase.

Import Json.

(** [s.slice(1, -1)]: the text without its first and its last character;
    empty for a text of fewer than two characters. *)
Fixpoint drop_last (s : string) : string :=
  match s with
  | EmptyString => EmptyString
  | String c s' =>
      match s' with
      | EmptyString => EmptyString
      | String _ _ => String c (drop_last s')
      end
  end.

Definition slice_inner (s : string) : string := drop_last (drop 1 s).

(** [s.replace(/\\"/g, '"')]: every backslash that a double quote
    follows is removed, scanning from the left. *)
Fixpoint unescape_quotes (s : string) : string :=
  match s with
  | EmptyString => EmptyString
  | String c s' =>
      match s' with
      | EmptyString => s
      | String d s'' =>
          if Ascii.eqb c backslash && Ascii.eqb d dquote
          then String dquote (unescape_quotes s'')
          else String c (unescape_quotes s')
      end
  end.

(** Lines 20-24: the text handed to [JSON.parse]. *)
Definition serviceAccountText (raw : string) : string :=
  let s := Str.trim raw in
  if Str.startsWith s (String dquote EmptyString) &&
     Str.endsWith s (String dquote EmptyString)
  then unescape_quotes (slice_inner s)
  else s.

Inductive Console : Type :=
| Log (text : string)
| Warn (text : string)
| Error (text : string)
| ErrorDetails.            (* [console.error("Error details:", error)] *)

Section Admin.
(** The application object of the SDK, and [admin.initializeApp] applied
    to the credential of a service account; [None] when the SDK throws. *)
Variable App : Type.
Variable initializeApp : json -> option App.

Definition failed : list Console :=
  [Error "Failed to parse FIREBASE_SERVICE_ACCOUNT. Ensure it is a valid JSON string.";
   ErrorDetails].

Definition missing : list Console :=
  [Warn "FIREBASE_SERVICE_ACCOUNT not found. Firebase features will be disabled."].

(** The [try] block, lines 19-34: the new value of [firebaseAdmin]. *)
Definition initialise (raw : string) : option App * list Console :=
  match parse (serviceAccountText raw) with
  | None => (None, failed)
  | Some serviceAccount =>
      match initializeApp serviceAccount with
      | Some app => (Some app, [Log "Firebase Admin initialized successfully."])
      | None => (None, failed)
      end
  end.

(** The function on the module variable [firebaseAdmin] and the
    environment variable: the value returned, which is also the new value
    of [firebaseAdmin], and what is written to the console. *)
Definition getFirebaseAdmin (firebaseAdmin : option App)
           (FIREBASE_SERVICE_ACCOUNT : option string)
  : option App * list Console :=
  match firebaseAdmin with
  | Some app => (Some app, [])
  | None =>
      match FIREBASE_SERVICE_ACCOUNT with
      | Some raw => if Str.truthy raw then initialise raw else (None, missing)
      | None => (None, missing)
      end
  end.

End Admin.

End Firebase.

(* ================================================================= *)
(** ** The client component: the state around [runAnalysis] and the
       handlers that set it (part_000, lines 264-501) *)

Module App.

Import Json Client.

(** The component's state as far as these handlers read or write it:
    the state of [Client], and [data], [headers], [query], [context],
    [history] and [showHistory]. *)
Record View : Type := mkView {
  state : AppState;
  data : list json;
  headers : list string;
  query : string;
  context : string;
  history : json;
  showHistory : bool
}.

Definition with_state (st : AppState) (v : View) : View :=
  mkView st (data v) (headers v) (query v) (context v) (history v)
         (showHistory v).

Definition setError (e : option string) (st : AppState) : AppState :=
  mkState (user st) (result st) e (isAnalyzing st) (stored_user st)
          (effects st).

Definition setIsAnalyzing (b : bool) (st : AppState) : AppState :=
  mkState (user st) (result st) (error st) b (stored_user st) (effects st).

Definition perform (e : Effect) (st : AppState) : AppState :=
  mkState (user st) (result st) (error st) (isAnalyzing st) (stored_user st)
          (effects st ++ [e]).

(** The state of a page that has just been loaded: the initial values of
    the [useState] calls, and [localStorage] as the last page left it. *)
Definition loaded (stored : option string) : View :=
  mkView (mkState (Some JNull) (Some JNull) None false stored [])
         [] [] EmptyString EmptyString (JArr []) false.

(** The request [runAnalysis] sends, as [express.json] hands it to the
    handler: [data.slice(0, 500)], [query] and [context] ([totalRows] is
    not read by the server). *)
Definition analyze_request (rows : list json) (query context : string)
  : Server.AnalyzeBody :=
  Server.mkBody (Some (JArr (firstn 500 rows))) (Some query) (Some context).

Section Handlers.
Variable syntax_error_message : string -> string.

(** The first statements of the mount effect (lines 285-290): the user
    saved by an earlier page is restored and their history fetched.  A
    saved text that [JSON.parse] rejects throws out of the effect. *)
Definition restore (st : AppState) : AppState :=
  match stored_user st with
  | None => st
  | Some savedUser =>
      if negb (Str.truthy savedUser) then st
      else
        match parse savedUser with
        | None =>
            perform (Uncaught (Server.js_error
                                 (syntax_error_message savedUser))) st
        | Some u =>
            let after :=
              match u with
              | JNull =>
                  Uncaught (Server.js_error
                    "Cannot read properties of null (reading 'id')")
              | _ => FetchHistory (prop u "id")
              end in
            mkState (Some u) (result st) (error st) (isAnalyzing st)
                    (stored_user st) (effects st ++ [after])
        end
  end.

(** [fetchHistory] (lines 322-335), for what its request comes to. *)
Definition fetchHistory (response : Fetch) (v : View) : View :=
  match response with
  | NetworkError e =>
      with_state (perform (ConsoleError (Some "Fetch history failed") e)
                          (state v)) v
  | Response status contentType body =>
      if ok status then
        if match contentType with
           | Some ct => Str.truthy ct && Str.includes ct "application/json"
           | None => false
           end
        then
          match parse body with
          | Some d =>
              mkView (state v) (data v) (headers v) (query v) (context v)
                     d (showHistory v)
          | None =>
              with_state
                (perform (ConsoleError (Some "Fetch history failed")
                            (Server.js_error (syntax_error_message body)))
                         (state v)) v
          end
        else v
      else v
  end.

(** [runAnalysis] on the component's own [data], [query] and
    [context]. *)
Definition runAnalysis (now : N) (fetch_analyze fetch_reports : Fetch)
           (v : View) : View :=
  with_state
    (Client.runAnalysis syntax_error_message (data v) (query v) (context v)
                        now fetch_analyze fetch_reports (state v)) v.

End Handlers.

(** [handleSignOut] (lines 358-368) *)
Definition handleSignOut (v : View) : View :=
  mkView (mkState (Some JNull) (Some JNull) None (isAnalyzing (state v))
                  None (effects (state v)))
         [] (headers v) EmptyString EmptyString (JArr []) false.

(** What the two parsers of [processFile] come to.  [Papa.parse] calls
    [complete] with the rows, the errors (here their number) and
    [meta.fields], or [error]; the reader of a spreadsheet loads it, and
    [XLSX] then gives the rows of the first sheet, objects keyed by column,
    or throws; or the reader fails. *)
Inductive CsvOutcome : Type :=
| Complete (rows : list json) (errors : nat) (fields : option (list string))
| ParseError (message : option string).

Inductive ExcelOutcome : Type :=
| Loaded (rows : list (list (string * json)))
| Threw (message : option string)
| ReaderError.

Definition setData (rows : list json) (v : View) : View :=
  mkView (state v) rows (headers v) (query v) (context v) (history v)
         (showHistory v).

Definition setHeaders (h : list string) (v : View) : View :=
  mkView (state v) (data v) h (query v) (context v) (history v)
         (showHistory v).

(** [if (results.meta.fields) setHeaders(results.meta.fields)] *)
Definition setFields (fields : option (list string)) (v : View) : View :=
  match fields with
  | Some h => setHeaders h v
  | None => v
  end.

Definition fail (msg : string) (v : View) : View :=
  with_state (setError (Some msg) (state v)) v.

Definition stop (v : View) : View :=
  with_state (setIsAnalyzing false (state v)) v.

(** [processFile] (lines 397-477) with the callbacks of the parser run
    to their end; its console output is left out. *)
Definition processFile (name : string) (papa : CsvOutcome)
           (xlsx : ExcelOutcome) (v : View) : View :=
  let fileName := Str.toLowerCase name in
  let isCsv := Str.endsWith fileName ".csv" in
  let isExcel :=
    Str.endsWith fileName ".xlsx" || Str.endsWith fileName ".xls" in
  if negb isCsv && negb isExcel then
    fail "Invalid file type. Please upload a CSV or Excel file." v
  else
    let v1 :=
      with_state (setError None (setIsAnalyzing true (state v))) v in
    if isCsv then
      match papa with
      | Complete rows errors fields =>
          let v2 := stop v1 in
          if (0 <? errors)%nat then
            let v3 :=
              fail "Failed to parse CSV file. Some rows may be malformed." v2 in
            match rows with
            | [] => v3
            | _ :: _ => setFields fields (setData rows v3)
            end
          else
            match rows with
            | [] => fail "The uploaded CSV file contains no data." v2
            | _ :: _ => setFields fields (setData rows v2)
            end
      | ParseError message =>
          fail ("Error reading file: " ++ Auth.interpolate message) (stop v1)
      end
    else
      match xlsx with
      | Loaded rows =>
          let v2 := stop v1 in
          match rows with
          | [] => fail "The uploaded Excel file contains no data." v2
          | first :: _ =>
              setHeaders (map fst first) (setData (map JObj rows) v2)
          end
      | Threw message =>
          fail ("Error reading Excel file: " ++ Auth.interpolate message)
               (stop v1)
      | ReaderError => fail "Error reading file." (stop v1)
      end.

Definition setResult (r : jsval) (st : AppState) : AppState :=
  mkState (user st) r (error st) (isAnalyzing st) (stored_user st)
          (effects st).

(** [loadFromHistory] (lines 374-379) for an entry [h] of [history]:
    [setResult(h.result); setQuery(h.query); setContext(h.context);
    setShowHistory(false)].  The interface [ReportHistory] has [query]
    and [context] strings; [None] stands for an entry that is not such an
    object, which this model of the fields [query] and [context] as
    strings does not hold. *)
Definition loadFromHistory (h : json) (v : View) : option View :=
  match h with
  | JObj fields =>
      match get_field fields "query", get_field fields "context" with
      | Some (JStr q), Some (JStr c) =>
          Some (mkView (setResult (get_field fields "result") (state v))
                       (data v) (headers v) q c (history v) false)
      | _, _ => None
      end
  | _ => None
  end.

(** What [handleSignIn] does to the browser. *)
Inductive Window : Type :=
| OpenWindow (url : jsval)     (* [window.open(url, 'google_oauth_popup', ...)] *)
| Alert (text : string).

Section SignIn.
Variable syntax_error_message : string -> string.

Definition sign_in_failed (e : JsError) (v : View) : View * list Window :=
  (with_state
     (setError (Some "Failed to initiate Google Sign-In.")
        (perform (ConsoleError (Some "Sign in failed") e) (state v))) v,
   []).

(** [handleSignIn] (lines 337-356), for what its request comes to and for
    a browser that opens the popup or blocks it. *)
Definition handleSignIn (response : Fetch) (popup_opens : bool) (v : View)
  : View * list Window :=
  match response with
  | NetworkError e => sign_in_failed e v
  | Response status _ body =>
      if negb (ok status) then
        sign_in_failed (Server.js_error "Failed to get auth URL") v
      else
        match parse body with
        | None =>
            sign_in_failed (Server.js_error (syntax_error_message body)) v
        | Some JNull =>
            sign_in_failed
              (Server.js_error
                 "Cannot destructure property 'url' of '(intermediate value)' as it is null.")
              v
        | Some json =>
            (v, OpenWindow (prop json "url") ::
                if popup_opens then []
                else [Alert "Please allow popups for this site to connect your account."])
        end
  end.

End SignIn.

End App.

(* ================================================================= *)
(** * Properties *)

(** ** Strings *)

Section StrFacts.
Import Str.

Lemma startsWith_iff (s p : string) :
  startsWith s p = true <-> exists suf, s = (p ++ suf)%string.
Proof.
  revert s; induction p as [|a p IH]; intros s; simpl.
  - split; [intros _; now exists s | intros; now destruct s].
  - destruct s as [|b s]; simpl.
    + split; [discriminate | intros [suf H]; discriminate].
    + rewrite andb_true_iff, Ascii.eqb_eq, IH. split.
      * intros [-> [suf ->]]. now exists suf.
      * intros [suf H]. injection H as -> ->. split; [reflexivity | now exists suf].
Qed.

Lemma includes_iff (s p : string) :
  includes s p = true <-> exists pre suf, s = (pre ++ p ++ suf)%string.
Proof.
  induction s as [|c s IH]; cbn [includes].
  - rewrite orb_false_r, startsWith_iff. split.
    + intros [suf H]. now exists EmptyString, suf.
    + intros [pre [suf H]]. destruct pre; simpl in H; [now exists suf | discriminate].
  - rewrite orb_true_iff, startsWith_iff, IH. split.
    + intros [[suf H] | [pre [suf H]]].
      * now exists EmptyString, suf.
      * exists (String c pre), suf. simpl. now rewrite H.
    + intros [pre [suf H]]. destruct pre as [|c' pre]; simpl in H.
      * left. now exists suf.
      * right. injection H as _ H. now exists pre, suf.
Qed.

Lemma endsWith_iff (s p : string) :
  endsWith s p = true <-> exists pre, s = (pre ++ p)%string.
Proof.
  induction s as [|c s IH]; cbn [endsWith].
  - rewrite orb_false_r, String.eqb_eq. split.
    + intros <-. now exists EmptyString.
    + intros [pre H]. destruct pre; simpl in H; [congruence | discriminate].
  - rewrite orb_true_iff, String.eqb_eq, IH. split.
    + intros [<- | [pre ->]]; [now exists EmptyString | now exists (String c pre)].
    + intros [pre H]. destruct pre as [|c' pre]; simpl in H.
      * now left.
      * right. injection H as _ H. now exists pre.
Qed.

End StrFacts.

(** ** The retrying invoker *)

Section RetryFacts.
Import Retry.

Lemma status_is_iff (v : option Z) (n : Z) : status_is v n = true <-> v = Some n.
Proof.
  destruct v as [m|]; simpl.
  - rewrite Z.eqb_eq. split; congruence.
  - split; discriminate.
Qed.

(** The test of the [catch] block is the classification of the
    specification. *)
Lemma isTransient_spec (e : JsError) :
  isTransient e = true <-> transient_spec e.
Proof.
  unfold isTransient, transient_spec, keywords, contains_ci, message_of.
  rewrite !orb_true_iff, !status_is_iff, !includes_iff.
  destruct (err_message e) as [m|].
  - split.
    + intros [[[[[[H|H]|H]|H]|H]|H]|H]; auto;
        right; right; eexists; (split; [|exists m; split; [reflexivity|exact H]]);
        simpl; auto 6.
    + intros [H|[H|[kw [Hin [m' [Hm H]]]]]]; auto 7.
      injection Hm as <-. simpl in Hin.
      destruct Hin as [<-|[<-|[<-|[<-|[<-|[]]]]]]; auto 7.
  - split.
    + intros [[[[[[H|H]|H]|H]|H]|H]|H]; auto;
        destruct H as [pre [suf H]]; destruct pre; discriminate.
    + intros [H|[H|[kw [_ [m' [Hm _]]]]]]; auto 7. discriminate.
Qed.

Context {T : Type}.
Variable fn : nat -> Outcome T.
Variable maxRetries : nat.
Variable baseDelay : Z.

Local Abbreviation loop := (Retry.loop fn maxRetries baseDelay).
Local Abbreviation round := (Retry.round maxRetries baseDelay).
Local Abbreviation rounds := (Retry.rounds maxRetries baseDelay).

Lemma loop_transient rem i last tr e :
  fn i = Rejected e -> isTransient e = true ->
  loop (S rem) i last tr = loop rem (S i) (Some e) (tr ++ round i).
Proof.
  intros Hfn Ht. simpl. rewrite Hfn, Ht. unfold round.
  now rewrite <- List.app_assoc.
Qed.

Lemma loop_terminal rem i last tr e :
  fn i = Rejected e -> isTransient e = false ->
  loop (S rem) i last tr = mkRun (Throw e) (tr ++ [Attempt i]).
Proof. intros Hfn Ht. simpl. now rewrite Hfn, Ht. Qed.

Lemma loop_resolved rem i last tr v :
  fn i = Resolved v ->
  loop (S rem) i last tr = mkRun (Return v) (tr ++ [Attempt i]).
Proof. intros Hfn. simpl. now rewrite Hfn. Qed.

(** [k] rounds that all fail with retryable errors. *)
Lemma loop_rounds k : forall rem i last tr,
  (forall j, (j < k)%nat ->
     exists e, fn (i + j)%nat = Rejected e /\ isTransient e = true) ->
  exists last',
    loop (k + rem) i last tr = loop rem (i + k) last' (tr ++ rounds i k) /\
    (forall e, (0 < k)%nat -> fn (i + k - 1)%nat = Rejected e -> last' = Some e) /\
    (k = O -> last' = last).
Proof.
  induction k as [|k IH]; intros rem i last tr H.
  - exists last. unfold rounds. simpl. rewrite List.app_nil_r, Nat.add_0_r.
    repeat split; auto. intros e Hk. lia.
  - destruct (H O ltac:(lia)) as [e [He Ht]]. rewrite Nat.add_0_r in He.
    destruct (IH rem (S i) (Some e) (tr ++ round i)) as [last' [Hl [Hlast H0]]].
    { intros j Hj. destruct (H (S j) ltac:(lia)) as [ej Hej].
      exists ej. now replace (S i + j)%nat with (i + S j)%nat by lia. }
    exists last'. split; [|split].
    + change (S k + rem)%nat with (S (k + rem)).
      rewrite (loop_transient _ _ _ _ _ He Ht), Hl.
      replace (S i + k)%nat with (i + S k)%nat by lia.
      f_equal. unfold rounds. simpl. now rewrite <- List.app_assoc.
    + intros e' _ He'. destruct k as [|k].
      * rewrite (H0 eq_refl). replace (i + 1 - 1)%nat with i in He' by lia.
        congruence.
      * apply Hlast; [lia|]. now replace (S i + S k - 1)%nat with (i + S (S k) - 1)%nat by lia.
    + discriminate.
Qed.

Lemma loop_extends rem : forall i last tr,
  exists ext, trace (loop rem i last tr) = tr ++ ext /\
              (forall rem', rem = S rem' -> exists ext', ext = Attempt i :: ext').
Proof.
  induction rem as [|rem IH]; intros i last tr.
  - exists []. simpl. rewrite List.app_nil_r. split; [now destruct last | discriminate].
  - simpl. destruct (fn i) as [v|e].
    + exists [Attempt i]. split; eauto.
    + destruct (isTransient e).
      * destruct (IH (S i) (Some e)
                     ((tr ++ [Attempt i]) ++
                      [Warn (i + 1) maxRetries (baseDelay * 2 ^ Z.of_nat i);
                       Sleep (baseDelay * 2 ^ Z.of_nat i)])) as [ext [Hext _]].
        rewrite Hext. eexists. rewrite <- !List.app_assoc. simpl. split; eauto.
      * exists [Attempt i]. split; eauto.
Qed.

Lemma attempts_rounds i k :
  List.length (filter is_attempt (rounds i k)) = k.
Proof.
  unfold rounds. revert i. induction k as [|k IH]; intros i; simpl; auto.
Qed.

Lemma sleeps_app tr1 tr2 : sleeps (tr1 ++ tr2) = sleeps tr1 ++ sleeps tr2.
Proof.
  induction tr1 as [|ev tr1 IH]; simpl; auto.
  destruct ev; simpl; now rewrite IH.
Qed.

Lemma sleeps_rounds i k :
  sleeps (rounds i k) =
  map (fun j => baseDelay * 2 ^ Z.of_nat j) (seq i k).
Proof.
  unfold rounds. revert i. induction k as [|k IH]; intros i; simpl; auto.
  now rewrite IH.
Qed.

End RetryFacts.

(** A failure that is not retryable ends the call at once; a retryable one
    is followed by the wait and, while iterations are left, by the next
    attempt. *)
Lemma withRetry_with_at {T : Type} (fn : nat -> Retry.Outcome T)
      (maxRetries : nat) (baseDelay : Z) (k : nat) (e : JsError) :
  (k < maxRetries)%nat ->
  (forall j, (j < k)%nat ->
     exists ej, fn j = Retry.Rejected ej /\ Retry.isTransient ej = true) ->
  fn k = Retry.Rejected e ->
  let r := Retry.withRetry_with fn maxRetries baseDelay in
  let waits := map (fun j => baseDelay * 2 ^ Z.of_nat j) in
  (Retry.isTransient e = false ->
     Retry.completion r = Retry.Throw e /\
     Retry.attempts r = S k /\
     Retry.delays r = waits (seq 0 k)) /\
  (Retry.isTransient e = true ->
     (exists more, Retry.delays r = waits (seq 0 (S k)) ++ more) /\
     (S k <= Retry.attempts r)%nat /\
     ((S k < maxRetries)%nat -> (S (S k) <= Retry.attempts r)%nat)).
Proof.
  intros Hk Hpre Hfn r waits. subst r waits. unfold Retry.withRetry_with.
  destruct (loop_rounds fn maxRetries baseDelay k (maxRetries - k) 0 None [])
    as [last' [Hl _]].
  { intros j Hj. simpl. auto. }
  replace (k + (maxRetries - k))%nat with maxRetries in Hl by lia.
  rewrite Hl. simpl (0 + k)%nat. simpl ([] ++ _).
  destruct (maxRetries - k)%nat as [|rem] eqn:Hrem; [lia|].
  split; intros Ht.
  - rewrite (loop_terminal fn maxRetries baseDelay _ _ _ _ _ Hfn Ht).
    unfold Retry.attempts, Retry.delays. simpl.
    rewrite filter_app, length_app, attempts_rounds, sleeps_app, sleeps_rounds.
    simpl. rewrite List.app_nil_r. repeat split; auto. lia.
  - rewrite (loop_transient fn maxRetries baseDelay _ _ _ _ _ Hfn Ht).
    destruct (loop_extends fn maxRetries baseDelay rem (S k) (Some e)
                (Retry.rounds maxRetries baseDelay 0 k ++
                 Retry.round maxRetries baseDelay k)) as [ext [Hext Hnext]].
    unfold Retry.attempts, Retry.delays. rewrite Hext.
    rewrite !sleeps_app, !filter_app, !length_app, attempts_rounds, sleeps_rounds.
    split; [|split].
    + exists (Retry.sleeps ext). rewrite seq_S, map_app, <- !List.app_assoc.
      reflexivity.
    + simpl. lia.
    + intros Hlt. destruct rem as [|rem']; [lia|].
      destruct (Hnext rem' eq_refl) as [ext' ->]. simpl. lia.
Qed.

(** C1.  Every error an attempt of [withRetry] raises is classified by the
    test of the specification: status 429 or 503, or one of the five
    keywords in the lower-cased message.  An error outside the
    classification is thrown at once and unchanged, with no wait and no
    further attempt (so a first attempt that fails this way is the only
    one); an error inside it is followed by its back-off wait and, while
    attempts are left, by another attempt. *)
Theorem withRetry_retries_iff_transient {T : Type}
        (fn : nat -> Retry.Outcome T) (k : nat) (e : JsError) :
  (k < 5)%nat ->
  (forall j, (j < k)%nat ->
     exists ej, fn j = Retry.Rejected ej /\ Retry.transient_spec ej) ->
  fn k = Retry.Rejected e ->
  let r := Retry.withRetry fn in
  (Retry.transient_spec e <->
     nth_error (Retry.delays r) k = Some (2000 * 2 ^ Z.of_nat k)) /\
  ((S k < 5)%nat -> (Retry.transient_spec e <-> (S k < Retry.attempts r)%nat)) /\
  (~ Retry.transient_spec e ->
     Retry.completion r = Retry.Throw e /\
     Retry.attempts r = S k /\
     List.length (Retry.delays r) = k) /\
  (k = O -> ~ Retry.transient_spec e ->
     Retry.completion r = Retry.Throw e /\
     Retry.attempts r = 1%nat /\
     Retry.delays r = []).
Proof.
  intros Hk Hpre Hfn r.
  assert (Hpre' : forall j, (j < k)%nat ->
            exists ej, fn j = Retry.Rejected ej /\ Retry.isTransient ej = true).
  { intros j Hj. destruct (Hpre j Hj) as [ej [H1 H2]].
    exists ej. now rewrite isTransient_spec. }
  destruct (withRetry_with_at fn 5 2000 k e Hk Hpre' Hfn) as [Hterm Htrans].
  fold (Retry.withRetry fn) in Hterm, Htrans. fold r in Hterm, Htrans.
  rewrite <- isTransient_spec.
  destruct (Retry.isTransient e) eqn:Ht.
  - destruct (Htrans eq_refl) as [[more Hd] [Ha Hnext]].
    assert (Hnth : nth_error (Retry.delays r) k = Some (2000 * 2 ^ Z.of_nat k)).
    { rewrite Hd, nth_error_app1 by (rewrite length_map, length_seq; lia).
      rewrite nth_error_map, nth_error_seq.
      destruct (Nat.ltb_spec k (S k)); [reflexivity | lia]. }
    repeat split; auto; try congruence; try (intros; lia).
  - destruct (Hterm eq_refl) as [Hc [Ha Hd]].
    assert (Hlen : List.length (Retry.delays r) = k)
      by (rewrite Hd, length_map, length_seq; reflexivity).
    repeat split; auto; try congruence; try (intros; lia).
    + intros Hnth.
      assert (k < List.length (Retry.delays r))%nat
        by (apply nth_error_Some; congruence).
      lia.
    + rewrite Hd.
      match goal with H : k = O |- _ => rewrite H end. reflexivity.
Qed.

Lemma withRetry_retries_iff_transient_witness :
  let busy := mkError (Some 429) None (Some "Too Many Requests") in
  let gone := mkError (Some 404) None (Some "Not Found") in
  let fn := fun i : nat =>
    match i with
    | O => Retry.Rejected busy
    | _ => @Retry.Rejected string gone
    end in
  let r := Retry.withRetry fn in
  (Retry.transient_spec gone <->
     nth_error (Retry.delays r) 1 = Some (2000 * 2 ^ Z.of_nat 1)) /\
  ((2 < 5)%nat -> (Retry.transient_spec gone <-> (2 < Retry.attempts r)%nat)) /\
  (~ Retry.transient_spec gone ->
     Retry.completion r = Retry.Throw gone /\
     Retry.attempts r = 2%nat /\
     List.length (Retry.delays r) = 1%nat) /\
  (1%nat = O -> ~ Retry.transient_spec gone ->
     Retry.completion r = Retry.Throw gone /\
     Retry.attempts r = 1%nat /\
     Retry.delays r = []).
Proof.
  intros busy gone fn r.
  apply (withRetry_retries_iff_transient fn 1 gone).
  - lia.
  - intros j Hj. exists busy. split.
    + destruct j as [|j]; [reflexivity | lia].
    + left. reflexivity.
  - reflexivity.
Defined.

(** All five attempts failing with retryable errors: five attempts, the
    last error thrown unchanged, and a wait after every attempt, the last
    one included. *)
Lemma withRetry_with_exhausted {T : Type} (fn : nat -> Retry.Outcome T)
      (maxRetries : nat) (baseDelay : Z) (e : JsError) :
  (0 < maxRetries)%nat ->
  (forall j, (j < maxRetries)%nat ->
     exists ej, fn j = Retry.Rejected ej /\ Retry.isTransient ej = true) ->
  fn (maxRetries - 1)%nat = Retry.Rejected e ->
  let r := Retry.withRetry_with fn maxRetries baseDelay in
  Retry.completion r = Retry.Throw e /\
  Retry.trace r = Retry.rounds maxRetries baseDelay 0 maxRetries.
Proof.
  intros Hpos Hall Hlast r. subst r. unfold Retry.withRetry_with.
  destruct (loop_rounds fn maxRetries baseDelay maxRetries 0 0 None [])
    as [last' [Hl [Hlast' _]]].
  { intros j Hj. simpl. auto. }
  rewrite Nat.add_0_r in Hl. rewrite Hl. simpl.
  rewrite (Hlast' e Hpos Hlast). auto.
Qed.

(** C2.  When every attempt fails with a retryable error, [withRetry]
    makes five attempts and throws the last error unchanged; the waits it
    makes are 2000, 4000, 8000, 16000 and then a fifth one of 32000 ms,
    after the last attempt and before the error is thrown, where the
    specification has four. *)
Theorem withRetry_exhaustion_waits_after_last_attempt {T : Type}
        (fn : nat -> Retry.Outcome T) (e : JsError) :
  (forall j, (j < 5)%nat ->
     exists ej, fn j = Retry.Rejected ej /\ Retry.transient_spec ej) ->
  fn 4%nat = Retry.Rejected e ->
  let r := Retry.withRetry fn in
  Retry.completion r = Retry.Throw e /\
  Retry.attempts r = 5%nat /\
  Retry.delays r = [2000; 4000; 8000; 16000; 32000] /\
  Retry.delays r <> [2000; 4000; 8000; 16000] /\
  exists before, Retry.trace r =
    before ++ [Retry.Attempt 4; Retry.Warn 5 5 32000; Retry.Sleep 32000].
Proof.
  intros Hall Hlast r.
  assert (Hall' : forall j, (j < 5)%nat ->
            exists ej, fn j = Retry.Rejected ej /\ Retry.isTransient ej = true).
  { intros j Hj. destruct (Hall j Hj) as [ej [H1 H2]].
    exists ej. now rewrite isTransient_spec. }
  destruct (withRetry_with_exhausted fn 5 2000 e ltac:(lia) Hall' Hlast)
    as [Hc Ht].
  fold (Retry.withRetry fn) in Hc, Ht. fold r in Hc, Ht.
  unfold Retry.attempts, Retry.delays. rewrite Hc, Ht.
  repeat split; try reflexivity; try discriminate.
  eexists. unfold Retry.rounds. simpl.
  change (?a :: ?b :: ?c :: ?d :: ?e' :: ?f :: ?g :: ?h :: ?i :: ?j :: ?k :: ?l :: ?rest)
    with ([a; b; c; d; e'; f; g; h; i; j; k; l] ++ rest).
  reflexivity.
Qed.

Lemma withRetry_exhaustion_waits_after_last_attempt_witness :
  let busy := mkError (Some 429) None (Some "Too Many Requests") in
  let fn := fun _ : nat => @Retry.Rejected string busy in
  let r := Retry.withRetry fn in
  Retry.completion r = Retry.Throw busy /\
  Retry.attempts r = 5%nat /\
  Retry.delays r = [2000; 4000; 8000; 16000; 32000] /\
  Retry.delays r <> [2000; 4000; 8000; 16000] /\
  exists before, Retry.trace r =
    before ++ [Retry.Attempt 4; Retry.Warn 5 5 32000; Retry.Sleep 32000].
Proof.
  intros busy fn r.
  apply (withRetry_exhaustion_waits_after_last_attempt fn busy).
  - intros j Hj. exists busy. split; [reflexivity | left; reflexivity].
  - reflexivity.
Defined.

(** ** Properties of objects *)

Section FieldFacts.
Import Json.

Lemma get_set_same k v fields :
  get_field (set_field k v fields) k = Some v.
Proof.
  induction fields as [|[k' v'] fields IH]; simpl.
  - now rewrite String.eqb_refl.
  - destruct (String.eqb k' k) eqn:E; simpl.
    + now rewrite String.eqb_refl.
    + now rewrite E.
Qed.

Lemma get_set_other k k' v fields :
  k <> k' -> get_field (set_field k v fields) k' = get_field fields k'.
Proof.
  intros Hne. induction fields as [|[k0 v0] fields IH]; simpl.
  - apply String.eqb_neq in Hne. now rewrite Hne.
  - destruct (String.eqb k0 k) eqn:E; simpl.
    + apply String.eqb_eq in E. subst k0.
      apply String.eqb_neq in Hne. now rewrite Hne.
    + now rewrite IH.
Qed.

Lemma get_field_notin (ds : list (string * json)) k :
  ~ In k (map fst ds) -> get_field ds k = None.
Proof.
  induction ds as [|[k1 d1] ds IH]; cbn [get_field map fst In]; auto.
  intros Hnotin. destruct (String.eqb k1 k) eqn:E1.
  - apply String.eqb_eq in E1. tauto.
  - apply IH. tauto.
Qed.

Lemma get_fill_same fields k d :
  get_field (Server.fill fields (k, d)) k =
  if truthy (get_field fields k) then get_field fields k else Some d.
Proof.
  unfold Server.fill. simpl.
  destruct (truthy (get_field fields k)); simpl; auto using get_set_same.
Qed.

Lemma get_fill_other fields k d k' :
  k <> k' -> get_field (Server.fill fields (k, d)) k' = get_field fields k'.
Proof.
  intros Hne. unfold Server.fill. simpl.
  destruct (truthy (get_field fields k)); simpl; auto using get_set_other.
Qed.

(** The tests of a list of defaults with different names, one after the
    other: each name is decided by the value it had at the start. *)
Lemma get_fold_fill ds : NoDup (map fst ds) -> forall fields k,
  get_field (fold_left Server.fill ds fields) k =
  match get_field ds k with
  | Some d => if truthy (get_field fields k) then get_field fields k else Some d
  | None => get_field fields k
  end.
Proof.
  induction ds as [|[k0 d0] ds IH]; intros Hnd fields k; simpl; auto.
  inversion Hnd as [|? ? Hnotin Hnd']; subst.
  rewrite (IH Hnd'). destruct (String.eqb k0 k) eqn:E.
  - apply String.eqb_eq in E. subst k0.
    rewrite (get_field_notin _ _ Hnotin). apply get_fill_same.
  - apply String.eqb_neq in E. rewrite (get_fill_other _ _ _ _ E).
    reflexivity.
Qed.

Lemma defaults_distinct : NoDup (map fst Server.defaults).
Proof.
  simpl. repeat constructor; simpl; intuition discriminate.
Qed.

Lemma get_defaults_in k d :
  In (k, d) Server.defaults -> get_field Server.defaults k = Some d.
Proof.
  simpl. intros H.
  repeat (destruct H as [H|H]; [injection H as <- <-; reflexivity|]).
  contradiction.
Qed.

Lemma get_defaults_notin k :
  ~ In k (map fst Server.defaults) -> get_field Server.defaults k = None.
Proof. apply get_field_notin. Qed.

End FieldFacts.

(** C3 (as the code has it).  On the properties of a parsed document the
    normalizer gives each of the eight defaultable fields its literal
    default when the field is absent or holds a falsy value ([null],
    [false], [0], the empty string); it leaves each of the eight that holds
    a truthy value, and every other field ([forecast], [visualizations],
    [strategic_growth] and [market_expansion] among them), exactly as
    parsed, absence included; so in the result each of the eight is
    present. *)
Theorem normalize_fills_absent_or_falsy (fields : list (string * Json.json)) :
  Server.normalize (Json.JObj fields) =
    inr (Json.JObj (Server.fill_defaults fields)) /\
  (forall k d, In (k, d) Server.defaults ->
     Json.truthy (Json.get_field fields k) = false ->
     Json.get_field (Server.fill_defaults fields) k = Some d) /\
  (forall k d, In (k, d) Server.defaults ->
     Json.truthy (Json.get_field fields k) = true ->
     Json.get_field (Server.fill_defaults fields) k = Json.get_field fields k) /\
  (forall k, ~ In k (map fst Server.defaults) ->
     Json.get_field (Server.fill_defaults fields) k = Json.get_field fields k) /\
  (forall k, In k ["forecast"; "visualizations"; "strategic_growth";
                   "market_expansion"] ->
     Json.get_field (Server.fill_defaults fields) k = Json.get_field fields k) /\
  (forall k, In k (map fst Server.defaults) ->
     Json.has_field (Server.fill_defaults fields) k = true).
Proof.
  unfold Server.fill_defaults.
  pose proof (get_fold_fill Server.defaults defaults_distinct fields) as G.
  split; [reflexivity|]. split; [|split; [|split; [|split]]].
  - intros k d Hin Hf. rewrite G, (get_defaults_in _ _ Hin), Hf. reflexivity.
  - intros k d Hin Ht. rewrite G, (get_defaults_in _ _ Hin), Ht. reflexivity.
  - intros k Hnot. rewrite G, (get_defaults_notin _ Hnot). reflexivity.
  - intros k Hin. rewrite G.
    simpl in Hin.
    repeat (destruct Hin as [<-|Hin]; [reflexivity|]). contradiction.
  - intros k Hin. unfold Json.has_field. rewrite G.
    apply in_map_iff in Hin. destruct Hin as [[k' d] [Hk Hin]].
    simpl in Hk. subst k'. rewrite (get_defaults_in _ _ Hin).
    destruct (Json.truthy (Json.get_field fields k)) eqn:Ht; [|reflexivity].
    destruct (Json.get_field fields k); [reflexivity | discriminate].
Qed.

(** C3 as stated fails: a field that is present with the value [null] is
    not left as parsed. *)
Lemma normalize_replaces_present_null :
  let parsed := [("insights", Json.JNull); ("forecast", Json.JNull)] in
  Json.parse ("{" ++ Server.qt "insights" ++ ":null,"
                  ++ Server.qt "forecast" ++ ":null}")
    = Some (Json.JObj parsed) /\
  Json.has_field parsed "insights" = true /\
  Json.get_field parsed "insights" = Some Json.JNull /\
  Json.get_field (Server.fill_defaults parsed) "insights"
    = Some (Json.JArr []) /\
  Json.get_field (Server.fill_defaults parsed) "insights"
    <> Json.get_field parsed "insights".
Proof.
  vm_compute. repeat split; discriminate.
Qed.

(** ** [POST /api/analyze] *)

Section AnalyzeFacts.
Import Json Server.

Variable syntax_error_message : string -> string.
Variable generateContent :
  string -> nat -> Retry.Outcome GenerateContentResponse.
Variable env : Env.

Local Abbreviation analyze := (Server.analyze syntax_error_message generateContent env).

(** Past the two guards, the handler is the retried call followed by
    [finish] or the [catch] block. *)
Lemma analyze_calls_upstream (b : AnalyzeBody) (rows : list json) :
  dataset b = Some (JArr rows) ->
  configured env ->
  let run := Retry.withRetry (generateContent (prompt_of rows b)) in
  analyze b =
  mkHandled
    match Retry.completion run with
    | Retry.Return response =>
        match finish syntax_error_message response with
        | inr r => r
        | inl e => on_error env e
        end
    | Retry.Throw e => on_error env e
    | Retry.ThrowUndefined => Raised TypeError
    end
    (Retry.trace run).
Proof.
  intros Hd [apiKey [Hkey Hblank]] run. unfold Server.analyze.
  rewrite Hd, Hkey. simpl truthy. simpl negb. cbv iota.
  apply String.eqb_neq in Hblank. rewrite Hblank. simpl dataset_rows. cbv iota.
  fold run. destruct (Retry.completion run) as [response|e|]; auto.
  destruct (finish syntax_error_message response); auto.
Qed.

End AnalyzeFacts.

(** C10.  The text ["null"] is valid JSON, and when the upstream call
    answers with it the handler sends no defaulted result: reading
    [result.data_summary] throws, and the [catch] block answers 500 with
    the message of that error. *)
Theorem analyze_null_document_is_500
        (syntax_error_message : string -> string)
        (generateContent :
           string -> nat -> Retry.Outcome Server.GenerateContentResponse)
        (env : Server.Env) (b : Server.AnalyzeBody) (rows : list Json.json) :
  Server.dataset b = Some (Json.JArr rows) ->
  Server.configured env ->
  generateContent (Server.prompt_of rows b) O =
    Retry.Resolved (Server.mkResponse (Some "null")) ->
  Json.parse "null" = Some Json.JNull /\
  Server.normalize Json.JNull =
    inl (Server.js_error
           "Cannot read properties of null (reading 'data_summary')") /\
  Server.analyze syntax_error_message generateContent env b =
    Server.mkHandled
      (Sent 500 (error_body
         "Cannot read properties of null (reading 'data_summary')"))
      [Retry.Attempt 0] /\
  forall result,
    Server.reply (Server.analyze syntax_error_message generateContent env b)
      <> Sent 200 result.
Proof.
  intros Hd Hc Hup.
  assert (Ha : Server.analyze syntax_error_message generateContent env b =
    Server.mkHandled
      (Sent 500 (error_body
         "Cannot read properties of null (reading 'data_summary')"))
      [Retry.Attempt 0]).
  { rewrite (analyze_calls_upstream _ _ _ _ _ Hd Hc).
    unfold Retry.withRetry, Retry.withRetry_with.
    rewrite (loop_resolved _ _ _ _ _ _ _ _ Hup). reflexivity. }
  repeat split; auto. intros result. rewrite Ha. discriminate.
Qed.

Lemma analyze_null_document_is_500_witness :
  let env := Server.mkEnv (Some "key-1") None in
  let b := Server.mkBody (Some (Json.JArr [])) None None in
  let up := fun (_ : string) (_ : nat) =>
              Retry.Resolved (Server.mkResponse (Some "null")) in
  Json.parse "null" = Some Json.JNull /\
  Server.normalize Json.JNull =
    inl (Server.js_error
           "Cannot read properties of null (reading 'data_summary')") /\
  Server.analyze (fun _ => "Unexpected token") up env b =
    Server.mkHandled
      (Sent 500 (error_body
         "Cannot read properties of null (reading 'data_summary')"))
      [Retry.Attempt 0] /\
  forall result,
    Server.reply (Server.analyze (fun _ => "Unexpected token") up env b)
      <> Sent 200 result.
Proof.
  intros env b up.
  apply (analyze_null_document_is_500 (fun _ => "Unexpected token") up env b []).
  - reflexivity.
  - exists "key-1". split; [reflexivity | discriminate].
  - reflexivity.
Defined.

Section AnalyzeFailures.
Import Json Server.

Variable syntax_error_message : string -> string.
Variable generateContent :
  string -> nat -> Retry.Outcome GenerateContentResponse.
Variable env : Env.

Local Abbreviation analyze := (Server.analyze syntax_error_message generateContent env).

Lemma analyze_dataset_required (b : AnalyzeBody) :
  truthy (dataset b) = false ->
  analyze b = mkHandled (Sent 400 (error_body "Dataset is required")) [].
Proof. intros H. unfold Server.analyze. now rewrite H. Qed.

Lemma analyze_not_configured (b : AnalyzeBody) :
  truthy (dataset b) = true ->
  ~ configured env ->
  analyze b =
  mkHandled (Sent 500 (error_body
    "Gemini API key is not configured. Please set COGAPI3 or GEMINI_API_KEY in the environment variables.")) [].
Proof.
  intros Hd Hn. unfold Server.analyze. rewrite Hd. simpl negb. cbv iota.
  destruct (or_env (COGAPI3 env) (GEMINI_API_KEY env)) as [apiKey|] eqn:Hk; auto.
  destruct (String.eqb (Str.trim apiKey) EmptyString) eqn:Hb; auto.
  exfalso. apply Hn. exists apiKey. split; auto. now apply String.eqb_neq.
Qed.

(** The name in the message is the variable the key was read from. *)
Lemma keySource_names_key :
  configured env ->
  (keySource env = "COGAPI3" /\
   or_env (COGAPI3 env) (GEMINI_API_KEY env) = COGAPI3 env) \/
  (keySource env = "GEMINI_API_KEY" /\
   or_env (COGAPI3 env) (GEMINI_API_KEY env) = GEMINI_API_KEY env).
Proof.
  intros [apiKey [Hk Hb]]. unfold keySource, or_env, env_truthy in *.
  destruct (COGAPI3 env) as [c|].
  - destruct (Str.truthy c); auto.
    destruct (GEMINI_API_KEY env) as [g|]; [|discriminate].
    injection Hk as ->. destruct apiKey; [now elim Hb | auto].
  - destruct (GEMINI_API_KEY env) as [g|]; [|discriminate].
    injection Hk as ->. destruct apiKey; [now elim Hb | auto].
Qed.

Lemma on_error_rate_limited (e : JsError) :
  invalid_key e = false -> rate_limited e = true ->
  on_error env e = Sent 429 (error_body rate_limit_message).
Proof.
  unfold on_error. intros -> ->. reflexivity.
Qed.

Lemma on_error_other (e : JsError) :
  invalid_key e = false -> rate_limited e = false ->
  on_error env e =
  Sent (catch_status e)
       (error_body (or_default (err_message e) "Failed to analyze data")).
Proof.
  unfold on_error. intros -> ->. reflexivity.
Qed.

(** The retried call exhausted: the [catch] block gets its last error. *)
Lemma analyze_exhausted (b : AnalyzeBody) (rows : list json) (e : JsError) :
  dataset b = Some (JArr rows) ->
  configured env ->
  (forall j, (j < 5)%nat ->
     exists ej, generateContent (prompt_of rows b) j = Retry.Rejected ej /\
                Retry.transient_spec ej) ->
  generateContent (prompt_of rows b) 4%nat = Retry.Rejected e ->
  analyze b = mkHandled (on_error env e) (Retry.rounds 5 2000 0 5).
Proof.
  intros Hd Hc Hall Hlast.
  rewrite (analyze_calls_upstream _ _ _ _ _ Hd Hc).
  destruct (withRetry_with_exhausted (generateContent (prompt_of rows b))
              5 2000 e) as [Hcomp Htr]; auto.
  - lia.
  - intros j Hj. destruct (Hall j Hj) as [ej [H1 H2]].
    exists ej. now rewrite isTransient_spec.
  - fold (Retry.withRetry (generateContent (prompt_of rows b))) in Hcomp, Htr.
    now rewrite Hcomp, Htr.
Qed.

End AnalyzeFailures.

(** What the client makes of the 429 reply: its own message, which speaks
    of high demand. *)
Lemma runAnalysis_shows_high_demand
      (syntax_error_message : string -> string)
      (row : Json.json) (rows : list Json.json) (query context : string)
      (now : N) (fetch_reports : Client.Fetch) (st : Client.AppState) :
  Client.runAnalysis syntax_error_message (row :: rows) query context now
    (Client.deliver 429 (error_body Server.rate_limit_message))
    fetch_reports st =
  Client.failed
    (Client.mkState (Client.user st) (Client.result st) None true
       (Client.stored_user st) (Client.effects st))
    (Server.js_error Client.high_demand_message) /\
  Str.includes Client.high_demand_message "high demand" = true.
Proof.
  split; [|vm_compute; reflexivity].
  unfold Client.runAnalysis, Client.deliver.
  replace (Client.read_body syntax_error_message
             (Some "application/json; charset=utf-8")
             (Json.stringify (error_body Server.rate_limit_message)))
    with (@inr JsError _ (error_body Server.rate_limit_message))
    by (vm_compute; reflexivity).
  reflexivity.
Qed.

(** C5 (as the code has it).  [POST /api/analyze] answers 400 when the
    dataset is missing, 500 when no credential is configured, and 400 with
    the name of the variable the key came from when the caught error has
    status 400 and a message with "api key not valid".  When the retried
    call is exhausted, the [catch] block makes its tests in that order on
    the last error: the invalid-key answer first; then 429 with the
    rate-limit message (which the client shows as its "high demand"
    message) if the error has status 429 or a message with "rate exceeded"
    or "quota"; and otherwise the error's own status (500 if it has none)
    and its own message. *)
Theorem analyze_failure_statuses
        (syntax_error_message : string -> string)
        (generateContent :
           string -> nat -> Retry.Outcome Server.GenerateContentResponse)
        (env : Server.Env) (b : Server.AnalyzeBody) :
  let handled := Server.analyze syntax_error_message generateContent env b in
  let invalid_key_reply :=
    Sent 400 (error_body
      ("The Gemini API key is invalid. Current key source: " ++
       Server.keySource env ++
       ". Please update your environment variables in AI Studio.")) in
  (Json.truthy (Server.dataset b) = false ->
     handled = Server.mkHandled
                 (Sent 400 (error_body "Dataset is required")) []) /\
  (Json.truthy (Server.dataset b) = true -> ~ Server.configured env ->
     handled = Server.mkHandled (Sent 500 (error_body
       "Gemini API key is not configured. Please set COGAPI3 or GEMINI_API_KEY in the environment variables.")) []) /\
  (forall rows e,
     Server.dataset b = Some (Json.JArr rows) -> Server.configured env ->
     Retry.completion
       (Retry.withRetry (generateContent (Server.prompt_of rows b)))
       = Retry.Throw e ->
     Server.invalid_key e = true ->
     Server.reply handled = invalid_key_reply /\
     ((Server.keySource env = "COGAPI3" /\
       Server.or_env (Server.COGAPI3 env) (Server.GEMINI_API_KEY env)
         = Server.COGAPI3 env) \/
      (Server.keySource env = "GEMINI_API_KEY" /\
       Server.or_env (Server.COGAPI3 env) (Server.GEMINI_API_KEY env)
         = Server.GEMINI_API_KEY env))) /\
  (forall rows e,
     Server.dataset b = Some (Json.JArr rows) -> Server.configured env ->
     (forall j, (j < 5)%nat ->
        exists ej,
          generateContent (Server.prompt_of rows b) j = Retry.Rejected ej /\
          Retry.transient_spec ej) ->
     generateContent (Server.prompt_of rows b) 4%nat = Retry.Rejected e ->
     Server.reply handled =
       if (Server.catch_status e =? 400) &&
          Str.includes (message_of e) "api key not valid"
       then invalid_key_reply
       else if (Server.catch_status e =? 429) ||
               Str.includes (message_of e) "rate exceeded" ||
               Str.includes (message_of e) "quota"
       then Sent 429 (error_body Server.rate_limit_message)
       else Sent (Server.catch_status e)
                 (error_body (Server.or_default (err_message e)
                                                "Failed to analyze data"))) /\
  (forall row rest query context now fetch_reports st,
     Client.error
       (Client.runAnalysis syntax_error_message (row :: rest) query
          context now
          (Client.deliver 429 (error_body Server.rate_limit_message))
          fetch_reports st)
     = Some Client.high_demand_message).
Proof.
  intros handled invalid_key_reply. subst handled invalid_key_reply.
  split; [|split; [|split; [|split]]].
  - apply analyze_dataset_required.
  - apply analyze_not_configured.
  - intros rows e Hd Hc Hthrow Hinv. split.
    + rewrite (analyze_calls_upstream _ _ _ _ _ Hd Hc). simpl.
      rewrite Hthrow. unfold Server.on_error. now rewrite Hinv.
    + now apply keySource_names_key.
  - intros rows e Hd Hc Hall Hlast.
    rewrite (analyze_exhausted _ _ _ _ _ _ Hd Hc Hall Hlast).
    reflexivity.
  - intros row rest query context now fetch_reports st.
    destruct (runAnalysis_shows_high_demand syntax_error_message row rest
                query context now fetch_reports st) as [-> _].
    reflexivity.
Qed.

Lemma analyze_failure_statuses_witness :
  let env := Server.mkEnv None (Some "key-2") in
  let b := Server.mkBody (Some (Json.JArr [Json.JObj []])) (Some "growth") None in
  let exhausted := mkError (Some 429) None
                     (Some "Resource has been exhausted (e.g. check quota).") in
  let invalid := mkError (Some 400) None
                   (Some "API key not valid. Please pass a valid API key.") in
  let both := mkError (Some 400) None
                (Some "API key not valid; quota exceeded") in
  let run e := Server.analyze (fun _ => "Unexpected token")
                 (fun _ _ => Retry.Rejected e) env b in
  let invalid_key_reply :=
    Sent 400 (error_body
      "The Gemini API key is invalid. Current key source: GEMINI_API_KEY. Please update your environment variables in AI Studio.") in
  Server.reply (Server.analyze (fun _ => "Unexpected token")
                  (fun _ _ => Retry.Rejected exhausted) env
                  (Server.mkBody None (Some "growth") None))
    = Sent 400 (error_body "Dataset is required") /\
  Server.reply (Server.analyze (fun _ => "Unexpected token")
                  (fun _ _ => Retry.Rejected exhausted)
                  (Server.mkEnv None None) b)
    = Sent 500 (error_body
        "Gemini API key is not configured. Please set COGAPI3 or GEMINI_API_KEY in the environment variables.") /\
  Server.reply (run exhausted)
    = Sent 429 (error_body Server.rate_limit_message) /\
  Server.reply (run invalid) = invalid_key_reply /\
  Server.upstream (run invalid) = [Retry.Attempt 0] /\
  Server.reply (run both) = invalid_key_reply /\
  Retry.attempts (Retry.withRetry
    (fun _ : nat => @Retry.Rejected Server.GenerateContentResponse both))
    = 5%nat /\
  Client.error
    (Client.runAnalysis (fun _ => "Unexpected token") [Json.JObj []] "growth"
       EmptyString 1700000000000%N
       (Client.deliver 429 (error_body Server.rate_limit_message))
       (Client.NetworkError exhausted)
       (Client.mkState None None None false None []))
    = Some Client.high_demand_message.
Proof.
  intros env b exhausted invalid both run invalid_key_reply.
  subst run. cbv beta.
  assert (Hconf : Server.configured env)
    by (exists "key-2"; split; [reflexivity | discriminate]).
  split; [|split; [|split; [|split; [|split; [|split; [|split]]]]]].
  - destruct (analyze_failure_statuses (fun _ => "Unexpected token")
                (fun _ _ => Retry.Rejected exhausted) env
                (Server.mkBody None (Some "growth") None))
      as [H _].
    now rewrite (H eq_refl).
  - destruct (analyze_failure_statuses (fun _ => "Unexpected token")
                (fun _ _ => Retry.Rejected exhausted)
                (Server.mkEnv None None) b)
      as [_ [H _]].
    rewrite (H eq_refl); [reflexivity|].
    intros [key [Hkey _]]. discriminate Hkey.
  - destruct (analyze_failure_statuses (fun _ => "Unexpected token")
                (fun _ _ => Retry.Rejected exhausted) env b)
      as [_ [_ [_ [H _]]]].
    rewrite (H [Json.JObj []] exhausted); auto.
    intros j Hj. exists exhausted. split; [reflexivity | left; reflexivity].
  - destruct (analyze_failure_statuses (fun _ => "Unexpected token")
                (fun _ _ => Retry.Rejected invalid) env b)
      as [_ [_ [H _]]].
    destruct (H [Json.JObj []] invalid) as [Hreply _]; auto.
  - reflexivity.
  - destruct (analyze_failure_statuses (fun _ => "Unexpected token")
                (fun _ _ => Retry.Rejected both) env b)
      as [_ [_ [_ [H _]]]].
    rewrite (H [Json.JObj []] both); auto.
    intros j Hj. exists both. split; [reflexivity|].
    right. right. exists "quota". split; [cbn; auto 6|].
    exists "API key not valid; quota exceeded". split; [reflexivity|].
    exists "api key not valid; ", " exceeded". reflexivity.
  - reflexivity.
  - destruct (analyze_failure_statuses (fun _ => "Unexpected token")
                (fun _ _ => Retry.Rejected exhausted) env b)
      as [_ [_ [_ [_ H]]]].
    apply H.
Defined.

(** C5 as stated fails: a retried call exhausted on a rate-limit error
    that shows only in the message ("429 ..."), or on a 503, is not
    answered with 429. *)
Lemma analyze_exhaustion_not_always_429 :
  let env := Server.mkEnv (Some "key-1") None in
  let b := Server.mkBody (Some (Json.JArr [Json.JObj []])) None None in
  let too_many := mkError None None (Some "429 Too Many Requests") in
  let overloaded := mkError (Some 503) None (Some "The model is overloaded.") in
  let run e := Server.analyze (fun _ => "Unexpected token")
                 (fun _ _ => Retry.Rejected e) env b in
  Retry.isTransient too_many = true /\
  Retry.isTransient overloaded = true /\
  Retry.sleeps (Server.upstream (run too_many))
    = [2000; 4000; 8000; 16000; 32000] /\
  Server.reply (run too_many)
    = Sent 500 (error_body "429 Too Many Requests") /\
  Server.reply (run overloaded)
    = Sent 503 (error_body "The model is overloaded.").
Proof.
  vm_compute. repeat split; reflexivity.
Qed.

(** ** The client *)

(** The guard of [handleMessage] as it is written, a test on the text of
    the origin (it ends with ".run.app" or contains "localhost"): a
    message whose origin fails the test leaves the state as it is,
    whatever its payload, and an [OAUTH_AUTH_SUCCESS] message that passes
    has its user set and stored. *)
Lemma handleMessage_checks_origin
        (st : Client.AppState) (event : Client.MessageEvent) :
  (Client.origin_allowed (Client.origin event) = false ->
     Client.handleMessage st event = st) /\
  (Client.handleMessage st event <> st ->
     (exists pre, Client.origin event = (pre ++ ".run.app")%string) \/
     (exists pre suf,
        Client.origin event = (pre ++ "localhost" ++ suf)%string)) /\
  (Client.origin_allowed (Client.origin event) = true ->
   Client.is_auth_success (Client.data event) = true ->
     exists v,
       Client.data event = Some v /\
       Client.user (Client.handleMessage st event) = Client.prop v "user" /\
       Client.stored_user (Client.handleMessage st event) =
         Some (Client.stored_text (Client.prop v "user"))).
Proof.
  assert (Hallowed : Client.origin_allowed (Client.origin event) = true ->
    (exists pre, Client.origin event = (pre ++ ".run.app")%string) \/
    (exists pre suf,
       Client.origin event = (pre ++ "localhost" ++ suf)%string)).
  { unfold Client.origin_allowed. rewrite orb_true_iff.
    rewrite endsWith_iff, includes_iff. tauto. }
  assert (Hguard :
    negb (Str.endsWith (Client.origin event) ".run.app") &&
    negb (Str.includes (Client.origin event) "localhost")
    = negb (Client.origin_allowed (Client.origin event))).
  { unfold Client.origin_allowed. now rewrite negb_orb. }
  unfold Client.handleMessage. rewrite Hguard.
  destruct (Client.origin_allowed (Client.origin event)); simpl negb; cbv iota.
  - split; [discriminate|]. split; [auto|].
    intros _ Hs. rewrite Hs.
    destruct (Client.data event) as [v|]; [|discriminate].
    exists v. repeat split; reflexivity.
  - split; [reflexivity|]. split; [|discriminate].
    intros Hne. now elim Hne.
Qed.

Lemma handleMessage_rejects_other_text :
  let st := Client.mkState None None None false None [] in
  let payload := Json.JObj [("type", Json.JStr "OAUTH_AUTH_SUCCESS");
                            ("user", Json.JObj [("id", Json.JStr "u1")])] in
  let event := Client.mkEvent "https://evil.example" (Some payload) in
  Client.handleMessage st event = st.
Proof.
  intros st payload event.
  apply (handleMessage_checks_origin st event). reflexivity.
Qed.

(** C4.  The test of [handleMessage] is not the check of the
    specification.  A message whose origin has neither the application's
    host nor a local-development host, but whose text ends with ".run.app"
    or has "localhost" somewhere in it, is trusted: the user of its
    [OAUTH_AUTH_SUCCESS] payload is set and stored, and their history is
    fetched. *)
Theorem handleMessage_trusts_unexpected_origin
        (app_host : string) (st : Client.AppState)
        (event : Client.MessageEvent) (v : Json.json) :
  Origin.expected app_host (Client.origin event) = false ->
  Str.endsWith (Client.origin event) ".run.app" = true \/
  Str.includes (Client.origin event) "localhost" = true ->
  Client.data event = Some v ->
  Client.is_auth_success (Client.data event) = true ->
  let st' := Client.handleMessage st event in
  Client.user st' = Client.prop v "user" /\
  Client.stored_user st' = Some (Client.stored_text (Client.prop v "user")) /\
  (forall u, Client.prop v "user" = Some u -> u <> Json.JNull ->
     Client.effects st' =
       Client.effects st ++ [Client.FetchHistory (Client.prop u "id")]).
Proof.
  intros _ Hpass Hd Hs st'. subst st'. unfold Client.handleMessage.
  assert (Hguard :
    negb (Str.endsWith (Client.origin event) ".run.app") &&
    negb (Str.includes (Client.origin event) "localhost") = false).
  { destruct Hpass as [-> | ->]; [reflexivity|].
    now rewrite andb_false_r. }
  rewrite Hguard, Hs, Hd. cbn [Client.user Client.stored_user Client.effects].
  split; [reflexivity|]. split; [reflexivity|].
  intros u Hu Hnn. rewrite Hu. now destruct u.
Qed.

Lemma handleMessage_trusts_unexpected_origin_witness :
  let app := "cognitia-os.us-west1.run.app" in
  let st := Client.mkState None None None false None [] in
  let attacker := Json.JObj [("id", Json.JStr "attacker")] in
  let payload := Json.JObj [("type", Json.JStr "OAUTH_AUTH_SUCCESS");
                            ("user", attacker)] in
  let near := Client.mkEvent "https://localhost.evil.example" (Some payload) in
  let cloud := Client.mkEvent "https://evil.run.app" (Some payload) in
  Origin.expected app (Client.origin near) = false /\
  Origin.expected app (Client.origin cloud) = false /\
  Client.user (Client.handleMessage st near) = Some attacker /\
  Client.stored_user (Client.handleMessage st near) =
    Some (Json.stringify attacker) /\
  Client.effects (Client.handleMessage st near) =
    [Client.FetchHistory (Some (Json.JStr "attacker"))] /\
  Client.user (Client.handleMessage st cloud) = Some attacker.
Proof.
  intros app st attacker payload near cloud.
  destruct (handleMessage_trusts_unexpected_origin app st near payload)
    as [Hu [Hst Hfx]]; try reflexivity.
  { right. reflexivity. }
  destruct (handleMessage_trusts_unexpected_origin app st cloud payload)
    as [Hu' _]; try reflexivity.
  { left. reflexivity. }
  split; [reflexivity|]. split; [reflexivity|].
  split; [exact Hu|]. split; [exact Hst|]. split; [|exact Hu'].
  apply (Hfx attacker); [reflexivity | discriminate].
Defined.

(** After an analysis that succeeded, with a signed-in user, no outcome
    of the request that saves the report (rejected, or answered with any
    status) fails the analysis: the result stays, no error is set, and the
    outer [catch] does not run; a rejected request is logged as "Failed to
    save report". *)
Lemma runAnalysis_swallows_persistence_failure
        (syntax_error_message : string -> string)
        (row : Json.json) (rows : list Json.json) (query context : string)
        (now : N) (status : Z) (contentType : option string) (body : string)
        (json u : Json.json) (fetch_reports : Client.Fetch)
        (st : Client.AppState) :
  Client.ok status = true ->
  Client.read_body syntax_error_message contentType body = inr json ->
  Client.user st = Some u ->
  Json.truthy (Some u) = true ->
  let st' := Client.runAnalysis syntax_error_message (row :: rows) query
               context now (Client.Response status contentType body)
               fetch_reports st in
  let post := Client.PostReport (Client.report_body query context now u json) in
  Client.result st' = Some json /\
  Client.error st' = None /\
  Client.isAnalyzing st' = false /\
  (forall e, fetch_reports = Client.NetworkError e ->
     Client.effects st' =
       Client.effects st ++
       [post; Client.ConsoleError (Some "Failed to save report") e]) /\
  (forall s ct bd, fetch_reports = Client.Response s ct bd ->
     Client.effects st' =
       Client.effects st ++ [post; Client.FetchHistory (Client.prop u "id")]).
Proof.
  intros Hok Hbody Hu Ht st' post. subst st' post.
  unfold Client.runAnalysis. rewrite Hbody, Hok. simpl negb. cbv iota.
  unfold Client.persist. cbn [Client.user]. rewrite Hu, Ht.
  destruct fetch_reports as [e|s ct bd]; cbn; repeat split;
    try (intros ? H; injection H as <-);
    try (intros ? ? ? H; injection H as <- <- <-);
    try (intros; discriminate);
    now rewrite <- List.app_assoc.
Qed.

Lemma runAnalysis_logs_rejected_request :
  let st := Client.mkState (Some (Json.JObj [("id", Json.JStr "u1")]))
              None None false None [] in
  let down := mkError None None (Some "Failed to fetch") in
  let st' := Client.runAnalysis (fun _ => "Unexpected token")
               [Json.JObj []] "q" "c" 1700000000000%N
               (Client.Response 200 (Some "application/json") "{}")
               (Client.NetworkError down) st in
  Client.result st' = Some (Json.JObj []) /\
  Client.error st' = None /\
  Client.isAnalyzing st' = false /\
  In (Client.ConsoleError (Some "Failed to save report") down)
     (Client.effects st').
Proof.
  intros st down st'.
  destruct (runAnalysis_swallows_persistence_failure
              (fun _ => "Unexpected token") (Json.JObj []) [] "q" "c"
              1700000000000%N 200 (Some "application/json") "{}"
              (Json.JObj []) (Json.JObj [("id", Json.JStr "u1")])
              (Client.NetworkError down) st)
    as [Hr [He [Ha [Hlog _]]]]; try reflexivity.
  fold st' in Hr, He, Ha, Hlog.
  repeat split; auto. rewrite (Hlog down eq_refl). simpl. auto.
Qed.

(** C9.  A save that the store refuses is swallowed but not logged.
    After an analysis that succeeded, with a signed-in user, when [POST
    /api/reports] is answered with an error status (the store threw: a
    report id already stored, a user the store does not know), the result
    stays and no error is set, but nothing is written to the console: the
    response is never looked at, and only a request that could not be
    made reaches the [catch] with its "Failed to save report". *)
Theorem runAnalysis_does_not_log_refused_save
        (syntax_error_message : string -> string)
        (row : Json.json) (rows : list Json.json) (query context : string)
        (now : N) (status : Z) (contentType : option string) (body : string)
        (json u : Json.json)
        (s : Z) (ct : option string) (bd : string)
        (st : Client.AppState) :
  Client.ok status = true ->
  Client.read_body syntax_error_message contentType body = inr json ->
  Client.user st = Some u ->
  Json.truthy (Some u) = true ->
  Client.ok s = false ->
  let st' := Client.runAnalysis syntax_error_message (row :: rows) query
               context now (Client.Response status contentType body)
               (Client.Response s ct bd) st in
  Client.result st' = Some json /\
  Client.error st' = None /\
  Client.isAnalyzing st' = false /\
  exists added,
    Client.effects st' = Client.effects st ++ added /\
    added = [Client.PostReport (Client.report_body query context now u json);
             Client.FetchHistory (Client.prop u "id")] /\
    forall label e, ~ In (Client.ConsoleError label e) added.
Proof.
  intros Hok Hbody Hu Ht _ st'. subst st'.
  destruct (runAnalysis_swallows_persistence_failure syntax_error_message
              row rows query context now status contentType body json u
              (Client.Response s ct bd) st Hok Hbody Hu Ht)
    as [Hr [He [Ha [_ Hfx]]]].
  split; [exact Hr|]. split; [exact He|]. split; [exact Ha|].
  eexists. split; [exact (Hfx s ct bd eq_refl)|]. split; [reflexivity|].
  intros label e [H|[H|[]]]; discriminate.
Qed.

Lemma runAnalysis_does_not_log_refused_save_witness :
  let st := Client.mkState (Some (Json.JObj [("id", Json.JStr "u9")]))
              None None false None [] in
  let st' := Client.runAnalysis (fun _ => "Unexpected token")
               [Json.JObj []] "q" "c" 1700000000000%N
               (Client.Response 200 (Some "application/json") "{}")
               (Client.Response 500 (Some "text/html; charset=utf-8")
                                "SqliteError: FOREIGN KEY constraint failed")
               st in
  Client.result st' = Some (Json.JObj []) /\
  Client.error st' = None /\
  forall label e, ~ In (Client.ConsoleError label e) (Client.effects st').
Proof.
  intros st st'.
  destruct (runAnalysis_does_not_log_refused_save
              (fun _ => "Unexpected token") (Json.JObj []) [] "q" "c"
              1700000000000%N 200 (Some "application/json") "{}"
              (Json.JObj []) (Json.JObj [("id", Json.JStr "u9")])
              500 (Some "text/html; charset=utf-8")
              "SqliteError: FOREIGN KEY constraint failed" st)
    as [Hr [He [_ [added [Hfx [_ Hno]]]]]]; try reflexivity.
  fold st' in Hr, He, Hfx.
  split; [exact Hr|]. split; [exact He|].
  intros label e. rewrite Hfx. exact (Hno label e).
Defined.

(** ** The report store *)

Section StoreFacts.
Import Store.

Lemma has_id_iff (rows : list Report) (i : string) :
  has_id rows i = true <-> exists r, In r rows /\ id r = i.
Proof.
  unfold has_id. rewrite existsb_exists.
  split; intros [r [Hin H]]; exists r; split; auto; now apply String.eqb_eq.
Qed.

Lemma string_compare_trans a : forall b c,
  String.compare a b <> Gt -> String.compare b c <> Gt ->
  String.compare a c <> Gt.
Proof.
  induction a as [|x a IH]; intros [|y b] [|z c]; simpl; try congruence.
  unfold Ascii.compare.
  destruct (N.compare_spec (N_of_ascii x) (N_of_ascii y)) as [Hxy|Hxy|Hxy];
  destruct (N.compare_spec (N_of_ascii y) (N_of_ascii z)) as [Hyz|Hyz|Hyz];
  destruct (N.compare_spec (N_of_ascii x) (N_of_ascii z)) as [Hxz|Hxz|Hxz];
  try congruence; try lia.
  apply IH.
Qed.

Lemma string_leb_trans a b c :
  String.leb a b = true -> String.leb b c = true -> String.leb a c = true.
Proof.
  unfold String.leb. intros Hab Hbc.
  pose proof (string_compare_trans a b c) as H.
  destruct (String.compare a b), (String.compare b c), (String.compare a c);
    try reflexivity; try discriminate; exfalso; apply H; congruence.
Qed.

Lemma desc_transitive : Transitive desc.
Proof.
  intros a b c Hab Hbc. unfold desc in *.
  exact (string_leb_trans _ _ _ Hbc Hab).
Qed.

Lemma insert_desc_perm r l : Permutation (insert_desc r l) (r :: l).
Proof.
  induction l as [|x l IH]; simpl; auto.
  destruct (String.leb (created_at x) (created_at r)); auto.
  rewrite IH. apply perm_swap.
Qed.

Lemma sort_desc_perm l : Permutation (sort_desc l) l.
Proof.
  induction l as [|x l IH]; simpl; auto.
  rewrite insert_desc_perm. now constructor.
Qed.

Lemma insert_desc_sorted r l : Sorted desc l -> Sorted desc (insert_desc r l).
Proof.
  induction 1 as [|x l Hs IH Hhd]; simpl.
  - repeat constructor.
  - destruct (String.leb (created_at x) (created_at r)) eqn:E.
    + repeat constructor; auto.
    + constructor; auto.
      assert (Hxr : desc x r).
      { unfold desc. destruct (String.leb_total (created_at x) (created_at r));
          congruence. }
      destruct l as [|y l]; simpl.
      * repeat constructor. exact Hxr.
      * destruct (String.leb (created_at y) (created_at r));
          constructor; auto. now inversion Hhd.
Qed.

Lemma sort_desc_sorted l : Sorted desc (sort_desc l).
Proof.
  induction l as [|x l IH]; simpl; [constructor | now apply insert_desc_sorted].
Qed.

Lemma filter_none {A} (f : A -> bool) (l : list A) :
  (forall x, In x l -> f x = false) -> filter f l = [].
Proof.
  induction l as [|x l IH]; simpl; auto.
  intros H. rewrite (H x) by auto. apply IH. auto.
Qed.

Lemma firstn_in {A} (x : A) n : forall l, In x (firstn n l) -> In x l.
Proof.
  induction n as [|n IH]; intros [|y l]; simpl; try tauto.
  intros [H|H]; auto.
Qed.

Lemma firstn_sorted {A} (R : A -> A -> Prop) n : forall l,
  Sorted R l -> Sorted R (firstn n l).
Proof.
  induction n as [|n IH]; intros l Hs; simpl; [constructor|].
  destruct Hs as [|x l Hs Hhd]; constructor; auto.
  destruct n; simpl; [constructor|].
  destruct Hhd; constructor; auto.
Qed.

(** The database [stmt_all] is one of those the statement allows. *)
Lemma stmt_all_select db userId : select_by_user db userId (stmt_all db userId).
Proof.
  exists (sort_desc (filter (owned_by userId) (reports db))).
  split; [apply sort_desc_perm | split; [apply sort_desc_sorted | reflexivity]].
Qed.

Lemma owned_by_iff userId r :
  owned_by userId r = true <-> user_id r = Some userId.
Proof.
  unfold owned_by. destruct (user_id r) as [u|].
  - rewrite String.eqb_eq. split; congruence.
  - split; discriminate.
Qed.

Lemma owned_by_none db userId :
  (forall r, In r (reports db) -> user_id r <> Some userId) ->
  filter (owned_by userId) (reports db) = [].
Proof.
  intros Hnone. apply filter_none. intros r Hr.
  destruct (owned_by userId r) eqn:E; auto.
  apply owned_by_iff in E. now elim (Hnone r Hr).
Qed.

Lemma select_by_user_facts db userId rows :
  select_by_user db userId rows ->
  (List.length rows <= 10)%nat /\
  Forall (fun r => user_id r = Some userId /\ In r (reports db)) rows /\
  StronglySorted desc rows /\
  ((forall r, In r (reports db) -> user_id r <> Some userId) -> rows = []).
Proof.
  intros [ordered [Hperm [Hsorted ->]]]. split; [|split; [|split]].
  - rewrite length_firstn. lia.
  - apply Forall_forall. intros r Hin.
    apply firstn_in in Hin.
    apply (Permutation_in _ Hperm) in Hin.
    apply filter_In in Hin. destruct Hin as [Hin Ho].
    split; auto. now apply owned_by_iff.
  - apply (Sorted_StronglySorted desc_transitive). now apply firstn_sorted.
  - intros Hnone. rewrite (owned_by_none _ _ Hnone) in Hperm.
    apply Permutation_sym, Permutation_nil in Hperm.
    now subst ordered.
Qed.

(** *** The order of the database's answer *)

Lemma before_in l a b : before l a b -> In a l /\ In b l.
Proof.
  induction 1 as [a b l Hb | x a b l _ [IHa IHb]]; simpl; auto.
Qed.

Lemma before_filter (f : Report -> bool) l a b :
  before (filter f l) a b -> before l a b.
Proof.
  induction l as [|x l IH]; cbn [filter]; intros H; [inversion H|].
  destruct (f x).
  - inversion H as [a' b' l' Hb | x' a' b' l' Hrest]; subst.
    + constructor. now apply filter_In in Hb.
    + apply before_later. now apply IH.
  - apply before_later. now apply IH.
Qed.

(** The order [listed_before] over the rows of a list. *)
Local Abbreviation ordered_in l :=
  (fun a b : Report =>
     String.leb (created_at b) (created_at a) = true /\
     (created_at a = created_at b -> before l a b)).

Lemma string_leb_refl a : String.leb a a = true.
Proof.
  destruct (String.leb_total a a) as [H|H]; exact H.
Qed.

Lemma insert_desc_in r l x : In x (insert_desc r l) <-> x = r \/ In x l.
Proof.
  split; intros H.
  - apply (Permutation_in _ (insert_desc_perm r l)) in H.
    destruct H; auto.
  - apply (Permutation_in _ (Permutation_sym (insert_desc_perm r l))).
    destruct H; [left | right]; auto.
Qed.

(** Inserting the row that was stored before all rows of a sorted listing
    keeps the listing in its order: the sort is stable. *)
Lemma insert_desc_stable x l s :
  (forall y, In y s -> In y l) ->
  StronglySorted (ordered_in (x :: l)) s ->
  StronglySorted (ordered_in (x :: l)) (insert_desc x s).
Proof.
  intros Hsub Hs. induction Hs as [|y s Hs IH Hall]; cbn [insert_desc].
  - repeat constructor.
  - assert (Hsub' : forall z, In z s -> In z l)
      by (intros z Hz; apply Hsub; now right).
    destruct (String.leb (created_at y) (created_at x)) eqn:E.
    + constructor; [now constructor|].
      apply Forall_forall. intros z [<-|Hz].
      * split; [exact E|]. intros _. constructor. apply Hsub. now left.
      * destruct (proj1 (Forall_forall _ _) Hall z Hz) as [Hzy _].
        split; [exact (string_leb_trans _ _ _ Hzy E)|].
        intros _. constructor. now apply Hsub'.
    + constructor; [now apply IH|].
      apply Forall_forall. intros z Hz. apply insert_desc_in in Hz.
      destruct Hz as [->|Hz]; [|exact (proj1 (Forall_forall _ _) Hall z Hz)].
      split.
      * destruct (String.leb_total (created_at y) (created_at x)); congruence.
      * intros Heq. rewrite Heq, string_leb_refl in E. discriminate.
Qed.

Lemma ordered_in_cons x l a b : ordered_in l a b -> ordered_in (x :: l) a b.
Proof.
  intros [H1 H2]. split; auto. intros Heq. apply before_later. auto.
Qed.

Lemma sort_desc_stable l : StronglySorted (ordered_in l) (sort_desc l).
Proof.
  induction l as [|x l IH]; cbn [sort_desc fold_right]; [constructor|].
  apply insert_desc_stable.
  - intros y Hy. now apply (Permutation_in _ (sort_desc_perm l)).
  - revert IH. apply StronglySorted_ind.
    + constructor.
    + intros a s _ IHs Hall. constructor; auto.
      revert Hall. apply Forall_impl. intros b. apply ordered_in_cons.
Qed.

Lemma strongly_sorted_impl {A} (R R' : A -> A -> Prop) l :
  (forall a b, R a b -> R' a b) ->
  StronglySorted R l -> StronglySorted R' l.
Proof.
  intros Himp. induction 1 as [|a l _ IH Hall]; constructor; auto.
  revert Hall. apply Forall_impl. auto.
Qed.

Lemma strongly_sorted_firstn {A} (R : A -> A -> Prop) n : forall l,
  StronglySorted R l -> StronglySorted R (firstn n l).
Proof.
  induction n as [|n IH]; intros l Hs; cbn [firstn]; [constructor|].
  destruct Hs as [|a l Hs Hall]; constructor; auto.
  apply Forall_forall. intros b Hb. apply firstn_in in Hb.
  exact (proj1 (Forall_forall _ _) Hall b Hb).
Qed.

Lemma strongly_sorted_app {A} (R : A -> A -> Prop) p : forall q,
  StronglySorted R (p ++ q) ->
  forall a b, In a p -> In b q -> R a b.
Proof.
  induction p as [|x p IH]; intros q Hs a b Ha Hb; [contradiction|].
  cbn [List.app] in Hs. inversion Hs as [|? ? Hs' Hall]; subst.
  destruct Ha as [<-|Ha].
  - apply (proj1 (Forall_forall _ _) Hall). apply in_or_app. now right.
  - exact (IH q Hs' a b Ha Hb).
Qed.

(** The database's answer: at most ten rows of the user, in the order of
    the specification, and none of the rows left out comes before a row
    listed. *)
Lemma stmt_all_facts db userId :
  let rows := stmt_all db userId in
  List.length rows =
    Nat.min 10 (List.length (filter (owned_by userId) (reports db))) /\
  Forall (fun r => user_id r = Some userId /\ In r (reports db)) rows /\
  StronglySorted (listed_before db) rows /\
  (forall a b, In a rows -> In b (reports db) -> user_id b = Some userId ->
               ~ In b rows -> listed_before db a b).
Proof.
  intros rows. subst rows. unfold stmt_all.
  set (owned := filter (owned_by userId) (reports db)).
  assert (Hs : StronglySorted (listed_before db) (sort_desc owned)).
  { apply (strongly_sorted_impl (ordered_in owned)); [|apply sort_desc_stable].
    intros a b [H1 H2]. split; auto. intros Heq.
    apply (before_filter (owned_by userId)). now apply H2. }
  split; [|split; [|split]].
  - rewrite length_firstn, (Permutation_length (sort_desc_perm owned)).
    reflexivity.
  - apply Forall_forall. intros r Hr. apply firstn_in in Hr.
    apply (Permutation_in _ (sort_desc_perm owned)) in Hr.
    apply filter_In in Hr as [Hin Ho]. split; auto. now apply owned_by_iff.
  - now apply strongly_sorted_firstn.
  - intros a b Ha Hb Hu Hnot.
    rewrite <- (firstn_skipn 10 (sort_desc owned)) in Hs.
    apply (strongly_sorted_app _ _ _ Hs a b Ha).
    assert (Hin : In b (sort_desc owned)).
    { apply (Permutation_in _ (Permutation_sym (sort_desc_perm owned))).
      apply filter_In. split; auto. now apply owned_by_iff. }
    rewrite <- (firstn_skipn 10 (sort_desc owned)) in Hin.
    apply in_app_or in Hin as [Hin|Hin]; [contradiction | exact Hin].
Qed.

End StoreFacts.

(** C7.  With a report of identifier [id] in the store, the insert of
    another report with that identifier fails on the primary key
    ([SQLITE_CONSTRAINT_PRIMARYKEY], the store's duplicate-id error), the
    route passes the error on, and the database (the stored record and
    every other row) is as before. *)
Theorem post_reports_duplicate_id
        (now : string) (db : Store.Db) (b : Store.ReportBody) (r : Store.Report) :
  In r (Store.reports db) ->
  Store.id r = Store.body_id b ->
  Store.insert_report now db (Store.body_id b) (Store.body_userId b)
    (Store.body_query b) (Store.body_context b)
    (Store.encode (Store.body_result b)) = inl SQLITE_CONSTRAINT_PRIMARYKEY /\
  Store.post_reports now db b =
    (Raised (SqliteError SQLITE_CONSTRAINT_PRIMARYKEY), db) /\
  In r (Store.reports (snd (Store.post_reports now db b))).
Proof.
  intros Hin Hid.
  assert (Hhas : Store.has_id (Store.reports db) (Store.body_id b) = true)
    by (apply has_id_iff; eauto).
  assert (Hins : Store.insert_report now db (Store.body_id b)
            (Store.body_userId b) (Store.body_query b) (Store.body_context b)
            (Store.encode (Store.body_result b))
          = inl SQLITE_CONSTRAINT_PRIMARYKEY)
    by (unfold Store.insert_report; now rewrite Hhas).
  unfold Store.post_reports. rewrite Hins. auto.
Qed.

Lemma post_reports_duplicate_id_witness :
  let r := Store.mkReport "rep_1" (Some "u1") "q" "c" "{}"
                          "2026-01-01 10:00:00" in
  let db := Store.mkDb ["u1"] [r] true in
  let b := Store.mkReportBody "rep_1" (Some "u1") "q2" "c2" Json.JNull in
  Store.post_reports "2026-01-01 10:00:05" db b =
    (Raised (SqliteError SQLITE_CONSTRAINT_PRIMARYKEY), db).
Proof.
  intros r db b.
  apply (post_reports_duplicate_id "2026-01-01 10:00:05" db b r).
  - simpl. auto.
  - reflexivity.
Defined.

(** ** [JSON.stringify] and [JSON.parse] *)

Section NumberFacts.
Import Json.
#[local] Arguments is_digit : simpl never.

Lemma span_digits_app ds rest :
  all_digits ds = true ->
  match rest with EmptyString => True | String c _ => is_digit c = false end ->
  span_digits (ds ++ rest) = (ds, rest).
Proof.
  intros Hd Hr. induction ds as [|c ds IH];
    cbn [span_digits String.append all_digits] in *.
  - destruct rest as [|c rest]; auto. cbn [span_digits]. now rewrite Hr.
  - apply andb_true_iff in Hd. destruct Hd as [Hc Hd].
    now rewrite Hc, (IH Hd).
Qed.

Lemma all_digits_app a b :
  all_digits (a ++ b) = all_digits a && all_digits b.
Proof.
  induction a as [|c a IH]; simpl; auto. now rewrite IH, andb_assoc.
Qed.

Lemma all_digits_zeros n : all_digits (zeros n) = true.
Proof. induction n; simpl; auto. Qed.

Lemma take_drop n : forall s, (take n s ++ drop n s)%string = s.
Proof.
  induction n as [|n IH]; intros [|c s]; simpl; auto. now rewrite IH.
Qed.

Lemma length_take n : forall s,
  (n <= String.length s)%nat -> String.length (take n s) = n.
Proof.
  induction n as [|n IH]; intros [|c s]; simpl; auto; try lia.
  intros H. rewrite IH; lia.
Qed.

Lemma string_length_app a b :
  String.length (a ++ b) = (String.length a + String.length b)%nat.
Proof. induction a as [|c a IH]; simpl; auto. Qed.

Lemma length_zeros n : String.length (zeros n) = n.
Proof. induction n; simpl; auto. Qed.

Lemma string_app_assoc (a b c : string) :
  ((a ++ b) ++ c)%string = (a ++ b ++ c)%string.
Proof. induction a as [|x a IH]; simpl; auto. now rewrite IH. Qed.

Lemma string_app_nil_r (a : string) : (a ++ EmptyString)%string = a.
Proof. induction a as [|x a IH]; simpl; auto. now rewrite IH. Qed.

Lemma strip_leading_zeros n : forall ds p,
  strip_leading (zeros n ++ ds) p = strip_leading ds (p - Z.of_nat n).
Proof.
  induction n as [|n IH]; intros ds p.
  - simpl. f_equal. lia.
  - cbn [zeros String.append strip_leading]. simpl Ascii.eqb. cbv iota.
    rewrite IH. f_equal. lia.
Qed.

Lemma strip_leading_nonzero c ds p :
  Ascii.eqb c "0" = false -> strip_leading (String c ds) p = (String c ds, p).
Proof. intros H. simpl. now rewrite H. Qed.

Lemma strip_trailing_zeros n : strip_trailing (zeros n) = EmptyString.
Proof. induction n as [|n IH]; simpl; auto. now rewrite IH. Qed.

Lemma strip_trailing_app_zeros ds n :
  strip_trailing (ds ++ zeros n) = strip_trailing ds.
Proof.
  induction ds as [|c ds IH]; simpl.
  - apply strip_trailing_zeros.
  - now rewrite IH.
Qed.

Lemma strip_trailing_id ds d :
  Ascii.eqb (last_char ds d) "0" = false ->
  strip_trailing (String d ds) = String d ds.
Proof.
  revert d. induction ds as [|c ds IH]; intros d H; simpl in *.
  - now rewrite H.
  - specialize (IH c H). simpl in IH. rewrite IH. reflexivity.
Qed.


Lemma string_of_uint_digits u :
  all_digits (NilEmpty.string_of_uint u) = true.
Proof. induction u; simpl; auto. Qed.

Lemma all_digits_nat_to_string n : all_digits (nat_to_string n) = true.
Proof. apply string_of_uint_digits. Qed.

Lemma nat_to_string_nonempty n : nat_to_string n <> EmptyString.
Proof.
  unfold nat_to_string.
  assert (H : N.to_uint n <> Decimal.Nil).
  { rewrite <- (DecimalN.Unsigned.of_to n) at 1.
    rewrite DecimalN.Unsigned.to_of. apply unorm_nonnil. }
  destruct (N.to_uint n); [now elim H | discriminate ..].
Qed.

Lemma digits_to_N_nat_to_string n : digits_to_N (nat_to_string n) = n.
Proof.
  unfold digits_to_N, nat_to_string. rewrite NilEmpty.usu.
  apply DecimalN.Unsigned.of_to.
Qed.

Lemma ends_number_next rest : ends_number rest = true -> not_digit_next rest.
Proof.
  destruct rest as [|c rest]; simpl; auto.
  rewrite negb_true_iff, !orb_false_iff. tauto.
Qed.

Lemma lex_int_zero s : lex_int (String "0" s) = Some ("0"%string, s).
Proof. reflexivity. Qed.

Lemma lex_int_digits d tl rest :
  all_digits (String d tl) = true -> Ascii.eqb d "0" = false ->
  not_digit_next rest ->
  lex_int (String d tl ++ rest) = Some (String d tl, rest).
Proof.
  intros Hd H0 Hr. unfold lex_int. cbn [String.append]. rewrite H0.
  change (String d (tl ++ rest)) with ((String d tl) ++ rest)%string.
  now rewrite (span_digits_app _ _ Hd Hr).
Qed.

Lemma lex_frac_digits c fp rest :
  all_digits (String c fp) = true -> not_digit_next rest ->
  lex_frac (String "." (String c fp ++ rest)) = Some (String c fp, rest).
Proof.
  intros Hd Hr. unfold lex_frac. simpl Ascii.eqb. cbv iota.
  now rewrite (span_digits_app _ _ Hd Hr).
Qed.

Lemma lex_frac_none rest :
  match rest with
  | EmptyString => True
  | String c _ => Ascii.eqb c "." = false
  end ->
  lex_frac rest = Some (EmptyString, rest).
Proof. destruct rest as [|c rest]; simpl; auto. now intros ->. Qed.

Lemma lex_exp_none rest :
  match rest with
  | EmptyString => True
  | String c _ => Ascii.eqb c "e" || Ascii.eqb c "E" = false
  end ->
  lex_exp rest = Some (0, rest).
Proof. destruct rest as [|c rest]; simpl; auto. now intros ->. Qed.

Lemma ends_number_frac rest :
  ends_number rest = true -> lex_frac rest = Some (EmptyString, rest).
Proof.
  intros H. apply lex_frac_none. destruct rest as [|c rest]; auto.
  simpl in H. rewrite negb_true_iff, !orb_false_iff in H. tauto.
Qed.

Lemma ends_number_exp rest :
  ends_number rest = true -> lex_exp rest = Some (0, rest).
Proof.
  intros H. apply lex_exp_none. destruct rest as [|c rest]; auto.
  simpl in H. rewrite negb_true_iff, !orb_false_iff in H.
  rewrite orb_false_iff. tauto.
Qed.

Lemma lex_exp_print e rest :
  not_digit_next rest ->
  lex_exp (String "e" ((if e <? 0 then "-" else "+") ++
                       nat_to_string (Z.to_N (Z.abs e)) ++ rest))
  = Some (e, rest).
Proof.
  intros Hr. unfold lex_exp. simpl (Ascii.eqb "e" "e" || _). cbv iota.
  pose proof (all_digits_nat_to_string (Z.to_N (Z.abs e))) as Hd.
  pose proof (nat_to_string_nonempty (Z.to_N (Z.abs e))) as Hne.
  destruct (Z.ltb_spec e 0) as [Hneg|Hpos]; cbn [String.append];
    simpl Ascii.eqb; cbv iota;
    rewrite (span_digits_app _ _ Hd Hr);
    destruct (nat_to_string (Z.to_N (Z.abs e))) eqn:E; try (now elim Hne);
    rewrite <- E, digits_to_N_nat_to_string; f_equal; f_equal; lia.
Qed.


Lemma normalise_trailing sg d tl m p :
  Ascii.eqb d "0" = false -> Ascii.eqb (last_char tl d) "0" = false ->
  normalise sg (String d tl ++ zeros m) p = mkNumber sg (String d tl) p.
Proof.
  intros H0 Hl. unfold normalise. cbn [String.append].
  rewrite (strip_leading_nonzero _ _ _ H0).
  change (String d (tl ++ zeros m)) with (String d tl ++ zeros m)%string.
  now rewrite strip_trailing_app_zeros, (strip_trailing_id _ _ Hl).
Qed.

Lemma normalise_leading sg d tl m p :
  Ascii.eqb d "0" = false -> Ascii.eqb (last_char tl d) "0" = false ->
  normalise sg (zeros m ++ String d tl) p =
  mkNumber sg (String d tl) (p - Z.of_nat m).
Proof.
  intros H0 Hl. unfold normalise.
  rewrite strip_leading_zeros, (strip_leading_nonzero _ _ _ H0).
  now rewrite (strip_trailing_id _ _ Hl).
Qed.

Lemma normalise_id sg d tl p :
  Ascii.eqb d "0" = false -> Ascii.eqb (last_char tl d) "0" = false ->
  normalise sg (String d tl) p = mkNumber sg (String d tl) p.
Proof.
  intros H0 Hl. rewrite <- (normalise_trailing sg d tl 0 p H0 Hl).
  cbn [zeros]. now rewrite string_app_nil_r.
Qed.

Lemma all_digits_take n : forall s, all_digits s = true -> all_digits (take n s) = true.
Proof.
  induction n as [|n IH]; intros [|c s]; cbn [take all_digits]; auto.
  rewrite !andb_true_iff. intros [H1 H2]. auto.
Qed.

Lemma all_digits_drop n : forall s, all_digits s = true -> all_digits (drop n s) = true.
Proof.
  induction n as [|n IH]; intros [|c s]; cbn [drop all_digits]; auto.
  rewrite !andb_true_iff. intros [H1 H2]. auto.
Qed.

Lemma length_drop n : forall s,
  String.length (drop n s) = (String.length s - n)%nat.
Proof.
  induction n as [|n IH]; intros [|c s]; simpl; auto.
Qed.

(** The printed digits read back: the digits and the point they were
    printed from. *)
Lemma lex_unsigned_decimal_form d tl n rest :
  all_digits (String d tl) = true ->
  Ascii.eqb d "0" = false ->
  Ascii.eqb (last_char tl d) "0" = false ->
  ends_number rest = true ->
  exists ds' n',
    lex_unsigned (decimal_form (String d tl) n ++ rest) = Some (ds', n', rest) /\
    forall sg, normalise sg ds' n' = mkNumber sg (String d tl) n.
Proof.
  intros Hd H0 Hl Hr.
  pose proof (ends_number_next _ Hr) as Hnext.
  pose proof (ends_number_frac _ Hr) as Hfrac.
  pose proof (ends_number_exp _ Hr) as Hexp.
  unfold decimal_form, lex_unsigned.
  set (ds := String d tl) in *.
  set (k := Z.of_nat (String.length ds)).
  assert (Hk : 0 < k) by (subst k ds; simpl String.length; lia).
  destruct ((k <=? n) && (n <=? 21)) eqn:EA.
  { (* digits and zeros *)
    apply andb_true_iff in EA. destruct EA as [E1 E2].
    apply Z.leb_le in E1, E2.
    exists (ds ++ zeros (Z.to_nat (n - k)))%string, n.
    split; [|intros sg; now apply normalise_trailing].
    subst ds. cbn [String.append].
    change (String d ((tl ++ zeros (Z.to_nat (n - k))) ++ rest))
      with (String d (tl ++ zeros (Z.to_nat (n - k))) ++ rest)%string.
    rewrite lex_int_digits; auto.
    - rewrite Hfrac, Hexp. rewrite string_app_nil_r.
      f_equal. f_equal. f_equal.
      change (String d (tl ++ zeros (Z.to_nat (n - k))))
        with (String d tl ++ zeros (Z.to_nat (n - k)))%string.
      rewrite string_length_app, length_zeros. subst k. lia.
    - change (String d (tl ++ zeros (Z.to_nat (n - k))))
        with (String d tl ++ zeros (Z.to_nat (n - k)))%string.
      now rewrite all_digits_app, Hd, all_digits_zeros. }
  destruct ((0 <? n) && (n <=? 21)) eqn:EB.
  { (* point inside the digits *)
    apply andb_true_iff in EB. destruct EB as [E1 E2].
    apply Z.ltb_lt in E1. apply Z.leb_le in E2.
    apply andb_false_iff in EA.
    assert (Hnk : n < k) by (destruct EA as [EA|EA];
      [apply Z.leb_gt in EA | apply Z.leb_gt in EA]; lia).
    exists ds, n. split; [|intros sg; now apply normalise_id].
    set (m := Z.to_nat n).
    assert (Hm : (0 < m < String.length ds)%nat) by (subst m k; lia).
    assert (Htake : exists t, take m ds = String d t).
    { subst ds. destruct m as [|m]; [lia|]. simpl. eauto. }
    destruct Htake as [t Ht].
    assert (Hdrop : exists c f, drop m ds = String c f).
    { pose proof (length_drop m ds) as Hlen.
      destruct (drop m ds) as [|c f]; [|eauto].
      change (String.length EmptyString) with O in Hlen. lia. }
    destruct Hdrop as [c [f Hf]].
    rewrite string_app_assoc, Ht.
    rewrite lex_int_digits; auto;
      [|rewrite <- Ht; now apply all_digits_take | reflexivity].
    cbn [String.append]. rewrite Hf.
    change (String c (f ++ rest)) with (String c f ++ rest)%string.
    rewrite lex_frac_digits; auto;
      [|rewrite <- Hf; now apply all_digits_drop].
    rewrite Hexp.
    assert (Hsplit : (String d t ++ String c f)%string = ds)
      by (rewrite <- Ht, <- Hf; apply take_drop).
    assert (Hlen : String.length (String d t) = m)
      by (rewrite <- Ht; apply length_take; lia).
    replace (Z.of_nat (String.length (String d t)) + 0) with n
      by (rewrite Hlen; subst m; lia).
    f_equal. f_equal. f_equal. exact Hsplit. }
  destruct ((-6 <? n) && (n <=? 0)) eqn:EC.
  { (* zeros after the point *)
    apply andb_true_iff in EC. destruct EC as [E1 E2].
    apply Z.ltb_lt in E1. apply Z.leb_le in E2.
    exists (zeros (S (Z.to_nat (- n))) ++ ds)%string, 1.
    split.
    - destruct (zeros (Z.to_nat (- n)) ++ ds)%string as [|c f] eqn:Ez.
      { subst ds. destruct (zeros (Z.to_nat (- n))); discriminate. }
      cbn [String.append]. rewrite lex_int_zero.
      change (String c (f ++ rest)) with (String c f ++ rest)%string.
      rewrite lex_frac_digits; auto.
      + rewrite Hexp, <- Ez. reflexivity.
      + rewrite <- Ez. now rewrite all_digits_app, all_digits_zeros, Hd.
    - intros sg. subst ds. rewrite normalise_leading; auto.
      f_equal. lia. }
  (* exponential notation *)
  assert (Hform : exists frac,
            all_digits frac = true /\
            ds = String d frac /\
            exponent_form ds n =
              (String d (match frac with
                         | EmptyString => EmptyString
                         | _ => String "." frac
                         end) ++
               String "e" ((if (n - 1 <? 0)%Z then "-" else "+") ++
                           nat_to_string (Z.to_N (Z.abs (n - 1)%Z))))%string).
  { exists tl. subst ds. split; [|split; auto].
    - cbn [all_digits] in Hd. apply andb_true_iff in Hd. tauto.
    - unfold exponent_form. destruct tl; reflexivity. }
  destruct Hform as [frac [Hfd [Hds ->]]].
  exists ds, n. split; [|intros sg; now apply normalise_id].
  rewrite !string_app_assoc. cbn [String.append].
  assert (Hd1 : is_digit d = true).
  { subst ds. cbn [all_digits] in Hd. apply andb_true_iff in Hd. tauto. }
  destruct frac as [|c f].
  - cbn [String.append].
    change (String d (String "e" ?x)) with (String d EmptyString ++ String "e" x)%string.
    rewrite lex_int_digits; auto;
      [|cbn [all_digits]; now rewrite Hd1 | reflexivity].
    rewrite lex_frac_none by reflexivity.
    rewrite string_app_assoc, lex_exp_print by assumption.
    rewrite Hds. cbn [String.append String.length]. f_equal. f_equal. f_equal. lia.
  - cbn [String.append].
    change (String d (String "." ?x)) with (String d EmptyString ++ String "." x)%string.
    rewrite lex_int_digits; auto;
      [|cbn [all_digits]; now rewrite Hd1 | reflexivity].
    change (String c (f ++ ?x)) with (String c f ++ x)%string.
    rewrite lex_frac_digits; auto; [|reflexivity].
    rewrite string_app_assoc, lex_exp_print by assumption.
    rewrite Hds. cbn [String.append String.length]. f_equal. f_equal. f_equal. lia.
Qed.

End NumberFacts.

Section NumberPrintFacts.
Import Json.

Lemma decimal_form_first d tl n :
  is_digit d = true ->
  exists c s', decimal_form (String d tl) n = String c s' /\ is_digit c = true.
Proof.
  intros Hd. unfold decimal_form.
  set (ds := String d tl). set (k := Z.of_nat (String.length ds)).
  destruct ((k <=? n) && (n <=? 21)); [subst ds; cbn [String.append]; eauto|].
  destruct ((0 <? n) && (n <=? 21)) eqn:EB.
  { apply andb_true_iff in EB. destruct EB as [E1 _]. apply Z.ltb_lt in E1.
    destruct (Z.to_nat n) as [|m] eqn:Em; [lia|].
    subst ds. cbn [take String.append]. eauto. }
  destruct ((-6 <? n) && (n <=? 0)); [cbn [String.append]; eauto|].
  unfold exponent_form. subst ds. destruct tl; cbn [String.append]; eauto.
Qed.

Lemma digit_not_minus c : is_digit c = true -> Ascii.eqb c "-" = false.
Proof.
  destruct c as [[] [] [] [] [] [] [] []]; try reflexivity; discriminate.
Qed.

(** A number read back from its print. *)
Lemma lex_number_print x rest :
  number_ok x = true -> ends_number rest = true ->
  lex_number (number_to_string x ++ rest) = Some (x, rest).
Proof.
  destruct x as [sg ds p]. unfold number_ok, number_to_string.
  cbn [digits neg point]. destruct ds as [|d tl].
  - rewrite andb_true_iff, negb_true_iff, Z.eqb_eq. intros [-> ->] Hr.
    unfold lex_number, lex_unsigned. cbn [String.append].
    simpl (Ascii.eqb "0" "-"). cbv iota.
    rewrite lex_int_zero, (ends_number_frac _ Hr), (ends_number_exp _ Hr).
    reflexivity.
  - rewrite !andb_true_iff, !negb_true_iff. intros [[Hd H0] Hl] Hr.
    destruct (lex_unsigned_decimal_form d tl p rest Hd H0 Hl Hr)
      as [ds' [n' [Hlex Hnorm]]].
    assert (Hd1 : is_digit d = true)
      by (cbn [all_digits] in Hd; apply andb_true_iff in Hd; tauto).
    destruct (decimal_form_first d tl p Hd1) as [c [s' [Hform Hc]]].
    unfold lex_number. destruct sg.
    + cbn [String.append]. simpl (Ascii.eqb "-" "-"). cbv iota.
      now rewrite Hlex, Hnorm.
    + rewrite Hform. cbn [String.append].
      rewrite (digit_not_minus _ Hc).
      change (String c (s' ++ rest)) with (String c s' ++ rest)%string.
      rewrite <- Hform. now rewrite Hlex, Hnorm.
Qed.

Lemma number_first x :
  number_ok x = true ->
  exists c s', number_to_string x = String c s' /\
               (Ascii.eqb c "-" || is_digit c = true).
Proof.
  destruct x as [sg ds p]. unfold number_ok, number_to_string.
  cbn [digits neg point]. destruct ds as [|d tl].
  - intros _. exists "0"%char, EmptyString. split; reflexivity.
  - rewrite !andb_true_iff. intros [[Hd _] _].
    assert (Hd1 : is_digit d = true)
      by (cbn [all_digits] in Hd; apply andb_true_iff in Hd; tauto).
    destruct sg.
    + eexists _, _. split; reflexivity.
    + destruct (decimal_form_first d tl p Hd1) as [c [s' [Hform Hc]]].
      exists c, s'. split; auto. rewrite Hc. apply orb_true_r.
Qed.

End NumberPrintFacts.

Section StringFacts.
Import Json.

(** One character read back from its escape. *)
Lemma lex_string_quote_char c tail :
  lex_string None (quote_char c ++ tail) =
  prepend (String c EmptyString) (lex_string None tail).
Proof.
  destruct c as [[] [] [] [] [] [] [] []]; reflexivity.
Qed.

Lemma lex_string_quote_body s rest :
  lex_string None (quote_body s ++ String dquote rest) = Some (s, rest).
Proof.
  induction s as [|c s IH].
  - reflexivity.
  - cbn [quote_body]. rewrite string_app_assoc, lex_string_quote_char, IH.
    reflexivity.
Qed.

End StringFacts.

Section LexFacts.
Import Json.

Lemma closed_ends_number ts :
  closed ts = true -> ends_number (print_tokens ts) = true.
Proof.
  destruct ts as [|t ts]; [reflexivity|].
  destruct t; try discriminate; reflexivity.
Qed.

Lemma number_start c :
  Ascii.eqb c "-" || is_digit c = true ->
  is_ws c = false /\ Ascii.eqb c "{" = false /\ Ascii.eqb c "}" = false /\
  Ascii.eqb c "[" = false /\ Ascii.eqb c "]" = false /\
  Ascii.eqb c ":" = false /\ Ascii.eqb c "," = false /\
  Ascii.eqb c dquote = false.
Proof.
  destruct c as [[] [] [] [] [] [] [] []]; try discriminate;
    intros _; repeat split; reflexivity.
Qed.

(** One token read back from its print. *)
Lemma lex_print_token t rest f :
  match t with
  | TNumber n => number_ok n = true /\ ends_number rest = true
  | _ => True
  end ->
  lex (S f) (print_token t ++ rest) = cons_token t (lex f rest).
Proof.
  destruct t; intros H; try reflexivity.
  - (* string *)
    cbn [print_token]. unfold quote. cbn [String.append lex].
    change (is_ws dquote) with false. cbv iota.
    change (Ascii.eqb dquote "{") with false.
    change (Ascii.eqb dquote "}") with false.
    change (Ascii.eqb dquote "[") with false.
    change (Ascii.eqb dquote "]") with false.
    change (Ascii.eqb dquote ":") with false.
    change (Ascii.eqb dquote ",") with false.
    change (Ascii.eqb dquote dquote) with true. cbv iota.
    rewrite string_app_assoc. cbn [String.append].
    now rewrite lex_string_quote_body.
  - (* number *)
    destruct H as [Hok Hr]. cbn [print_token].
    destruct (number_first n Hok) as [c [s' [Hp Hc]]].
    pose proof (lex_number_print n rest Hok Hr) as Hlex.
    rewrite Hp in *. cbn [String.append lex] in *.
    destruct (number_start c Hc) as [-> [-> [-> [-> [-> [-> [-> ->]]]]]]].
    rewrite Hc. cbv iota. now rewrite Hlex.
  - destruct rest; reflexivity.
  - destruct rest; reflexivity.
  - destruct rest; reflexivity.
Qed.

Lemma print_token_length t :
  match t with TNumber n => number_ok n = true | _ => True end ->
  (1 <= String.length (print_token t))%nat.
Proof.
  destruct t; intros H; cbn; try lia.
  destruct (number_first n H) as [c [s' [-> _]]]. simpl. lia.
Qed.

(** A token sequence read back from its print. *)
Lemma lex_print_tokens ts :
  separated ts = true ->
  forall f, (String.length (print_tokens ts) < f)%nat ->
  lex f (print_tokens ts) = Some ts.
Proof.
  induction ts as [|t ts IH]; intros Hs f Hf.
  - destruct f; [lia | reflexivity].
  - cbn [separated] in Hs. apply andb_true_iff in Hs. destruct Hs as [Ht Hs].
    cbn [print_tokens] in *. rewrite string_length_app in Hf.
    assert (Htok : match t with
                   | TNumber n => number_ok n = true /\
                                  ends_number (print_tokens ts) = true
                   | _ => True
                   end).
    { destruct t; auto. apply andb_true_iff in Ht. destruct Ht as [H1 H2].
      split; auto using closed_ends_number. }
    assert (Hlen : (1 <= String.length (print_token t))%nat).
    { apply print_token_length. destruct t; tauto. }
    destruct f as [|f]; [lia|].
    rewrite (lex_print_token t _ f Htok), (IH Hs f) by lia.
    reflexivity.
Qed.

(** Induction over values, with the hypothesis for every element of an
    array and every property of an object. *)
Lemma json_induction (P : json -> Prop) :
  P JNull -> (forall b, P (JBool b)) -> (forall n, P (JNum n)) ->
  (forall s, P (JStr s)) ->
  (forall items, Forall P items -> P (JArr items)) ->
  (forall fields, Forall (fun kv => P (snd kv)) fields -> P (JObj fields)) ->
  forall v, P v.
Proof.
  intros Hnull Hbool Hnum Hstr Harr Hobj.
  fix IH 1. intros [ | b | n | s | items | fields].
  - exact Hnull.
  - apply Hbool.
  - apply Hnum.
  - apply Hstr.
  - apply Harr. induction items as [|x items IHitems]; constructor.
    + apply IH.
    + exact IHitems.
  - apply Hobj. induction fields as [|[k x] fields IHfields]; constructor.
    + apply IH.
    + exact IHfields.
Qed.

Lemma tokens_of_array items :
  tokens_of (JArr items) = TLBracket :: tokens_elements items ++ [TRBracket].
Proof.
  reflexivity.
Qed.

Lemma tokens_of_object fields :
  tokens_of (JObj fields) = TLBrace :: tokens_members fields ++ [TRBrace].
Proof.
  reflexivity.
Qed.

End LexFacts.

Section ParseFacts.
Import Json.

Lemma tokens_of_head v :
  exists t ts, tokens_of v = t :: ts /\ closes t = false.
Proof.
  destruct v as [ | [] | n | s | items | fields]; cbn [tokens_of]; eauto.
Qed.

Lemma tokens_of_length v : (1 <= List.length (tokens_of v))%nat.
Proof.
  destruct (tokens_of_head v) as [t [ts [-> _]]]. simpl. lia.
Qed.

(** The tokens of a value keep every number apart from what follows. *)
Lemma separated_tokens_of v :
  value_ok v = true ->
  forall rest, separated rest = true -> closed rest = true ->
  separated (tokens_of v ++ rest) = true.
Proof.
  induction v as [ | b | n | s | items IH | fields IH] using json_induction;
    intros Hok rest Hs Hc.
  - exact Hs.
  - destruct b; exact Hs.
  - cbn in *. now rewrite Hok, Hc, Hs.
  - exact Hs.
  - rewrite tokens_of_array. cbn [List.app separated andb].
    rewrite <- List.app_assoc. cbn [value_ok] in Hok.
    assert (Htail : separated ([TRBracket] ++ rest) = true) by exact Hs.
    assert (Hclosed : closed ([TRBracket] ++ rest) = true) by reflexivity.
    revert Htail Hclosed. generalize ([TRBracket] ++ rest) as tail.
    clear Hs Hc rest.
    induction IH as [|x items Hx _ IHitems]; intros tail Htail Hclosed.
    + exact Htail.
    + cbn [forallb] in Hok. apply andb_true_iff in Hok.
      destruct Hok as [Hokx Hokl].
      cbn [tokens_elements]. rewrite <- List.app_assoc.
      apply Hx; auto.
      * destruct items; [exact Htail|]. cbn [List.app separated andb].
        now apply IHitems.
      * destruct items; [exact Hclosed | reflexivity].
  - rewrite tokens_of_object. cbn [List.app separated andb].
    rewrite <- List.app_assoc. cbn [value_ok] in Hok.
    apply andb_true_iff in Hok. destruct Hok as [_ Hok].
    assert (Htail : separated ([TRBrace] ++ rest) = true) by exact Hs.
    assert (Hclosed : closed ([TRBrace] ++ rest) = true) by reflexivity.
    revert Htail Hclosed. generalize ([TRBrace] ++ rest) as tail.
    clear Hs Hc rest.
    induction IH as [|[k x] fields Hx _ IHfields]; intros tail Htail Hclosed.
    + exact Htail.
    + cbn [forallb snd] in Hok. apply andb_true_iff in Hok.
      destruct Hok as [Hokx Hokl].
      cbn [tokens_members List.app separated andb]. rewrite <- List.app_assoc.
      apply Hx; auto.
      * destruct fields; [exact Htail|]. cbn [List.app separated andb].
        now apply IHfields.
      * destruct fields; [exact Hclosed | reflexivity].
Qed.

Lemma set_field_new k v acc :
  mem_string k (map fst acc) = false -> set_field k v acc = acc ++ [(k, v)].
Proof.
  induction acc as [|[k' v'] acc IH]; cbn [set_field map fst mem_string List.app];
    auto.
  rewrite orb_false_iff. intros [-> H]. now rewrite (IH H).
Qed.

Lemma mem_string_app k l1 l2 :
  mem_string k (l1 ++ l2) = mem_string k l1 || mem_string k l2.
Proof.
  induction l1 as [|x l1 IH]; cbn [mem_string List.app]; auto.
  now rewrite IH, orb_assoc.
Qed.

Lemma distinct_app_cons l1 k l2 :
  distinct (l1 ++ k :: l2) = true ->
  mem_string k l1 = false /\ distinct ((l1 ++ [k]) ++ l2) = true.
Proof.
  rewrite <- List.app_assoc. cbn [List.app]. intros H. split; auto.
  induction l1 as [|x l1 IH]; cbn [mem_string List.app distinct] in *; auto.
  apply andb_true_iff in H. destruct H as [Hx Hd].
  rewrite (IH Hd), orb_false_r.
  rewrite negb_true_iff, mem_string_app in Hx.
  apply orb_false_iff in Hx. destruct Hx as [_ Hx].
  cbn [mem_string] in Hx. apply orb_false_iff in Hx. destruct Hx as [Hx _].
  rewrite String.eqb_sym. exact Hx.
Qed.

(** A value read back from its tokens. *)
Lemma parse_value_tokens_of v :
  value_ok v = true ->
  forall fuel rest, (List.length (tokens_of v) < fuel)%nat ->
  parse_value fuel (tokens_of v ++ rest) = Some (v, rest).
Proof.
  induction v as [ | b | n | s | items IH | fields IH] using json_induction;
    intros Hok fuel rest Hfuel.
  - destruct fuel; [cbn in Hfuel; lia | reflexivity].
  - destruct fuel; [cbn in Hfuel; lia | destruct b; reflexivity].
  - destruct fuel; [cbn in Hfuel; lia | reflexivity].
  - destruct fuel; [cbn in Hfuel; lia | reflexivity].
  - rewrite tokens_of_array in *. cbn [value_ok] in Hok.
    destruct fuel as [|f]; [cbn in Hfuel; lia|].
    cbn [List.app List.length] in *. rewrite <- List.app_assoc.
    rewrite length_app in Hfuel. cbn [List.length List.app] in *.
    destruct items as [|x0 items0]; [reflexivity|].
    remember (x0 :: items0) as items eqn:Hitems.
    assert (Hne : items <> []) by (subst items; discriminate).
    assert (Helems : forall f' tail,
      (List.length (tokens_elements items) + 1 < f')%nat ->
      parse_elements f' (tokens_elements items ++ TRBracket :: tail)
      = Some (items, tail)).
    { clear Hitems Hfuel f rest x0 items0.
      induction IH as [|x items Hx _ IHitems]; [now elim Hne|].
      intros f' tail Hf'. cbn [forallb] in Hok. apply andb_true_iff in Hok.
      destruct Hok as [Hokx Hokl].
      cbn [tokens_elements] in *. rewrite length_app in Hf'.
      pose proof (tokens_of_length x) as Hlenx.
      destruct f' as [|f']; [lia|].
      cbn [parse_elements]. rewrite <- List.app_assoc.
      rewrite (Hx Hokx) by lia.
      destruct items as [|y items]; [reflexivity|].
      cbn [List.app]. cbn [List.length] in Hf'.
      rewrite IHitems; auto; [discriminate | lia]. }
    cbn [parse_value].
    destruct (tokens_of_head x0) as [t [ts [Ht Hcl]]].
    assert (Hstart : exists ts', tokens_elements items ++ TRBracket :: rest = t :: ts').
    { subst items. cbn [tokens_elements]. rewrite Ht. cbn [List.app]. eauto. }
    destruct Hstart as [ts' Hts']. rewrite Hts'.
    destruct t; try discriminate; rewrite <- Hts', Helems by lia; reflexivity.
  - rewrite tokens_of_object in *. cbn [value_ok] in Hok.
    apply andb_true_iff in Hok. destruct Hok as [Hdist Hok].
    destruct fuel as [|f]; [cbn in Hfuel; lia|].
    cbn [List.app List.length] in *. rewrite <- List.app_assoc.
    rewrite length_app in Hfuel. cbn [List.length List.app] in *.
    destruct fields as [|kx0 fields0]; [reflexivity|].
    remember (kx0 :: fields0) as fields eqn:Hfields.
    assert (Hne : fields <> []) by (subst fields; discriminate).
    assert (Hmembers : forall f' tail acc,
      distinct (map fst acc ++ map fst fields) = true ->
      (List.length (tokens_members fields) + 1 < f')%nat ->
      parse_members f' (tokens_members fields ++ TRBrace :: tail) acc
      = Some (acc ++ fields, tail)).
    { clear Hfields Hfuel f rest kx0 fields0 Hdist.
      induction IH as [|[k x] fields Hx _ IHfields]; [now elim Hne|].
      intros f' tail acc Hd Hf'. cbn [forallb snd] in Hok, Hx.
      apply andb_true_iff in Hok. destruct Hok as [Hokx Hokl].
      cbn [tokens_members map fst] in *.
      cbn [List.length] in Hf'. rewrite length_app in Hf'.
      pose proof (tokens_of_length x) as Hlenx.
      destruct f' as [|f']; [lia|].
      cbn [parse_members List.app]. rewrite <- List.app_assoc.
      rewrite (Hx Hokx) by lia.
      destruct (distinct_app_cons _ _ _ Hd) as [Hnew Hd'].
      rewrite (set_field_new _ _ _ Hnew).
      destruct fields as [|ky fields].
      - cbn [List.app]. reflexivity.
      - cbn [List.app]. cbn [List.length] in Hf'.
        rewrite IHfields; auto.
        + now rewrite <- List.app_assoc.
        + discriminate.
        + now rewrite map_app.
        + lia. }
    cbn [parse_value]. subst fields. destruct kx0 as [k0 x0].
    cbn [tokens_members List.app].
    change (TString k0 :: TColon :: (tokens_of x0 ++
              match fields0 with
              | [] => []
              | _ :: _ => TComma :: tokens_members fields0
              end) ++ TRBrace :: rest)
      with (tokens_members ((k0, x0) :: fields0) ++ TRBrace :: rest).
    rewrite (Hmembers f rest []); [reflexivity | exact Hdist | lia].
Qed.

(** Parsing what [stringify] printed gives the value back. *)
Lemma parse_stringify v : value_ok v = true -> parse (stringify v) = Some v.
Proof.
  intros Hok. unfold parse, stringify.
  rewrite lex_print_tokens.
  - rewrite <- (List.app_nil_r (tokens_of v)) at 2.
    rewrite parse_value_tokens_of; auto.
  - rewrite <- (List.app_nil_r (tokens_of v)).
    now apply separated_tokens_of.
  - lia.
Qed.

End ParseFacts.

(** C8.  For every analysis result (a JSON value: numbers in their form,
    the property names of each object all different), decoding the store's
    encoding gives the value back; and the text that [POST /api/reports]
    stores for a report decodes to the [result] it was sent. *)
Theorem decode_encode (x : Json.json) :
  Json.value_ok x = true ->
  Store.decode (Store.encode x) = Some x /\
  forall now db b db',
    Store.body_result b = x ->
    Store.post_reports now db b
      = (Sent 200 (Json.JObj [("success", Json.JBool true)]), db') ->
    exists r, In r (Store.reports db') /\
              Store.id r = Store.body_id b /\
              Store.decode (Store.result r) = Some x.
Proof.
  intros Hok.
  assert (Hrt : Store.decode (Store.encode x) = Some x)
    by (apply parse_stringify; exact Hok).
  split; [exact Hrt|].
  intros now db b db' Hb Hpost. unfold Store.post_reports in Hpost.
  destruct (Store.insert_report now db (Store.body_id b) (Store.body_userId b)
              (Store.body_query b) (Store.body_context b)
              (Store.encode (Store.body_result b))) as [code|db1] eqn:Hins;
    [discriminate|].
  injection Hpost as <-. unfold Store.insert_report in Hins.
  destruct (Store.has_id (Store.reports db) (Store.body_id b)); [discriminate|].
  destruct (Store.foreign_keys db &&
            negb (Store.refers (Store.users db) (Store.body_userId b)));
    [discriminate|].
  injection Hins as <-. eexists. cbn [Store.reports]. split; [|split].
  - apply in_or_app. right. left. reflexivity.
  - reflexivity.
  - cbn [Store.result]. rewrite Hb. exact Hrt.
Qed.

Lemma decode_encode_witness :
  let num := fun (ds : string) (n : Z) => Json.JNum (Json.mkNumber false ds n) in
  let x := Json.JObj
    [("data_summary",
      Json.JObj [("detected_entities", Json.JArr [Json.JStr "Region"]);
                 ("key_metrics", Json.JArr []);
                 ("relationships", Json.JArr [])]);
     ("insights", Json.JArr []);
     ("forecast",
      Json.JObj [("time_horizon", Json.JStr "Q2");
                 ("projection_data",
                  Json.JArr [Json.JObj [("period", Json.JStr "Apr");
                                        ("value", num "125" 4)];
                             Json.JObj [("period", Json.JStr "May");
                                        ("value", num "13755" 4)]])]);
     ("recommendations",
      Json.JArr [Json.JObj [("action", Json.JStr Server.nl);
                            ("confidence_score", num "85" 0);
                            ("ok", Json.JBool true);
                            ("note", Json.JNull)]])] in
  Store.decode (Store.encode x) = Some x.
Proof.
  intros num x. apply (decode_encode x). reflexivity.
Defined.

(** ** Listing the reports of a user *)

Section ListingFacts.
Import Store.

Lemma decode_rows_all rows :
  Forall (fun r => exists x, decode (result r) = Some x) rows ->
  exists l, decode_rows rows = Some l /\ List.length l = List.length rows.
Proof.
  induction 1 as [|r rows [x Hx] _ [l [Hl Hlen]]]; cbn [decode_rows].
  - now exists [].
  - rewrite Hx, Hl. eexists. split; [reflexivity|]. cbn. now rewrite Hlen.
Qed.

End ListingFacts.

(** C6 (as the code has it).  For a user id that is not empty, on a store
    whose results are texts the store's own encoding wrote, [GET
    /api/reports] answers 200 with the reports of that user: ten of them
    or all if there are fewer, each with its result decoded, ordered by
    creation time descending with ties in insertion order, and no report
    left out comes before a report listed in that order; for a user
    without stored reports the answer is the empty list. *)
Theorem get_reports_lists_newest_first (db : Store.Db) (userId : string) :
  userId <> EmptyString ->
  Integrity.well_stored db ->
  exists rows entries,
    Store.get_reports_run db (Some userId) = Sent 200 (Json.JArr entries) /\
    Store.decode_rows rows = Some entries /\
    List.length entries = List.length rows /\
    List.length rows =
      Nat.min 10 (List.length (filter (Store.owned_by userId)
                                      (Store.reports db))) /\
    Forall (fun r => Store.user_id r = Some userId /\ In r (Store.reports db))
           rows /\
    StronglySorted (Store.listed_before db) rows /\
    (forall a b,
       In a rows -> In b (Store.reports db) ->
       Store.user_id b = Some userId -> ~ In b rows ->
       Store.listed_before db a b) /\
    ((forall r, In r (Store.reports db) -> Store.user_id r <> Some userId) ->
     entries = []).
Proof.
  intros Hne Hw.
  assert (Ht : Str.truthy userId = true)
    by (destruct userId; [now elim Hne | reflexivity]).
  destruct (stmt_all_facts db userId) as [Hlen [Hown [Hsorted Hrecent]]].
  assert (Hdec : Forall (fun r => exists x,
                    Store.decode (Store.result r) = Some x)
                  (Store.stmt_all db userId)).
  { apply Forall_forall. intros r Hr.
    destruct (proj1 (Forall_forall _ _) Hown r Hr) as [_ Hin].
    destruct (proj1 (Forall_forall _ _) Hw r Hin) as [x [Hok Hx]].
    exists x. rewrite Hx. unfold Store.decode, Store.encode.
    now apply parse_stringify. }
  destruct (decode_rows_all _ Hdec) as [entries [Hl Hll]].
  exists (Store.stmt_all db userId), entries.
  split; [|split; [|split; [|split; [|split; [|split; [|split]]]]]]; auto.
  - cbn [Store.get_reports_run]. rewrite Ht. unfold Store.respond_rows.
    now rewrite Hl.
  - intros Hnone.
    assert (Hnil : Store.stmt_all db userId = []).
    { unfold Store.stmt_all. now rewrite (owned_by_none _ _ Hnone). }
    rewrite Hnil in Hl. cbn in Hl. now injection Hl as <-.
Qed.

Lemma get_reports_lists_newest_first_witness :
  let r1 := Store.mkReport "rep_1" (Some "u1") "q" "c" "{}"
                           "2026-01-01 10:00:00" in
  let r2 := Store.mkReport "rep_2" (Some "u1") "q" "c" "[]"
                           "2026-01-01 10:00:00" in
  let r3 := Store.mkReport "rep_3" (Some "u1") "q" "c" "true"
                           "2026-01-02 09:30:00" in
  let other := Store.mkReport "rep_4" (Some "u2") "q" "c" "null"
                              "2026-01-03 08:00:00" in
  let db := Store.mkDb ["u1"; "u2"] [r1; r2; other; r3] true in
  Store.get_reports_run db (Some "u1") =
    Sent 200 (Json.JArr [Store.report_json r3 (Json.JBool true);
                         Store.report_json r1 (Json.JObj []);
                         Store.report_json r2 (Json.JArr [])]) /\
  exists rows entries,
    Store.get_reports_run db (Some "u1") = Sent 200 (Json.JArr entries) /\
    Store.decode_rows rows = Some entries /\
    StronglySorted (Store.listed_before db) rows.
Proof.
  intros r1 r2 r3 other db. split; [reflexivity|].
  destruct (get_reports_lists_newest_first db "u1")
    as [rows [entries [H1 [H2 [_ [_ [_ [H3 _]]]]]]]].
  - discriminate.
  - unfold Integrity.well_stored. cbn [Store.reports].
    repeat constructor.
    + exists (Json.JObj []). split; reflexivity.
    + exists (Json.JArr []). split; reflexivity.
    + exists Json.JNull. split; reflexivity.
    + exists (Json.JBool true). split; reflexivity.
  - exists rows, entries. auto.
Defined.

(** C6 as stated fails where the route's guard and its decoding step in:
    the empty user id, which owns no report, is answered with the error
    400 and not with an empty list; and on a store state with a result
    that is not JSON text the route throws. *)
Lemma get_reports_empty_id_is_an_error :
  let r1 := Store.mkReport "rep_1" (Some "u1") "q" "c" "{}"
                           "2026-01-01 10:00:00" in
  let db := Store.mkDb ["u1"] [r1] true in
  let torn := Store.mkReport "rep_2" (Some "u1") "q" "c" "{"
                             "2026-01-02 10:00:00" in
  (forall r, In r (Store.reports db) -> Store.user_id r <> Some EmptyString) /\
  Store.get_reports_run db (Some EmptyString) =
    Sent 400 (error_body "userId required") /\
  Store.get_reports_run db (Some EmptyString) <> Sent 200 (Json.JArr []) /\
  Store.get_reports_run (Store.mkDb ["u1"] [r1; torn] true) (Some "u1") =
    Raised SyntaxError.
Proof.
  intros r1 db torn. split; [|split; [|split]].
  - intros r [<-|[]]. discriminate.
  - reflexivity.
  - discriminate.
  - reflexivity.
Qed.

(** ** The retrying invoker, for every behaviour of the call *)

(** How any run of the loop ends: after [k] failed iterations with
    retryable errors it returns, throws an error that is not retryable,
    or has no iteration left. *)
Lemma loop_shape {T : Type} (fn : nat -> Retry.Outcome T)
      (maxRetries : nat) (baseDelay : Z) (rem : nat) :
  forall i last tr,
  exists k, (k <= rem)%nat /\
    (forall j, (j < k)%nat ->
       exists e, fn (i + j)%nat = Retry.Rejected e /\
                 Retry.isTransient e = true) /\
    let r := Retry.loop fn maxRetries baseDelay rem i last tr in
    ((k < rem)%nat /\
     Retry.trace r =
       tr ++ Retry.rounds maxRetries baseDelay i k ++ [Retry.Attempt (i + k)] /\
     ((exists v, fn (i + k)%nat = Retry.Resolved v /\
                 Retry.completion r = Retry.Return v) \/
      (exists e, fn (i + k)%nat = Retry.Rejected e /\
                 Retry.isTransient e = false /\
                 Retry.completion r = Retry.Throw e)))
    \/
    (k = rem /\
     Retry.trace r = tr ++ Retry.rounds maxRetries baseDelay i rem /\
     ((rem = O /\ Retry.completion r =
                  match last with
                  | Some e => Retry.Throw e
                  | None => Retry.ThrowUndefined
                  end) \/
      (exists e, (0 < rem)%nat /\ fn (i + rem - 1)%nat = Retry.Rejected e /\
                 Retry.completion r = Retry.Throw e))).
Proof.
  induction rem as [|rem IH]; intros i last tr.
  - exists O. split; [lia|]. split; [intros j Hj; lia|]. right.
    unfold Retry.rounds. simpl. rewrite List.app_nil_r.
    repeat split; auto; destruct last; auto.
  - destruct (fn i) as [v|e] eqn:Hfn.
    + exists O. split; [lia|]. split; [intros j Hj; lia|]. left.
      rewrite (loop_resolved _ _ _ _ _ _ _ _ Hfn). rewrite Nat.add_0_r.
      unfold Retry.rounds. simpl. split; [lia|]. split; auto. left. eauto.
    + destruct (Retry.isTransient e) eqn:Ht.
      * rewrite (loop_transient _ _ _ _ _ _ _ _ Hfn Ht).
        destruct (IH (S i) (Some e) (tr ++ Retry.round maxRetries baseDelay i))
          as [k [Hk [Hpre Hend]]].
        exists (S k). split; [lia|]. split.
        { intros j Hj. destruct j as [|j].
          - rewrite Nat.add_0_r. eauto.
          - replace (i + S j)%nat with (S i + j)%nat by lia. apply Hpre. lia. }
        assert (Hr : forall n, Retry.rounds maxRetries baseDelay i (S n) =
                  Retry.round maxRetries baseDelay i ++
                  Retry.rounds maxRetries baseDelay (S i) n)
          by reflexivity.
        cbv zeta in *. destruct Hend as [[Hlt [Htr Hc]] | [Heq [Htr Hc]]].
        { left. split; [lia|]. split.
          - rewrite Htr, Hr, <- !List.app_assoc.
            now replace (i + S k)%nat with (S i + k)%nat by lia.
          - now replace (i + S k)%nat with (S i + k)%nat by lia. }
        { right. split; [lia|]. split.
          - rewrite Htr, Hr, <- !List.app_assoc. reflexivity.
          - right. destruct Hc as [[H0 Hc] | [e' [Hpos [Hf Hc]]]].
            + subst rem. exists e. split; [lia|]. split.
              * rewrite <- Hfn. f_equal. lia.
              * exact Hc.
            + exists e'. split; [lia|]. split; auto.
              now replace (i + S rem - 1)%nat with (S i + rem - 1)%nat by lia. }
      * exists O. split; [lia|]. split; [intros j Hj; lia|]. left.
        rewrite (loop_terminal _ _ _ _ _ _ _ _ Hfn Ht). rewrite Nat.add_0_r.
        unfold Retry.rounds. simpl. split; [lia|]. split; auto. right. eauto.
Qed.

(** X1.  Whatever the call does, [withRetry] makes between one and five
    attempts, its waits are the first of 2000, 4000, 8000, 16000, 32000 ms
    in that order, one after each failed attempt but possibly the last,
    and it never waits more than 62000 ms in all. *)
Theorem withRetry_bounded {T : Type} (fn : nat -> Retry.Outcome T) :
  let r := Retry.withRetry fn in
  (1 <= Retry.attempts r <= 5)%nat /\
  (exists n, (n <= 5)%nat /\
     Retry.delays r = firstn n [2000; 4000; 8000; 16000; 32000] /\
     (Retry.attempts r = n \/ Retry.attempts r = S n)) /\
  total_delay (Retry.delays r) <= 62000.
Proof.
  intros r. subst r. unfold Retry.withRetry, Retry.withRetry_with.
  destruct (loop_shape fn 5 2000 5 0 None []) as [k [Hk [_ Hend]]].
  cbv zeta in Hend. unfold Retry.attempts, Retry.delays.
  assert (Hd : Retry.sleeps (Retry.rounds 5 2000 0 k) =
               firstn k [2000; 4000; 8000; 16000; 32000]).
  { rewrite sleeps_rounds.
    do 6 (destruct k as [|k]; [reflexivity|]). lia. }
  assert (Hsum : total_delay (firstn k [2000; 4000; 8000; 16000; 32000]) <= 62000).
  { do 6 (destruct k as [|k]; [cbn; lia|]). cbn. lia. }
  destruct Hend as [[Hlt [Htr _]] | [Heq [Htr _]]]; rewrite Htr; cbn [List.app].
  - rewrite filter_app, length_app, attempts_rounds, sleeps_app, Hd.
    cbn. rewrite List.app_nil_r. split; [lia|]. split; [|exact Hsum].
    exists k. split; [lia|]. split; [reflexivity|]. right. lia.
  - subst k. rewrite attempts_rounds, Hd. split; [lia|]. split; [|exact Hsum].
    exists 5%nat. split; [lia|]. split; [reflexivity|]. left. reflexivity.
Qed.

(** X2.  A value returned by [withRetry] is the value some attempt resolved
    with, every attempt before it having failed with a retryable error; an
    error it throws is the error some attempt rejected with; and with five
    iterations it never throws [undefined]. *)
Theorem withRetry_result_comes_from_an_attempt {T : Type}
        (fn : nat -> Retry.Outcome T) :
  let r := Retry.withRetry fn in
  (forall v, Retry.completion r = Retry.Return v ->
     exists i, (i < 5)%nat /\ fn i = Retry.Resolved v /\
               Retry.attempts r = S i /\
               forall j, (j < i)%nat ->
                 exists e, fn j = Retry.Rejected e /\ Retry.transient_spec e) /\
  (forall e, Retry.completion r = Retry.Throw e ->
     exists i, (i < 5)%nat /\ fn i = Retry.Rejected e /\ Retry.attempts r = S i) /\
  Retry.completion r <> Retry.ThrowUndefined.
Proof.
  intros r. subst r. unfold Retry.withRetry, Retry.withRetry_with.
  destruct (loop_shape fn 5 2000 5 0 None []) as [k [Hk [Hpre Hend]]].
  cbv zeta in Hend. cbn [Nat.add] in *. unfold Retry.attempts.
  assert (Hpre' : forall j, (j < k)%nat ->
            exists e, fn j = Retry.Rejected e /\ Retry.transient_spec e).
  { intros j Hj. destruct (Hpre j Hj) as [e [H1 H2]]. exists e.
    now rewrite <- isTransient_spec. }
  destruct Hend as [[Hlt [Htr Hc]] | [Heq [Htr Hc]]]; rewrite Htr; cbn [List.app].
  - rewrite filter_app, length_app, attempts_rounds.
    cbn [filter Retry.is_attempt List.length].
    destruct Hc as [[v [Hf Hc]] | [e [Hf [_ Hc]]]]; rewrite Hc;
      (split; [|split]); try discriminate.
    + intros v' Hv. injection Hv as <-. exists k. repeat split; auto; lia.
    + intros e' He. injection He as <-. exists k. repeat split; auto; lia.
  - destruct Hc as [[H0 _] | [e [_ [Hf Hc]]]]; [discriminate|].
    rewrite Hc, attempts_rounds. (split; [|split]); try discriminate.
    intros e' He. injection He as <-. exists 4%nat. repeat split; auto.
Qed.

(** The first success ends the call: the rounds before it and its own
    attempt are all that happens. *)
Lemma withRetry_first_resolved {T : Type}
      (fn : nat -> Retry.Outcome T) (k : nat) (v : T) :
  (k < 5)%nat ->
  (forall j, (j < k)%nat ->
     exists e, fn j = Retry.Rejected e /\ Retry.transient_spec e) ->
  fn k = Retry.Resolved v ->
  Retry.withRetry fn =
  Retry.mkRun (Retry.Return v)
              (Retry.rounds 5 2000 0 k ++ [Retry.Attempt k]).
Proof.
  intros Hk Hpre Hfn. unfold Retry.withRetry, Retry.withRetry_with.
  destruct (loop_rounds fn 5 2000 k (5 - k) 0 None []) as [last' [Hl _]].
  { intros j Hj. destruct (Hpre j Hj) as [e [H1 H2]]. exists e.
    now rewrite isTransient_spec. }
  replace (k + (5 - k))%nat with 5%nat in Hl by lia. rewrite Hl.
  destruct (5 - k)%nat as [|rem] eqn:Hrem; [lia|].
  cbn [Nat.add List.app]. now rewrite (loop_resolved _ _ _ _ _ _ _ _ Hfn).
Qed.

(** X3.  When the first [k < 5] attempts fail with retryable errors and the
    next one succeeds, [withRetry] returns its value after [k + 1]
    attempts and the waits 2000 * 2^j for [j < k] (two failures: 2000 and
    4000 ms), the successful attempt being the last thing it does. *)
Theorem withRetry_returns_first_success {T : Type}
        (fn : nat -> Retry.Outcome T) (k : nat) (v : T) :
  (k < 5)%nat ->
  (forall j, (j < k)%nat ->
     exists e, fn j = Retry.Rejected e /\ Retry.transient_spec e) ->
  fn k = Retry.Resolved v ->
  let r := Retry.withRetry fn in
  Retry.completion r = Retry.Return v /\
  Retry.attempts r = S k /\
  Retry.delays r = map (fun j => 2000 * 2 ^ Z.of_nat j) (seq 0 k) /\
  Retry.trace r = Retry.rounds 5 2000 0 k ++ [Retry.Attempt k].
Proof.
  intros Hk Hpre Hfn r. subst r.
  rewrite (withRetry_first_resolved fn k v Hk Hpre Hfn).
  unfold Retry.attempts, Retry.delays. cbn [Retry.completion Retry.trace].
  rewrite filter_app, length_app, attempts_rounds, sleeps_app, sleeps_rounds.
  cbn [filter Retry.is_attempt List.length Retry.sleeps].
  rewrite List.app_nil_r. repeat split; lia.
Qed.

Lemma withRetry_returns_first_success_witness :
  let busy := mkError (Some 429) None (Some "Too Many Requests") in
  let fn := fun i : nat =>
    match i with
    | O | S O => Retry.Rejected busy
    | _ => Retry.Resolved "ok"
    end in
  let r := Retry.withRetry fn in
  Retry.completion r = Retry.Return "ok" /\
  Retry.attempts r = 3%nat /\
  Retry.delays r = [2000; 4000].
Proof.
  intros busy fn r.
  destruct (withRetry_returns_first_success fn 2 "ok") as [Hc [Ha [Hd _]]].
  - lia.
  - intros j Hj. exists busy. split.
    + destruct j as [|[|j]]; [reflexivity | reflexivity | lia].
    + left. reflexivity.
  - reflexivity.
  - repeat split; assumption.
Defined.

(** ** The normalizer, applied again and seen from the property names *)

Section NormalizerFacts.
Import Json.

Lemma fold_fill_truthy ds : forall fields,
  (forall k d, In (k, d) ds -> truthy (get_field fields k) = true) ->
  fold_left Server.fill ds fields = fields.
Proof.
  induction ds as [|[k d] ds IH]; intros fields H; cbn [fold_left]; auto.
  assert (Hk : Server.fill fields (k, d) = fields).
  { unfold Server.fill. cbn [fst snd]. rewrite (H k d); simpl; auto. }
  rewrite Hk. apply IH. intros k' d' Hin. apply (H k' d'). simpl. auto.
Qed.

Lemma defaults_truthy k d : In (k, d) Server.defaults -> truthy (Some d) = true.
Proof.
  simpl. intros H.
  repeat (destruct H as [H|H]; [injection H as <- <-; reflexivity|]).
  contradiction.
Qed.

Lemma has_field_in fields k :
  has_field fields k = true <-> In k (map fst fields).
Proof.
  unfold has_field. induction fields as [|[k' v] fields IH];
    cbn [get_field map fst In].
  - split; [discriminate | tauto].
  - destruct (String.eqb k' k) eqn:E.
    + apply String.eqb_eq in E. split; auto.
    + apply String.eqb_neq in E. rewrite IH. split; auto.
      intros [H|H]; [congruence | auto].
Qed.

Lemma keys_set_field k v fields :
  map fst (set_field k v fields) =
  map fst fields ++ (if has_field fields k then [] else [k]).
Proof.
  unfold has_field. induction fields as [|[k' v'] fields IH];
    cbn [set_field get_field map fst List.app]; auto.
  destruct (String.eqb k' k) eqn:E; cbn [map fst].
  - apply String.eqb_eq in E. subst k'. now rewrite List.app_nil_r.
  - now rewrite IH.
Qed.

Lemma keys_fill fields k d :
  map fst (Server.fill fields (k, d)) =
  map fst fields ++ (if has_field fields k then [] else [k]).
Proof.
  unfold Server.fill. cbn [fst snd].
  destruct (truthy (get_field fields k)) eqn:Ht; cbn [negb].
  - unfold has_field. destruct (get_field fields k); [|discriminate].
    now rewrite List.app_nil_r.
  - apply keys_set_field.
Qed.

Lemma has_field_fill_other fields k d k' :
  k <> k' -> has_field (Server.fill fields (k, d)) k' = has_field fields k'.
Proof.
  intros Hne. unfold has_field. now rewrite (get_fill_other _ _ _ _ Hne).
Qed.

Lemma keys_fold_fill ds : NoDup (map fst ds) -> forall fields,
  map fst (fold_left Server.fill ds fields) =
  map fst fields ++
  filter (fun k => negb (has_field fields k)) (map fst ds).
Proof.
  induction ds as [|[k d] ds IH]; intros Hnd fields;
    cbn [fold_left map fst filter].
  - now rewrite List.app_nil_r.
  - inversion Hnd as [|? ? Hnotin Hnd']; subst.
    rewrite (IH Hnd'), keys_fill, <- List.app_assoc. f_equal.
    assert (Hsame : filter (fun k0 => negb (has_field (Server.fill fields (k, d)) k0))
                           (map fst ds) =
                    filter (fun k0 => negb (has_field fields k0)) (map fst ds)).
    { apply filter_ext_in. intros k0 Hin.
      rewrite has_field_fill_other; auto. intros ->. contradiction. }
    rewrite Hsame. destruct (has_field fields k); reflexivity.
Qed.

End NormalizerFacts.

(** X4.  Normalizing twice is normalizing once: on a normalized document
    none of the eight tests fires again. *)
Theorem fill_defaults_idempotent (fields : list (string * Json.json)) :
  Server.fill_defaults (Server.fill_defaults fields) =
  Server.fill_defaults fields /\
  Server.normalize (Json.JObj (Server.fill_defaults fields)) =
  Server.normalize (Json.JObj fields).
Proof.
  assert (H : Server.fill_defaults (Server.fill_defaults fields) =
              Server.fill_defaults fields).
  { unfold Server.fill_defaults at 1. apply fold_fill_truthy.
    intros k d Hin. unfold Server.fill_defaults.
    rewrite (get_fold_fill _ defaults_distinct), (get_defaults_in _ _ Hin).
    destruct (Json.truthy (Json.get_field fields k)) eqn:Ht; auto.
    exact (defaults_truthy _ _ Hin). }
  split; [exact H|]. cbn [Server.normalize]. now rewrite H.
Qed.

(** X5.  The normalizer keeps every property of the document in its place
    and adds the missing ones of the eight after them, in the order of the
    tests: it removes nothing, reorders nothing and adds at most eight
    properties. *)
Theorem fill_defaults_appends_missing_keys (fields : list (string * Json.json)) :
  map fst (Server.fill_defaults fields) =
    map fst fields ++
    filter (fun k => negb (Json.has_field fields k))
           (map fst Server.defaults) /\
  (List.length fields <= List.length (Server.fill_defaults fields)
     <= List.length fields + 8)%nat.
Proof.
  pose proof (keys_fold_fill Server.defaults defaults_distinct fields) as H.
  fold (Server.fill_defaults fields) in H. split; [exact H|].
  apply (f_equal (@List.length string)) in H.
  rewrite length_app, !length_map in H. rewrite H.
  pose proof (filter_length_le (fun k => negb (Json.has_field fields k))
                (map fst Server.defaults)) as Hle.
  assert (H8 : List.length (map fst Server.defaults) = 8%nat) by reflexivity.
  split; lia.
Qed.

(** ** [POST /api/analyze], for every behaviour of the upstream call *)

Section AnalyzeRuns.
Import Json Server.

Variable syntax_error_message : string -> string.
Variable generateContent :
  string -> nat -> Retry.Outcome GenerateContentResponse.
Variable env : Env.

Local Abbreviation analyze := (Server.analyze syntax_error_message generateContent env).
Local Abbreviation finish := (Server.finish syntax_error_message).

(** An error the handler raises itself has no status: the [catch] block
    answers 500 with its message, or 429 when the message speaks of a
    quota or an exceeded rate. *)
Lemma on_error_js_error (msg : string) :
  on_error env (js_error msg) =
  if rate_limited (js_error msg)
  then Sent 429 (error_body rate_limit_message)
  else Sent 500 (error_body (if Str.truthy msg then msg
                             else "Failed to analyze data")).
Proof. reflexivity. Qed.

(** The upstream call answered in attempt [k]: the handler goes on with
    that answer and calls no more. *)
Lemma analyze_answered (b : AnalyzeBody) (rows : list json) (k : nat)
      (response : GenerateContentResponse) :
  dataset b = Some (JArr rows) ->
  configured env ->
  (k < 5)%nat ->
  (forall j, (j < k)%nat ->
     exists e, generateContent (prompt_of rows b) j = Retry.Rejected e /\
               Retry.transient_spec e) ->
  generateContent (prompt_of rows b) k = Retry.Resolved response ->
  analyze b =
  mkHandled match finish response with
            | inr r => r
            | inl e => on_error env e
            end
            (Retry.rounds 5 2000 0 k ++ [Retry.Attempt k]).
Proof.
  intros Hd Hc Hk Hpre Hfn.
  rewrite (analyze_calls_upstream _ _ _ _ _ Hd Hc).
  now rewrite (withRetry_first_resolved _ k response Hk Hpre Hfn).
Qed.

(** Every reply of the handler is sent: nothing is thrown out of it. *)
Lemma on_error_sent (e : JsError) :
  exists status msg, on_error env e = Sent status (error_body msg) /\
                     status <> 200 \/
                     on_error env e = Sent 200 (error_body msg) /\
                     catch_status e = 200.
Proof.
  unfold on_error. destruct (invalid_key e).
  - eexists 400, _. left. split; [reflexivity | lia].
  - destruct (rate_limited e).
    + eexists 429, _. left. split; [reflexivity | lia].
    + destruct (Z.eq_dec (catch_status e) 200) as [H|H].
      * eexists 200, _. right. rewrite H. split; reflexivity.
      * eexists _, _. left. split; [reflexivity | exact H].
Qed.

Lemma finish_sent (response : GenerateContentResponse) (r : Reply) :
  finish response = inr r ->
  exists t v result,
    text response = Some t /\ Str.truthy t = true /\
    parse t = Some v /\ normalize v = inr result /\ r = Sent 200 result.
Proof.
  unfold Server.finish. destruct (text response) as [t|]; [|discriminate].
  destruct (Str.truthy t) eqn:Ht; cbn [negb]; [|discriminate].
  destruct (parse t) as [v|] eqn:Hp; [|discriminate].
  destruct (normalize v) as [e|result] eqn:Hn; [discriminate|].
  intros H. injection H as <-. exists t, v, result. auto.
Qed.

End AnalyzeRuns.

(** X6.  The success path of the handler, composed of the retried call,
    [JSON.parse] and the normalizer: when the upstream call answers, after
    [k < 5] retryable failures, with a text that parses to an object, the
    reply is 200 with that object normalized, and the answering attempt is
    the last upstream call. *)
Theorem analyze_success_is_normalized_answer
        (syntax_error_message : string -> string)
        (generateContent :
           string -> nat -> Retry.Outcome Server.GenerateContentResponse)
        (env : Server.Env) (b : Server.AnalyzeBody) (rows : list Json.json)
        (k : nat) (t : string) (fields : list (string * Json.json)) :
  Server.dataset b = Some (Json.JArr rows) ->
  Server.configured env ->
  (k < 5)%nat ->
  (forall j, (j < k)%nat ->
     exists e, generateContent (Server.prompt_of rows b) j = Retry.Rejected e /\
               Retry.transient_spec e) ->
  generateContent (Server.prompt_of rows b) k =
    Retry.Resolved (Server.mkResponse (Some t)) ->
  Json.parse t = Some (Json.JObj fields) ->
  Server.analyze syntax_error_message generateContent env b =
  Server.mkHandled
    (Sent 200 (Json.JObj (Server.fill_defaults fields)))
    (Retry.rounds 5 2000 0 k ++ [Retry.Attempt k]).
Proof.
  intros Hd Hc Hk Hpre Hfn Hp.
  rewrite (analyze_answered _ _ _ _ _ _ _ Hd Hc Hk Hpre Hfn).
  unfold Server.finish. cbn [Server.text].
  assert (Ht : Str.truthy t = true).
  { destruct t; [discriminate Hp | reflexivity]. }
  now rewrite Ht, Hp.
Qed.

Lemma analyze_success_is_normalized_answer_witness :
  let busy := mkError (Some 503) None (Some "The model is overloaded.") in
  let up := fun (_ : string) (i : nat) =>
    match i with
    | O => Retry.Rejected busy
    | _ => Retry.Resolved
             (Server.mkResponse
                (Some ("{" ++ Server.qt "insights" ++ ":[1]," ++
                       Server.qt "forecast" ++ ":null}")%string))
    end in
  Server.analyze (fun _ => "Unexpected token") up
    (Server.mkEnv None (Some "key-2"))
    (Server.mkBody (Some (Json.JArr [Json.JNull])) None None) =
  Server.mkHandled
    (Sent 200 (Json.JObj (Server.fill_defaults
       [("insights", Json.JArr [Json.JNum (Json.mkNumber false "1" 1)]);
        ("forecast", Json.JNull)])))
    (Retry.rounds 5 2000 0 1 ++ [Retry.Attempt 1]).
Proof.
  intros busy up.
  apply (analyze_success_is_normalized_answer (fun _ => "Unexpected token") up
           (Server.mkEnv None (Some "key-2"))
           (Server.mkBody (Some (Json.JArr [Json.JNull])) None None)
           [Json.JNull] 1
           ("{" ++ Server.qt "insights" ++ ":[1]," ++
            Server.qt "forecast" ++ ":null}")%string).
  - reflexivity.
  - exists "key-2". split; [reflexivity | discriminate].
  - lia.
  - intros j Hj. exists busy. split.
    + destruct j; [reflexivity | lia].
    + right. left. reflexivity.
  - reflexivity.
  - vm_compute. reflexivity.
Defined.

(** X7.  An upstream answer without text is an error of the handler's own,
    not a reason to ask again: the reply is 500 with the handler's message
    and the answering attempt is the last upstream call. *)
Theorem analyze_empty_answer_is_500
        (syntax_error_message : string -> string)
        (generateContent :
           string -> nat -> Retry.Outcome Server.GenerateContentResponse)
        (env : Server.Env) (b : Server.AnalyzeBody) (rows : list Json.json)
        (k : nat) (response : Server.GenerateContentResponse) :
  Server.dataset b = Some (Json.JArr rows) ->
  Server.configured env ->
  (k < 5)%nat ->
  (forall j, (j < k)%nat ->
     exists e, generateContent (Server.prompt_of rows b) j = Retry.Rejected e /\
               Retry.transient_spec e) ->
  generateContent (Server.prompt_of rows b) k = Retry.Resolved response ->
  Server.text response = None \/ Server.text response = Some EmptyString ->
  Server.analyze syntax_error_message generateContent env b =
  Server.mkHandled
    (Sent 500 (error_body "Model returned empty response"))
    (Retry.rounds 5 2000 0 k ++ [Retry.Attempt k]).
Proof.
  intros Hd Hc Hk Hpre Hfn Ht.
  rewrite (analyze_answered _ _ _ _ _ _ _ Hd Hc Hk Hpre Hfn).
  unfold Server.finish. destruct Ht as [-> | ->]; reflexivity.
Qed.

Lemma analyze_empty_answer_is_500_witness :
  Server.analyze (fun _ => "Unexpected token")
    (fun _ _ => Retry.Resolved (Server.mkResponse (Some EmptyString)))
    (Server.mkEnv (Some "key-1") None)
    (Server.mkBody (Some (Json.JArr [Json.JNull])) None None) =
  Server.mkHandled
    (Sent 500 (error_body "Model returned empty response"))
    (Retry.rounds 5 2000 0 0 ++ [Retry.Attempt 0]).
Proof.
  apply (analyze_empty_answer_is_500 (fun _ => "Unexpected token")
           (fun _ _ => Retry.Resolved (Server.mkResponse (Some EmptyString)))
           (Server.mkEnv (Some "key-1") None)
           (Server.mkBody (Some (Json.JArr [Json.JNull])) None None)
           [Json.JNull] 0 (Server.mkResponse (Some EmptyString))).
  - reflexivity.
  - exists "key-1". split; [reflexivity | discriminate].
  - lia.
  - intros j Hj. lia.
  - reflexivity.
  - right. reflexivity.
Defined.

(** X8.  An upstream answer whose text is not JSON is not asked for again
    either, and is never answered with 200: the [SyntaxError] of
    [JSON.parse] has no status, so the reply is 500 with the message of
    that error, unless that message speaks of a quota or an exceeded rate,
    which the [catch] block takes for a rate limit and answers with 429. *)
Theorem analyze_unparsable_answer
        (syntax_error_message : string -> string)
        (generateContent :
           string -> nat -> Retry.Outcome Server.GenerateContentResponse)
        (env : Server.Env) (b : Server.AnalyzeBody) (rows : list Json.json)
        (k : nat) (t : string) :
  Server.dataset b = Some (Json.JArr rows) ->
  Server.configured env ->
  (k < 5)%nat ->
  (forall j, (j < k)%nat ->
     exists e, generateContent (Server.prompt_of rows b) j = Retry.Rejected e /\
               Retry.transient_spec e) ->
  generateContent (Server.prompt_of rows b) k =
    Retry.Resolved (Server.mkResponse (Some t)) ->
  t <> EmptyString ->
  Json.parse t = None ->
  let msg := syntax_error_message t in
  Server.analyze syntax_error_message generateContent env b =
  Server.mkHandled
    (if Str.includes (Str.toLowerCase msg) "rate exceeded"
        || Str.includes (Str.toLowerCase msg) "quota"
     then Sent 429 (error_body Server.rate_limit_message)
     else Sent 500 (error_body (if Str.truthy msg then msg
                                else "Failed to analyze data")))
    (Retry.rounds 5 2000 0 k ++ [Retry.Attempt k]).
Proof.
  intros Hd Hc Hk Hpre Hfn Hne Hp msg.
  rewrite (analyze_answered _ _ _ _ _ _ _ Hd Hc Hk Hpre Hfn).
  unfold Server.finish. cbn [Server.text].
  assert (Ht : Str.truthy t = true) by (destruct t; [now elim Hne | reflexivity]).
  rewrite Ht, Hp. cbn [negb]. rewrite on_error_js_error. reflexivity.
Qed.

Lemma analyze_unparsable_answer_witness :
  let sem := fun t : string =>
    ("Unexpected token 'q', " ++ Server.qt t ++ " is not valid JSON")%string in
  Server.analyze sem
    (fun _ _ => Retry.Resolved (Server.mkResponse (Some "quota exceeded")))
    (Server.mkEnv (Some "key-1") None)
    (Server.mkBody (Some (Json.JArr [Json.JNull])) None None) =
  Server.mkHandled (Sent 429 (error_body Server.rate_limit_message))
                   [Retry.Attempt 0].
Proof.
  intros sem.
  apply (analyze_unparsable_answer sem
           (fun _ _ => Retry.Resolved (Server.mkResponse (Some "quota exceeded")))
           (Server.mkEnv (Some "key-1") None)
           (Server.mkBody (Some (Json.JArr [Json.JNull])) None None)
           [Json.JNull] 0 "quota exceeded").
  - reflexivity.
  - exists "key-1". split; [reflexivity | discriminate].
  - lia.
  - intros j Hj. lia.
  - reflexivity.
  - discriminate.
  - vm_compute. reflexivity.
Defined.

(** X9.  A dataset that is truthy but not an array never reaches the
    upstream service: building the prompt throws a [TypeError], which the
    [catch] block answers with 500 and its message. *)
Theorem analyze_dataset_not_array
        (syntax_error_message : string -> string)
        (generateContent :
           string -> nat -> Retry.Outcome Server.GenerateContentResponse)
        (env : Server.Env) (b : Server.AnalyzeBody) (d : Json.json) :
  Server.dataset b = Some d ->
  Json.truthy (Some d) = true ->
  (forall rows, d <> Json.JArr rows) ->
  Server.configured env ->
  Server.analyze syntax_error_message generateContent env b =
  Server.mkHandled
    (Sent 500 (error_body
       match d with
       | Json.JStr _ => "dataset.slice(...).map is not a function"
       | _ => "dataset.slice is not a function"
       end))
    [].
Proof.
  intros Hd Ht Hna [apiKey [Hkey Hblank]]. unfold Server.analyze.
  rewrite Hd, Ht, Hkey. cbn [negb]. apply String.eqb_neq in Hblank.
  rewrite Hblank.
  destruct d; try reflexivity. now elim (Hna items).
Qed.

Lemma analyze_dataset_not_array_witness :
  Server.analyze (fun _ => "Unexpected token")
    (fun _ _ => Retry.Resolved (Server.mkResponse (Some "{}")))
    (Server.mkEnv (Some "key-1") None)
    (Server.mkBody (Some (Json.JStr "a,b")) None None) =
  Server.mkHandled
    (Sent 500 (error_body "dataset.slice(...).map is not a function")) [].
Proof.
  apply (analyze_dataset_not_array (fun _ => "Unexpected token")
           (fun _ _ => Retry.Resolved (Server.mkResponse (Some "{}")))
           (Server.mkEnv (Some "key-1") None)
           (Server.mkBody (Some (Json.JStr "a,b")) None None)
           (Json.JStr "a,b")).
  - reflexivity.
  - reflexivity.
  - discriminate.
  - exists "key-1". split; [reflexivity | discriminate].
Defined.

Section AnalyzeShape.
Import Json Server.

Variable syntax_error_message : string -> string.
Variable generateContent :
  string -> nat -> Retry.Outcome GenerateContentResponse.
Variable env : Env.

Local Abbreviation analyze := (Server.analyze syntax_error_message generateContent env).

Lemma analyze_reply_shape (b : AnalyzeBody) :
  exists status body,
    reply (analyze b) = Sent status body /\ reply_shape generateContent b status body.
Proof.
  assert (Herr : forall e tr,
    exists status body,
      reply (mkHandled (on_error env e) tr) = Sent status body /\
      reply_shape generateContent b status body).
  { intros e tr. cbn [reply].
    destruct (on_error_sent env e) as [status [msg [[H _]|[H _]]]];
      rewrite H; unfold reply_shape; eauto 8. }
  assert (Hmsg : forall status msg tr,
    exists status' body,
      reply (mkHandled (Sent status (error_body msg)) tr) = Sent status' body /\
      reply_shape generateContent b status' body).
  { intros. unfold reply_shape. cbn [reply]. eauto 8. }
  unfold Server.analyze.
  destruct (truthy (dataset b)); cbn [negb]; [|apply Hmsg].
  destruct (or_env (COGAPI3 env) (GEMINI_API_KEY env)) as [apiKey|];
    [|apply Hmsg].
  destruct (String.eqb (Str.trim apiKey) EmptyString); [apply Hmsg|].
  destruct (dataset b) as [d|] eqn:Hd; [|apply Hmsg].
  destruct (dataset_rows d) as [e|rows] eqn:Hrows; [apply Herr|].
  assert (Hdr : d = JArr rows).
  { destruct d; cbn in Hrows; try discriminate. now injection Hrows as ->. }
  subst d. cbv zeta. unfold Retry.withRetry, Retry.withRetry_with.
  destruct (loop_shape (generateContent (prompt_of rows b))
                       5 2000 5 0 None []) as [k [Hk [_ Hend]]].
  cbv zeta in Hend. cbn [Nat.add List.app] in Hend.
  destruct Hend as [[Hlt [_ Hcomp]] | [Heq [_ Hcomp]]].
  - destruct Hcomp as [[response [Hf Hcomp]] | [e [Hf [_ Hcomp]]]];
      rewrite Hcomp; [|apply Herr].
    destruct (finish syntax_error_message response) as [e|r] eqn:Hfin;
      [apply Herr|].
    destruct (finish_sent _ _ _ Hfin) as [t [v [result [Ht [_ [Hp [Hn ->]]]]]]].
    exists 200, result. split; [reflexivity|]. right. split; [reflexivity|].
    exists rows, k, t, v. repeat split; auto.
    destruct response as [tx]. cbn in Ht. now subst tx.
  - destruct Hcomp as [[H0 _] | [e [_ [_ Hcomp]]]]; [discriminate|].
    rewrite Hcomp. apply Herr.
Qed.

(** Upstream is called at most five times, and only for an array dataset
    with a credential configured. *)
Lemma analyze_upstream_guard (b : AnalyzeBody) :
  (List.length (filter Retry.is_attempt (upstream (analyze b))) <= 5)%nat /\
  (upstream (analyze b) <> [] ->
   configured env /\ exists rows, dataset b = Some (JArr rows)).
Proof.
  assert (Hnone : forall r,
    (List.length (filter Retry.is_attempt (upstream (mkHandled r []))) <= 5)%nat /\
    (upstream (mkHandled r []) <> [] ->
     configured env /\ exists rows, dataset b = Some (JArr rows))).
  { intros r. cbn. split; [lia | congruence]. }
  unfold Server.analyze.
  destruct (truthy (dataset b)); cbn [negb]; [|apply Hnone].
  destruct (or_env (COGAPI3 env) (GEMINI_API_KEY env)) as [apiKey|] eqn:Hkey;
    [|apply Hnone].
  destruct (String.eqb (Str.trim apiKey) EmptyString) eqn:Hblank;
    [apply Hnone|].
  assert (Hc : configured env).
  { exists apiKey. split; auto. now apply String.eqb_neq. }
  destruct (dataset b) as [d|] eqn:Hd; [|apply Hnone].
  destruct (dataset_rows d) as [e|rows] eqn:Hrows.
  { split; [cbn; lia | cbn; congruence]. }
  assert (Hdr : d = JArr rows).
  { destruct d; cbn in Hrows; try discriminate. now injection Hrows as ->. }
  subst d. cbv zeta. unfold Retry.withRetry, Retry.withRetry_with.
  destruct (loop_shape (generateContent (prompt_of rows b))
                       5 2000 5 0 None []) as [k [Hk [_ Hend]]].
  cbv zeta in Hend. cbn [Nat.add List.app] in Hend.
  set (run := Retry.loop (generateContent (prompt_of rows b))
                         5 2000 5 0 None []) in *.
  assert (Hlen : (List.length (filter Retry.is_attempt (Retry.trace run)) <= 5)%nat).
  { destruct Hend as [[Hlt [Htr _]] | [Heq [Htr _]]]; rewrite Htr.
    - rewrite filter_app, length_app, attempts_rounds. cbn. lia.
    - rewrite attempts_rounds. lia. }
  assert (Hany : forall r,
    (List.length (filter Retry.is_attempt
       (upstream (mkHandled r (Retry.trace run)))) <= 5)%nat /\
    (upstream (mkHandled r (Retry.trace run)) <> [] ->
     configured env /\ exists rows0, Some (JArr rows) = Some (JArr rows0))).
  { intros r. cbn [upstream]. split; [exact Hlen | eauto]. }
  destruct (Retry.completion run) as [response|e|]; try apply Hany.
  destruct (finish syntax_error_message response); apply Hany.
Qed.

End AnalyzeShape.

(** X10.  The handler answers every request, and with at most five
    upstream calls.  Its reply is an error object, or it is 200 with the
    normalized document of the text that one of the calls answered with;
    upstream is called only for an array dataset with a credential
    configured. *)
Theorem analyze_always_replies
        (syntax_error_message : string -> string)
        (generateContent :
           string -> nat -> Retry.Outcome Server.GenerateContentResponse)
        (env : Server.Env) (b : Server.AnalyzeBody) :
  let h := Server.analyze syntax_error_message generateContent env b in
  (exists status body,
     Server.reply h = Sent status body /\
     ((exists msg, body = error_body msg) \/
      (status = 200 /\
       exists rows i t v,
         Server.dataset b = Some (Json.JArr rows) /\ (i < 5)%nat /\
         generateContent (Server.prompt_of rows b) i =
           Retry.Resolved (Server.mkResponse (Some t)) /\
         Json.parse t = Some v /\ Server.normalize v = inr body))) /\
  (List.length (filter Retry.is_attempt (Server.upstream h)) <= 5)%nat /\
  (Server.upstream h <> [] ->
   Server.configured env /\ exists rows, Server.dataset b = Some (Json.JArr rows)).
Proof.
  intros h. subst h. split.
  - exact (analyze_reply_shape syntax_error_message generateContent env b).
  - exact (analyze_upstream_guard syntax_error_message generateContent env b).
Qed.

(** ** What [JSON.parse] returns *)

Section ParsedFacts.
Import Json.

#[local] Arguments is_digit : simpl never.

Lemma span_digits_all s :
  all_digits (fst (span_digits s)) = true.
Proof.
  induction s as [|c s IH]; cbn [span_digits]; auto.
  destruct (is_digit c) eqn:Hc; auto.
  destruct (span_digits s) as [ds rest]. cbn [fst all_digits] in *.
  now rewrite Hc, IH.
Qed.

Lemma lex_int_all s ip rest :
  lex_int s = Some (ip, rest) -> all_digits ip = true.
Proof.
  destruct s as [|c s]; cbn [lex_int]; [discriminate|].
  destruct (Ascii.eqb c "0").
  - intros H. injection H as <- _. reflexivity.
  - pose proof (span_digits_all (String c s)) as Hall.
    destruct (span_digits (String c s)) as [[|d ds] r]; [discriminate|].
    intros H. injection H as <- _. exact Hall.
Qed.

Lemma lex_frac_all s fp rest :
  lex_frac s = Some (fp, rest) -> all_digits fp = true.
Proof.
  destruct s as [|c s]; cbn [lex_frac].
  - intros H. injection H as <- _. reflexivity.
  - destruct (Ascii.eqb c ".").
    + pose proof (span_digits_all s) as Hall.
      destruct (span_digits s) as [[|d ds] r]; [discriminate|].
      intros H. injection H as <- _. exact Hall.
    + intros H. injection H as <- _. reflexivity.
Qed.

Lemma lex_unsigned_all s ds n rest :
  lex_unsigned s = Some (ds, n, rest) -> all_digits ds = true.
Proof.
  unfold lex_unsigned.
  destruct (lex_int s) as [[ip s2]|] eqn:Hi; [|discriminate].
  destruct (lex_frac s2) as [[fp s3]|] eqn:Hf; [|discriminate].
  destruct (lex_exp s3) as [[e s4]|]; [|discriminate].
  intros H. injection H as <- _ _.
  now rewrite all_digits_app, (lex_int_all _ _ _ Hi), (lex_frac_all _ _ _ Hf).
Qed.

(** Stripping zeros leaves digits, and none at the stripped end. *)
Lemma strip_leading_spec ds : forall n,
  all_digits ds = true ->
  all_digits (fst (strip_leading ds n)) = true /\
  match fst (strip_leading ds n) with
  | EmptyString => True
  | String d _ => Ascii.eqb d "0" = false
  end.
Proof.
  induction ds as [|c ds IH]; intros n Hall; cbn [strip_leading].
  - now split.
  - cbn [all_digits] in Hall. apply andb_true_iff in Hall as [Hc Hds].
    destruct (Ascii.eqb c "0") eqn:E.
    + now apply IH.
    + cbn [fst all_digits]. now rewrite Hc, Hds.
Qed.

Lemma strip_trailing_spec ds :
  all_digits ds = true ->
  match strip_trailing ds with
  | EmptyString => True
  | String d rest =>
      all_digits (String d rest) = true /\
      (exists tl, ds = String d tl) /\
      Ascii.eqb (last_char rest d) "0" = false
  end.
Proof.
  induction ds as [|c ds IH]; intros Hall; cbn [strip_trailing]; auto.
  cbn [all_digits] in Hall. apply andb_true_iff in Hall as [Hc Hds].
  specialize (IH Hds).
  destruct (strip_trailing ds) as [|d rest].
  - destruct (Ascii.eqb c "0") eqn:E; auto.
    cbn [all_digits last_char]. rewrite Hc. eauto.
  - destruct IH as [Hall' [[tl Htl] Hlast]].
    cbn [all_digits last_char] in *. rewrite Hc, Hall'. eauto.
Qed.

Lemma normalise_ok sg ds n :
  all_digits ds = true -> number_ok (normalise sg ds n) = true.
Proof.
  intros Hall. unfold normalise.
  destruct (strip_leading_spec ds n Hall) as [H1 H2].
  destruct (strip_leading ds n) as [ds1 n1]. cbn [fst] in *.
  pose proof (strip_trailing_spec ds1 H1) as H3.
  destruct (strip_trailing ds1) as [|d rest]; [reflexivity|].
  destruct H3 as [Hall' [[tl Htl] Hlast]]. subst ds1.
  unfold number_ok. cbn [digits]. now rewrite Hall', H2, Hlast.
Qed.

Lemma lex_number_ok s x rest :
  lex_number s = Some (x, rest) -> number_ok x = true.
Proof.
  unfold lex_number.
  destruct (match s with
            | String c s' => if Ascii.eqb c "-" then (true, s') else (false, s)
            | EmptyString => (false, s)
            end) as [sign s1].
  destruct (lex_unsigned s1) as [[[ds n] r]|] eqn:Hu; [|discriminate].
  intros H. injection H as <- _.
  apply normalise_ok. exact (lex_unsigned_all _ _ _ _ Hu).
Qed.

(** The numbers among the tokens of a text are in their form. *)
Local Abbreviation token_ok :=
  (fun t : token => forall n, t = TNumber n -> number_ok n = true).

Lemma lex_tokens_ok fuel : forall s ts,
  lex fuel s = Some ts -> Forall token_ok ts.
Proof.
  induction fuel as [|fuel IH]; intros s ts; cbn [lex]; [discriminate|].
  assert (Hcons : forall t s',
            (forall n, t = TNumber n -> number_ok n = true) ->
            cons_token t (lex fuel s') = Some ts -> Forall token_ok ts).
  { intros t s' Ht H. unfold cons_token in H.
    destruct (lex fuel s') as [ts'|] eqn:Hl; [|discriminate].
    injection H as <-. constructor; eauto. }
  destruct s as [|c s']; [intros H; injection H as <-; constructor|].
  destruct (is_ws c); [apply IH|].
  repeat (match goal with
          | |- (if ?b then _ else _) = _ -> _ =>
              destruct b eqn:?; [try (apply Hcons; discriminate)|]
          end); try discriminate.
  - destruct (lex_string None s') as [[str rest]|]; [|discriminate].
    apply Hcons; discriminate.
  - destruct (lex_number (String c s')) as [[x rest]|] eqn:Hn; [|discriminate].
    apply Hcons. intros n Hx. injection Hx as <-.
    exact (lex_number_ok _ _ _ Hn).
Qed.

Lemma mem_string_keys k fields :
  mem_string k (map fst fields) = has_field fields k.
Proof.
  unfold has_field. induction fields as [|[k' v] fields IH];
    cbn [map fst mem_string get_field]; auto.
  destruct (String.eqb k' k); auto.
Qed.

Lemma distinct_snoc l k :
  distinct l = true -> mem_string k l = false -> distinct (l ++ [k]) = true.
Proof.
  induction l as [|k' l IH]; cbn [List.app distinct mem_string]; auto.
  intros Hd Hm. apply andb_true_iff in Hd as [Hn Hd].
  apply orb_false_iff in Hm as [Hne Hm].
  rewrite mem_string_app, (IH Hd Hm). cbn [mem_string].
  rewrite String.eqb_sym, Hne.
  destruct (mem_string k' l); [discriminate | reflexivity].
Qed.

Lemma forallb_set_field (P : json -> bool) k v fields :
  P v = true ->
  forallb (fun kv => P (snd kv)) fields = true ->
  forallb (fun kv => P (snd kv)) (set_field k v fields) = true.
Proof.
  intros Hv. induction fields as [|[k' v'] fields IH];
    cbn [set_field forallb snd].
  - now rewrite Hv.
  - intros H. apply andb_true_iff in H as [H1 H2].
    destruct (String.eqb k' k); cbn [forallb snd].
    + now rewrite Hv, H2.
    + now rewrite H1, IH.
Qed.

Lemma set_field_ok k v fields :
  value_ok v = true -> value_ok (JObj fields) = true ->
  value_ok (JObj (set_field k v fields)) = true.
Proof.
  cbn [value_ok]. intros Hv H. apply andb_true_iff in H as [Hd Hf].
  rewrite (forallb_set_field value_ok k v fields Hv Hf), keys_set_field.
  rewrite <- mem_string_keys.
  destruct (mem_string k (map fst fields)) eqn:Hm.
  - now rewrite List.app_nil_r, Hd.
  - now rewrite (distinct_snoc _ _ Hd Hm).
Qed.

Lemma Forall_tail {A} (P : A -> Prop) x l : Forall P (x :: l) -> Forall P l.
Proof. intros H. now inversion H. Qed.

Lemma parse_value_ok fuel :
  (forall ts v r, parse_value fuel ts = Some (v, r) ->
     Forall token_ok ts -> value_ok v = true /\ Forall token_ok r) /\
  (forall ts vs r, parse_elements fuel ts = Some (vs, r) ->
     Forall token_ok ts -> forallb value_ok vs = true /\ Forall token_ok r) /\
  (forall ts acc fields r, parse_members fuel ts acc = Some (fields, r) ->
     Forall token_ok ts -> value_ok (JObj acc) = true ->
     value_ok (JObj fields) = true /\ Forall token_ok r).
Proof.
  induction fuel as [|f [IHv [IHe IHm]]].
  - repeat split; discriminate.
  - split; [|split].
    + intros ts v r H Hts. cbn [parse_value] in H.
      destruct ts as [|t ts]; [discriminate|].
      pose proof (Forall_tail _ _ _ Hts) as Htl.
      destruct t; try discriminate;
        try (injection H as <- <-; split; [reflexivity | exact Htl]).
      * (* an object *)
        destruct ts as [|t' ts'].
        { destruct (parse_members f [] []) as [[fields r']|] eqn:Hm;
            [|discriminate].
          injection H as <- <-. now apply (IHm _ _ _ _ Hm). }
        assert (Hgen : match parse_members f (t' :: ts') [] with
                       | Some (fields, r') => Some (JObj fields, r')
                       | None => None
                       end = Some (v, r) ->
                       value_ok v = true /\ Forall token_ok r).
        { destruct (parse_members f (t' :: ts') []) as [[fields r']|] eqn:Hm;
            [|discriminate].
          intros H'. injection H' as <- <-. now apply (IHm _ _ _ _ Hm). }
        destruct t'; try (exact (Hgen H)).
        injection H as <- <-. split; [reflexivity|].
        exact (Forall_tail _ _ _ Htl).
      * (* an array *)
        destruct ts as [|t' ts'].
        { destruct (parse_elements f []) as [[items r']|] eqn:He;
            [|discriminate].
          injection H as <- <-. now apply (IHe _ _ _ He). }
        assert (Hgen : match parse_elements f (t' :: ts') with
                       | Some (items, r') => Some (JArr items, r')
                       | None => None
                       end = Some (v, r) ->
                       value_ok v = true /\ Forall token_ok r).
        { destruct (parse_elements f (t' :: ts')) as [[items r']|] eqn:He;
            [|discriminate].
          intros H'. injection H' as <- <-. now apply (IHe _ _ _ He). }
        destruct t'; try (exact (Hgen H)).
        injection H as <- <-. split; [reflexivity|].
        exact (Forall_tail _ _ _ Htl).
      * (* a number *)
        injection H as <- <-. split; [|exact Htl].
        inversion Hts as [|? ? Hn _]; subst. now apply Hn.
    + intros ts vs r H Hts. cbn [parse_elements] in H.
      destruct (parse_value f ts) as [[v r1]|] eqn:Hv; [|discriminate].
      destruct (IHv _ _ _ Hv Hts) as [Hok Hr1].
      destruct r1 as [|t r1]; [discriminate|].
      pose proof (Forall_tail _ _ _ Hr1) as Htl.
      destruct t; try discriminate.
      * injection H as <- <-. cbn [forallb]. now rewrite Hok.
      * destruct (parse_elements f r1) as [[vs' r']|] eqn:He; [|discriminate].
        injection H as <- <-. destruct (IHe _ _ _ He Htl) as [Hvs Hr'].
        cbn [forallb]. now rewrite Hok, Hvs.
    + intros ts acc fields r H Hts Hacc. cbn [parse_members] in H.
      destruct ts as [|t ts]; [discriminate|].
      destruct t; try discriminate.
      destruct ts as [|t ts]; [discriminate|].
      destruct t; try discriminate.
      pose proof (Forall_tail _ _ _ (Forall_tail _ _ _ Hts)) as Htl.
      destruct (parse_value f ts) as [[v r1]|] eqn:Hv; [|discriminate].
      destruct (IHv _ _ _ Hv Htl) as [Hok Hr1].
      destruct r1 as [|t r1]; [discriminate|].
      pose proof (Forall_tail _ _ _ Hr1) as Htl1.
      destruct t; try discriminate.
      * injection H as <- <-. split; [|exact Htl1].
        now apply set_field_ok.
      * apply (IHm _ _ _ _ H Htl1). now apply set_field_ok.
Qed.

Lemma parse_ok t v : parse t = Some v -> value_ok v = true.
Proof.
  unfold parse.
  destruct (lex (S (String.length t)) t) as [ts|] eqn:Hl; [|discriminate].
  destruct (parse_value (S (List.length ts)) ts) as [[v' r]|] eqn:Hp;
    [|discriminate].
  destruct r; [|discriminate]. intros H. injection H as <-.
  destruct (parse_value_ok (S (List.length ts))) as [Hv _].
  exact (proj1 (Hv _ _ _ Hp (lex_tokens_ok _ _ _ Hl))).
Qed.

End ParsedFacts.

(** X11.  What [JSON.parse] returns is a value that [JSON.stringify] and
    [JSON.parse] carry round unchanged: a stored report, once decoded,
    encodes and decodes to itself, whatever text it was decoded from
    (white space, escapes, a zero exponent, a repeated key).  Stated for
    the values on which the exact decimals and the property order of
    [Json] are those of the platform: numbers of at most 15 significant
    digits within 300 decimal places, no property name that is a whole
    number. *)
Theorem decode_is_canonical (text : string) (x : Json.json) :
  Store.decode text = Some x ->
  Platform.plain x = true ->
  Json.value_ok x = true /\ Store.decode (Store.encode x) = Some x.
Proof.
  unfold Store.decode, Store.encode. intros H _.
  pose proof (parse_ok _ _ H) as Hok. split; [exact Hok|].
  now apply parse_stringify.
Qed.

Lemma decode_is_canonical_witness :
  let text := ("{ " ++ Server.qt "a" ++ " : 1.50e1, " ++ Server.qt "a" ++
               " : [ 0.0 , 12.50e-1, " ++ Server.qt "A" ++ " ] }")%string in
  let x := Json.JObj
    [("a", Json.JArr [Json.JNum Json.zero;
                      Json.JNum (Json.mkNumber false "125" 1);
                      Json.JStr "A"])] in
  Store.decode text = Some x /\
  Json.value_ok x = true /\ Store.decode (Store.encode x) = Some x.
Proof.
  intros text x. split; [vm_compute; reflexivity|].
  apply (decode_is_canonical text x); vm_compute; reflexivity.
Defined.

(** ** [JSON.stringify] writes one line, and the prompt one line per row *)

Section OneLine.
Import Json.

Local Abbreviation visible := (Text.every Text.above_c0).

Lemma every_app p a b :
  Text.every p (a ++ b) = Text.every p a && Text.every p b.
Proof.
  induction a as [|c a IH]; cbn [String.append Text.every]; auto.
  now rewrite IH, andb_assoc.
Qed.

Lemma visible_digits ds : all_digits ds = true -> visible ds = true.
Proof.
  induction ds as [|c ds IH]; cbn [all_digits Text.every]; auto.
  intros H. apply andb_true_iff in H as [Hc Hds]. rewrite (IH Hds).
  unfold is_digit in Hc. apply andb_true_iff in Hc as [Hlo _].
  unfold Text.above_c0. apply Nat.leb_le in Hlo.
  apply andb_true_iff. split; [apply Nat.leb_le; lia | reflexivity].
Qed.

Lemma visible_exponent_form ds n :
  all_digits ds = true -> visible (exponent_form ds n) = true.
Proof.
  intros Hall. unfold exponent_form. cbv zeta.
  rewrite !every_app.
  rewrite (visible_digits _ (all_digits_nat_to_string _)).
  assert (Hm : visible match ds with
                       | String d EmptyString => ds
                       | String d rest => String d ("." ++ rest)
                       | EmptyString => EmptyString
                       end = true).
  { destruct ds as [|d rest]; [reflexivity|].
    pose proof (visible_digits _ Hall) as Hv.
    destruct rest as [|d' rest]; [exact Hv|].
    cbn [Text.every] in *. apply andb_true_iff in Hv as [H1 H2].
    rewrite H1. cbn [String.append Text.every]. exact H2. }
  rewrite Hm. now destruct (n - 1 <? 0).
Qed.

Lemma visible_decimal_form ds n :
  all_digits ds = true -> visible (decimal_form ds n) = true.
Proof.
  intros Hall. unfold decimal_form. cbv zeta.
  destruct ((Z.of_nat (String.length ds) <=? n) && (n <=? 21)).
  { now rewrite every_app, (visible_digits _ Hall),
      (visible_digits _ (all_digits_zeros _)). }
  destruct ((0 <? n) && (n <=? 21)).
  { rewrite !every_app,
      (visible_digits _ (all_digits_take _ _ Hall)),
      (visible_digits _ (all_digits_drop _ _ Hall)). reflexivity. }
  destruct ((-6 <? n) && (n <=? 0)).
  { rewrite !every_app, (visible_digits _ Hall),
      (visible_digits _ (all_digits_zeros _)). reflexivity. }
  now apply visible_exponent_form.
Qed.

Lemma visible_number x :
  number_ok x = true -> visible (number_to_string x) = true.
Proof.
  unfold number_ok, number_to_string.
  destruct (digits x) as [|d rest] eqn:Hd; [reflexivity|].
  intros H. apply andb_true_iff in H as [H _].
  apply andb_true_iff in H as [Hall _].
  pose proof (visible_decimal_form _ (point x) Hall) as Hv.
  destruct (neg x); [|exact Hv]. cbn [Text.every]. now rewrite Hv.
Qed.

Lemma visible_quote_char c : visible (quote_char c) = true.
Proof.
  destruct c as [[] [] [] [] [] [] [] []]; reflexivity.
Qed.

Lemma visible_quote s : visible (quote s) = true.
Proof.
  unfold quote. cbn [Text.every]. rewrite every_app.
  assert (H : visible (quote_body s) = true).
  { induction s as [|c s IH]; cbn [quote_body]; auto.
    now rewrite every_app, visible_quote_char, IH. }
  now rewrite H.
Qed.

Lemma visible_token t :
  match t with TNumber n => number_ok n = true | _ => True end ->
  visible (print_token t) = true.
Proof.
  destruct t; cbn [print_token]; intros H; try reflexivity.
  - apply visible_quote.
  - now apply visible_number.
Qed.

Lemma visible_tokens ts :
  separated ts = true -> visible (print_tokens ts) = true.
Proof.
  induction ts as [|t ts IH]; cbn [separated print_tokens]; auto.
  intros H. apply andb_true_iff in H as [Ht Hts].
  rewrite every_app, (IH Hts), andb_true_r. apply visible_token.
  destruct t; auto. now apply andb_true_iff in Ht as [Ht _].
Qed.

Lemma every_in p pre c suf :
  Text.every p (pre ++ String c suf) = true -> p c = true.
Proof.
  rewrite every_app. cbn [Text.every]. intros H.
  apply andb_true_iff in H as [_ H]. now apply andb_true_iff in H as [H _].
Qed.

End OneLine.

Lemma stringify_above_c0 (v : Json.json) :
  Json.value_ok v = true ->
  Text.every Text.above_c0 (Json.stringify v) = true.
Proof.
  intros Hok. unfold Json.stringify. apply visible_tokens.
  rewrite <- (List.app_nil_r (Json.tokens_of v)).
  now apply separated_tokens_of.
Qed.

Lemma lines_not_nil (s : string) : Text.lines s <> [].
Proof.
  destruct s as [|c s]; cbn [Text.lines]; [discriminate|].
  destruct (Text.is_lf c); [discriminate|].
  destruct (Text.lines s); discriminate.
Qed.

Lemma lines_cut (a r : string) :
  Text.lines (a ++ Server.nl ++ r) = Text.lines a ++ Text.lines r.
Proof.
  unfold Server.nl. cbn [String.append].
  induction a as [|c a IH]; cbn [String.append Text.lines].
  - reflexivity.
  - rewrite IH. destruct (Text.is_lf c); [reflexivity|].
    pose proof (lines_not_nil a) as Hne.
    destruct (Text.lines a) as [|l ls]; [congruence|reflexivity].
Qed.

Lemma lines_one (s : string) :
  Text.every Text.above_c0 s = true -> Text.lines s = [s].
Proof.
  induction s as [|c s IH]; cbn [Text.every Text.lines]; [reflexivity|].
  intros H. apply andb_true_iff in H as [Hc Hs]. rewrite (IH Hs).
  replace (Text.is_lf c) with false; [reflexivity|].
  symmetry. unfold Text.is_lf. apply Ascii.eqb_neq. intros ->.
  discriminate Hc.
Qed.

Lemma lines_join (l : list string) :
  l <> [] ->
  Forall (fun s => Text.every Text.above_c0 s = true) l ->
  Text.lines (Server.join Server.nl l) = l.
Proof.
  induction l as [|x l IH]; [congruence|]. intros _ Hall.
  inversion Hall as [|? ? Hx Hl]; subst.
  destruct l as [|y l].
  - cbn [Server.join]. now apply lines_one.
  - change (Server.join Server.nl (x :: y :: l))
      with (x ++ Server.nl ++ Server.join Server.nl (y :: l))%string.
    rewrite lines_cut, (lines_one _ Hx), IH by (congruence || assumption).
    reflexivity.
Qed.

Lemma rows_above_c0 (rows : list Json.json) :
  forallb Json.value_ok rows = true ->
  Forall (fun row => Text.every Text.above_c0 (Json.stringify row) = true)
         rows.
Proof.
  intros Hok. apply Forall_forall. intros row Hin.
  apply stringify_above_c0.
  exact (proj1 (forallb_forall _ _) Hok row Hin).
Qed.

(** X12.  The text [JSON.stringify] writes for a row holds no character
    below U+0020, a line feed in particular, and so the prompt lists the
    first 100 rows of the dataset one per line and in order, after the
    line that announces them and before closing lines that do not depend
    on the rows; an empty dataset leaves one empty line in their place. *)
Theorem prompt_lists_rows_one_per_line (b : Server.AnalyzeBody) :
  exists head tail : list string,
    last head EmptyString = "DATASET (First 100 rows):"%string /\
    forall rows : list Json.json,
      forallb Json.value_ok rows = true ->
      Forall (fun row =>
                Text.every Text.above_c0 (Json.stringify row) = true) rows /\
      Text.lines (Server.prompt_of rows b) =
        head ++ match rows with
                | [] => [EmptyString]
                | _ :: _ => map Json.stringify (firstn 100 rows)
                end ++ tail.
Proof.
  eexists. eexists. split; cycle 1.
  - intros rows Hok. split; [now apply rows_above_c0|].
    unfold Server.prompt_of.
    do 8 rewrite <- string_app_assoc.
    rewrite lines_cut, lines_cut. f_equal. f_equal.
    destruct rows as [|row rows]; [reflexivity|].
    apply lines_join; [cbn [firstn map]; discriminate|].
    apply Forall_map. apply rows_above_c0 in Hok.
    apply Forall_forall. intros r Hin.
    apply (proj1 (Forall_forall _ _) Hok r).
    exact (firstn_in _ _ _ Hin).
  - cbv beta. rewrite string_app_assoc, lines_cut.
    apply last_last.
Qed.

(** ** The report store, across requests *)

Section StoreRuns.
Import Store Integrity.

Lemma mem_string_in k l : Json.mem_string k l = true <-> In k l.
Proof.
  induction l as [|k' l IH]; cbn [Json.mem_string In].
  - split; [discriminate | tauto].
  - rewrite orb_true_iff, String.eqb_eq, IH. tauto.
Qed.

(** A successful [INSERT] adds the row at the end and nothing else. *)
Lemma insert_report_inr now db i uid q c res db' :
  insert_report now db i uid q c res = inr db' ->
  has_id (reports db) i = false /\
  (foreign_keys db = true -> forall u, uid = Some u -> In u (users db)) /\
  db' = mkDb (users db) (reports db ++ [mkReport i uid q c res now])
             (foreign_keys db).
Proof.
  unfold insert_report. destruct (has_id (reports db) i) eqn:Hid; [discriminate|].
  destruct (foreign_keys db && negb (refers (users db) uid)) eqn:Hfk;
    [discriminate|].
  intros H. injection H as <-. split; [reflexivity|]. split; [|reflexivity].
  intros Hon u ->. rewrite Hon in Hfk. cbn [andb refers] in Hfk.
  apply negb_false_iff in Hfk. now apply mem_string_in.
Qed.

Lemma post_reports_sent now db b body db' :
  post_reports now db b = (Sent 200 body, db') ->
  has_id (reports db) (body_id b) = false /\
  (foreign_keys db = true ->
   forall u, body_userId b = Some u -> In u (users db)) /\
  db' = mkDb (users db) (reports db ++ [row_of now b]) (foreign_keys db).
Proof.
  unfold post_reports.
  destruct (insert_report now db (body_id b) (body_userId b) (body_query b)
              (body_context b) (encode (body_result b))) as [code|db1] eqn:Hi;
    [discriminate|].
  intros H. injection H as _ <-. exact (insert_report_inr _ _ _ _ _ _ _ _ Hi).
Qed.

Lemma post_reports_cases now db b :
  (exists code, post_reports now db b = (Raised (SqliteError code), db)) \/
  (post_reports now db b =
     (Sent 200 (Json.JObj [("success", Json.JBool true)]),
      mkDb (users db) (reports db ++ [row_of now b]) (foreign_keys db))).
Proof.
  unfold post_reports.
  destruct (insert_report now db (body_id b) (body_userId b) (body_query b)
              (body_context b) (encode (body_result b))) as [code|db1] eqn:Hi.
  - left. eauto.
  - right. destruct (insert_report_inr _ _ _ _ _ _ _ _ Hi) as [_ [_ ->]].
    reflexivity.
Qed.

Lemma filter_owned_snoc u rows r :
  filter (owned_by u) (rows ++ [r]) =
  filter (owned_by u) rows ++ (if owned_by u r then [r] else []).
Proof. rewrite filter_app. reflexivity. Qed.

(** In a descending order the head is at least as recent as every row. *)
Lemma sorted_head_newest x l :
  Sorted desc (x :: l) -> forall y, In y l -> desc x y.
Proof.
  intros Hs. apply Sorted_StronglySorted in Hs; [|exact desc_transitive].
  inversion Hs as [|? ? _ Hall]; subst.
  intros y Hy. now apply (proj1 (Forall_forall _ _) Hall).
Qed.

Lemma well_stored_decodes db r :
  well_stored db -> In r (reports db) ->
  exists x, decode (result r) = Some x.
Proof.
  intros Hw Hin. destruct (proj1 (Forall_forall _ _) Hw r Hin) as [x [Hok Hx]].
  exists x. rewrite Hx. unfold decode, encode. now apply parse_stringify.
Qed.

End StoreRuns.

(** X13.  [POST /api/reports] keeps the store in order: it answers 200 and
    adds exactly one row after the existing ones, with the text of the
    result and the clock's time, or it throws and leaves the store as it
    was; it never changes or removes a stored row, never touches [users],
    and report ids stay unique.  Where foreign keys are enforced, every
    report that names a user names a stored one; a body without [userId]
    is saved all the same, under any fresh id, with [user_id] NULL: such
    a report belongs to no user. *)
Theorem post_reports_keeps_integrity
        (now : string) (db : Store.Db) (b : Store.ReportBody) :
  Integrity.keys_unique db ->
  Integrity.references_hold db ->
  let reply := fst (Store.post_reports now db b) in
  let db' := snd (Store.post_reports now db b) in
  Integrity.keys_unique db' /\
  Integrity.references_hold db' /\
  Store.users db' = Store.users db /\
  ((reply = Sent 200 (Json.JObj [("success", Json.JBool true)]) /\
    Store.reports db' = Store.reports db ++ [Integrity.row_of now b]) \/
   ((exists code, reply = Raised (SqliteError code)) /\ db' = db)) /\
  (Store.body_userId b = None ->
   Store.has_id (Store.reports db) (Store.body_id b) = false ->
   reply = Sent 200 (Json.JObj [("success", Json.JBool true)]) /\
   Store.user_id (Integrity.row_of now b) = None /\
   forall userId, Store.owned_by userId (Integrity.row_of now b) = false).
Proof.
  intros Hk Hr reply db'. subst reply db'.
  assert (Hnull : Store.body_userId b = None ->
            Store.has_id (Store.reports db) (Store.body_id b) = false ->
            fst (Store.post_reports now db b) =
              Sent 200 (Json.JObj [("success", Json.JBool true)]) /\
            Store.user_id (Integrity.row_of now b) = None /\
            forall userId,
              Store.owned_by userId (Integrity.row_of now b) = false).
  { intros Hn Hid. unfold Store.post_reports, Store.insert_report.
    rewrite Hid, Hn. cbn [Store.refers negb]. rewrite andb_false_r.
    cbn [fst]. split; [reflexivity|].
    unfold Store.owned_by. cbn [Integrity.row_of Store.user_id].
    rewrite Hn. split; reflexivity. }
  destruct (post_reports_cases now db b) as [[code H] | H].
  - rewrite H in *. cbn [fst snd] in *.
    split; [exact Hk|]. split; [exact Hr|]. split; [reflexivity|].
    split; [right; eauto | exact Hnull].
  - destruct (post_reports_sent _ _ _ _ _ H) as [Hid [Hfk _]].
    rewrite H in *. cbn [fst snd] in *.
    split; [|split; [|split; [|split]]].
    + unfold Integrity.keys_unique in *. cbn [Store.reports].
      rewrite map_app. cbn [map Integrity.row_of Store.id].
      apply NoDup_app_remove_l with (l := []). cbn [List.app].
      apply Permutation_NoDup with (l := Store.body_id b :: map Store.id (Store.reports db)).
      * apply Permutation_cons_append.
      * constructor; [|exact Hk]. intros Hin. apply in_map_iff in Hin.
        destruct Hin as [r [Hr1 Hr2]].
        assert (Hc : Store.has_id (Store.reports db) (Store.body_id b) = true)
          by (apply has_id_iff; eauto).
        congruence.
    + unfold Integrity.references_hold in *. cbn [Store.reports Store.users Store.foreign_keys].
      intros Hon. apply Forall_app. split; [now apply Hr|].
      constructor; [|constructor]. cbn [Integrity.row_of Store.user_id]. auto.
    + reflexivity.
    + left. split; reflexivity.
    + exact Hnull.
Qed.

Lemma post_reports_keeps_integrity_witness :
  let db := Store.mkDb ["u1"]
              [Store.mkReport "rep_1" (Some "u1") "q" "c" "{}"
                              "2025-01-01 10:00:00"]
              true in
  let b := Store.mkReportBody "rep_2" (Some "u1") "q2" "c2" Json.JNull in
  let nobody := Store.mkReportBody "rep_3" None "q3" "c3" Json.JNull in
  (Store.reports (snd (Store.post_reports "2025-01-02 09:00:00" db b)) =
     Store.reports db ++ [Integrity.row_of "2025-01-02 09:00:00" b] /\
   Integrity.keys_unique (snd (Store.post_reports "2025-01-02 09:00:00" db b))) /\
  (fst (Store.post_reports "2025-01-02 09:00:00" db nobody) =
     Sent 200 (Json.JObj [("success", Json.JBool true)]) /\
   Integrity.references_hold
     (snd (Store.post_reports "2025-01-02 09:00:00" db nobody))).
Proof.
  intros db b nobody.
  assert (Hk0 : Integrity.keys_unique db).
  { unfold Integrity.keys_unique. cbn. constructor; [tauto | constructor]. }
  assert (Hr0 : Integrity.references_hold db).
  { intros _. cbn. constructor; [|constructor].
    intros u Hu. injection Hu as <-. now left. }
  split.
  - destruct (post_reports_keeps_integrity "2025-01-02 09:00:00" db b Hk0 Hr0)
      as [Hk _].
    split; [reflexivity | exact Hk].
  - destruct (post_reports_keeps_integrity "2025-01-02 09:00:00" db nobody
                Hk0 Hr0) as [_ [Hr [_ [_ Hn]]]].
    split; [|exact Hr].
    exact (proj1 (Hn eq_refl eq_refl)).
Defined.

(** X14.  Saving and listing compose: after [POST /api/reports] has
    answered 200 for a user, with a clock reading later than that of all
    their stored reports, [GET /api/reports] for that user answers 200 with
    the new report first, and its [result] is the value that was sent. *)
Theorem post_then_get_returns_report
        (now : string) (db db' : Store.Db) (b : Store.ReportBody)
        (uid : string) (ok : Json.json) (reply : Reply) :
  Integrity.well_stored db ->
  Json.value_ok (Store.body_result b) = true ->
  Store.body_userId b = Some uid ->
  Str.truthy uid = true ->
  (forall r, In r (Store.reports db) ->
     Store.user_id r = Some uid ->
     String.leb now (Store.created_at r) = false) ->
  Store.post_reports now db b = (Sent 200 ok, db') ->
  Store.get_reports db' (Some uid) reply ->
  exists older,
    reply = Sent 200 (Json.JArr
      (Store.report_json (Integrity.row_of now b) (Store.body_result b)
       :: older)) /\
    (List.length older <= 9)%nat.
Proof.
  intros Hw Hok Hb Hu Hold Hpost Hget.
  destruct (post_reports_sent _ _ _ _ _ Hpost) as [_ [_ ->]].
  set (new := Integrity.row_of now b) in *.
  assert (Hnew : Store.owned_by uid new = true).
  { unfold Store.owned_by. cbn [new Integrity.row_of Store.user_id].
    rewrite Hb. apply String.eqb_refl. }
  inversion Hget as [u Hq | u rows Ht Hsel]; subst.
  { cbn in Hq. congruence. }
  destruct Hsel as [ordered [Hperm [Hsorted ->]]].
  cbn [Store.reports] in Hperm.
  rewrite filter_owned_snoc, Hnew in Hperm.
  assert (Hin : forall r, In r ordered ->
            r = new \/ (In r (Store.reports db) /\
                        Store.user_id r = Some uid)).
  { intros r Hr. apply (Permutation_in _ Hperm) in Hr.
    apply in_app_or in Hr as [Hr|[Hr|[]]]; auto.
    apply filter_In in Hr as [Hr1 Hr2]. right. split; auto.
    now apply owned_by_iff. }
  assert (Hmem : In new ordered).
  { apply (Permutation_in _ (Permutation_sym Hperm)).
    apply in_or_app. right. now left. }
  destruct ordered as [|x rest]; [contradiction|].
  assert (Hx : x = new).
  { destruct Hmem as [H|H]; auto.
    destruct (Hin x (or_introl eq_refl)) as [Hx | [Hx1 Hx2]]; auto.
    pose proof (sorted_head_newest _ _ Hsorted _ H) as Hd.
    unfold Store.desc in Hd. cbn [new Integrity.row_of Store.created_at] in Hd.
    rewrite (Hold x Hx1 Hx2) in Hd. discriminate. }
  subst x.
  assert (Hdec : Forall (fun r => exists x, Store.decode (Store.result r) = Some x)
                        (firstn 9 rest)).
  { apply Forall_forall. intros r Hr. apply firstn_in in Hr.
    assert (Hperm' : Permutation rest
              (filter (Store.owned_by uid) (Store.reports db))).
    { apply Permutation_cons_inv with (a := new).
      etransitivity; [exact Hperm|].
      apply Permutation_sym, Permutation_cons_append. }
    apply (Permutation_in _ Hperm') in Hr. apply filter_In in Hr as [Hr _].
    exact (well_stored_decodes _ _ Hw Hr). }
  destruct (decode_rows_all _ Hdec) as [l [Hl Hlen]].
  exists l. split.
  - unfold Store.respond_rows.
    change (firstn 10 (new :: rest)) with (new :: firstn 9 rest).
    cbn [Store.decode_rows]. rewrite Hl.
    assert (Hd : Store.decode (Store.result new) = Some (Store.body_result b)).
    { cbn [new Integrity.row_of Store.result]. unfold Store.decode, Store.encode.
      now apply parse_stringify. }
    now rewrite Hd.
  - rewrite Hlen, length_firstn. lia.
Qed.

Lemma post_then_get_returns_report_witness :
  let db := Store.mkDb ["u1"]
              [Store.mkReport "rep_1" (Some "u1") "q" "c" "{}"
                              "2025-01-01 10:00:00"]
              true in
  let b := Store.mkReportBody "rep_2" (Some "u1") "q2" "c2" (Json.JBool true) in
  let now := "2025-01-02 09:00:00" in
  exists older,
    Store.get_reports_run (snd (Store.post_reports now db b)) (Some "u1") =
    Sent 200 (Json.JArr
      (Store.report_json (Integrity.row_of now b) (Json.JBool true) :: older)).
Proof.
  intros db b now.
  destruct (post_then_get_returns_report now db
              (snd (Store.post_reports now db b)) b "u1"
              (Json.JObj [("success", Json.JBool true)])
              (Store.get_reports_run (snd (Store.post_reports now db b))
                                     (Some "u1")))
    as [older [H _]].
  - constructor; [|constructor]. exists (Json.JObj []). split; reflexivity.
  - reflexivity.
  - reflexivity.
  - reflexivity.
  - intros r [<-|[]] _. reflexivity.
  - reflexivity.
  - apply (Store.get_reports_rows _ "u1"); [reflexivity|].
    apply stmt_all_select.
  - exists older. exact H.
Defined.

(** X15.  Reports of one user are invisible in the listing of another:
    saving a report for a user does not change what [GET /api/reports]
    may answer for any other user. *)
Theorem post_reports_other_user_unaffected
        (now : string) (db : Store.Db) (b : Store.ReportBody)
        (userId : option string) (reply : Reply) :
  userId <> Store.body_userId b ->
  (Store.get_reports (snd (Store.post_reports now db b)) userId reply <->
   Store.get_reports db userId reply).
Proof.
  intros Hne.
  destruct (post_reports_cases now db b) as [[code H] | H]; rewrite H;
    cbn [snd]; [tauto|].
  assert (Hsel : forall u rows, Some u <> Store.body_userId b ->
    (Store.select_by_user
       (Store.mkDb (Store.users db)
          (Store.reports db ++ [Integrity.row_of now b])
          (Store.foreign_keys db)) u rows <->
     Store.select_by_user db u rows)).
  { intros u rows Hu. unfold Store.select_by_user. cbn [Store.reports].
    rewrite filter_owned_snoc.
    assert (Hf : Store.owned_by u (Integrity.row_of now b) = false).
    { unfold Store.owned_by. cbn [Integrity.row_of Store.user_id].
      destruct (Store.body_userId b) as [w|]; [|reflexivity].
      apply String.eqb_neq. congruence. }
    rewrite Hf, List.app_nil_r. tauto. }
  split; intros Hg; inversion Hg as [u Hq | u rows Ht Hs]; subst.
  - now constructor.
  - constructor; auto. apply Hsel in Hs; auto.
  - now constructor.
  - constructor; auto. apply Hsel; auto.
Qed.

Lemma post_reports_other_user_unaffected_witness :
  let db := Store.mkDb ["u1"; "u2"]
              [Store.mkReport "rep_1" (Some "u2") "q" "c" "{}"
                              "2025-01-01 10:00:00"]
              true in
  let b := Store.mkReportBody "rep_2" (Some "u1") "q2" "c2" Json.JNull in
  Store.get_reports (snd (Store.post_reports "2025-01-02 09:00:00" db b))
    (Some "u2") (Store.get_reports_run db (Some "u2")).
Proof.
  intros db b.
  apply (post_reports_other_user_unaffected "2025-01-02 09:00:00" db b
           (Some "u2") (Store.get_reports_run db (Some "u2"))).
  - discriminate.
  - apply (Store.get_reports_rows _ "u2"); [reflexivity|].
    apply stmt_all_select.
Defined.

(** X16.  A store written through [POST /api/reports] can always be
    listed: the route keeps every [result] column decodable, and on such
    a store [GET /api/reports] never throws out of [JSON.parse]; it
    answers 400 or 200. *)
Theorem get_reports_never_throws
        (now : string) (db : Store.Db) (b : Store.ReportBody)
        (userId : option string) (reply : Reply) :
  Integrity.well_stored db ->
  Json.value_ok (Store.body_result b) = true ->
  Integrity.well_stored (snd (Store.post_reports now db b)) /\
  (Store.get_reports db userId reply ->
   reply = Sent 400 (error_body "userId required") \/
   exists rows, reply = Sent 200 (Json.JArr rows) /\
                (List.length rows <= 10)%nat).
Proof.
  intros Hw Hok. split.
  - destruct (post_reports_cases now db b) as [[code H] | H]; rewrite H;
      cbn [snd]; [exact Hw|].
    unfold Integrity.well_stored in *. cbn [Store.reports].
    apply Forall_app. split; [exact Hw|].
    constructor; [|constructor]. exists (Store.body_result b). now split.
  - intros Hg. inversion Hg as [u Hq | u rows Ht Hs]; subst; [now left|].
    right. destruct (select_by_user_facts _ _ _ Hs) as [Hlen [Hall _]].
    assert (Hdec : Forall (fun r => exists x,
                      Store.decode (Store.result r) = Some x) rows).
    { apply Forall_forall. intros r Hr.
      destruct (proj1 (Forall_forall _ _) Hall r Hr) as [_ Hin].
      exact (well_stored_decodes _ _ Hw Hin). }
    destruct (decode_rows_all _ Hdec) as [l [Hl Hll]].
    exists l. unfold Store.respond_rows. rewrite Hl. split; [reflexivity | lia].
Qed.

Lemma get_reports_never_throws_witness :
  let db := Store.mkDb ["u1"]
              [Store.mkReport "rep_1" (Some "u1") "q" "c" "{}"
                              "2025-01-01 10:00:00"]
              true in
  let b := Store.mkReportBody "rep_2" (Some "u1") "q2" "c2" Json.JNull in
  Integrity.well_stored (snd (Store.post_reports "2025-01-02 09:00:00" db b)).
Proof.
  intros db b.
  apply (get_reports_never_throws "2025-01-02 09:00:00" db b None
           (Sent 400 (error_body "userId required"))).
  - constructor; [|constructor]. exists (Json.JObj []). split; reflexivity.
  - reflexivity.
Defined.

(** ** The health report and the routes it reports on *)

Section HealthFacts.
Import Json Server.

Lemma trim_empty : Str.trim EmptyString = EmptyString.
Proof. reflexivity. Qed.

Lemma isGeminiKeyConfigured_iff (env : Env) :
  Health.isGeminiKeyConfigured
    (or_env (COGAPI3 env) (GEMINI_API_KEY env)) = true <->
  configured env.
Proof.
  unfold Health.isGeminiKeyConfigured, configured.
  destruct (or_env (COGAPI3 env) (GEMINI_API_KEY env)) as [k|].
  - rewrite andb_true_iff, negb_true_iff, String.eqb_neq. split.
    + intros [_ H]. exists k. auto.
    + intros [k' [Hk H]]. injection Hk as <-. split; auto.
      destruct k; [now elim H | reflexivity].
  - split; [discriminate|]. intros [k [Hk _]]. discriminate.
Qed.

Lemma redirect_of_not_missing a :
  Auth.redirect_of a <> "APP_URL_MISSING".
Proof.
  intros H. apply (f_equal String.length) in H.
  unfold Auth.redirect_of in H. rewrite string_length_app in H.
  cbn in H. lia.
Qed.

End HealthFacts.

(** X17.  The health report agrees with the analysis route about the
    credential: [geminiKeyConfigured] is true exactly when [POST
    /api/analyze] passes its credential guard; when it is false, every
    request with a dataset is answered 500 "not configured" without an
    upstream call; and when it is true, [geminiKeyName] is the variable
    the analysis route reads its key from and names in its
    invalid-key message. *)
Theorem health_agrees_with_analyze
        (syntax_error_message : string -> string)
        (generateContent :
           string -> nat -> Retry.Outcome Server.GenerateContentResponse)
        (env : Server.Env) (auth : Auth.Env) (firebase : bool)
        (b : Server.AnalyzeBody) :
  let h := Health.health env auth firebase in
  (Client.prop h "geminiKeyConfigured" = Some (Json.JBool true) <->
   Server.configured env) /\
  (Client.prop h "geminiKeyConfigured" = Some (Json.JBool false) ->
   Json.truthy (Server.dataset b) = true ->
   Server.analyze syntax_error_message generateContent env b =
   Server.mkHandled (Sent 500 (error_body
     "Gemini API key is not configured. Please set COGAPI3 or GEMINI_API_KEY in the environment variables.")) []) /\
  (Server.configured env ->
   Client.prop h "geminiKeyName" = Some (Json.JStr (Server.keySource env)) /\
   Server.or_env (Server.COGAPI3 env) (Server.GEMINI_API_KEY env) =
     (if String.eqb (Server.keySource env) "COGAPI3"
      then Server.COGAPI3 env else Server.GEMINI_API_KEY env)).
Proof.
  intros h. subst h.
  assert (Hc : Client.prop (Health.health env auth firebase)
                 "geminiKeyConfigured" =
               Some (Json.JBool (Health.isGeminiKeyConfigured
                 (Server.or_env (Server.COGAPI3 env)
                                (Server.GEMINI_API_KEY env)))))
    by reflexivity.
  assert (Hn : Client.prop (Health.health env auth firebase) "geminiKeyName" =
               Some (Json.JStr (Health.geminiKeyName env))) by reflexivity.
  rewrite Hc, Hn. split; [|split].
  - rewrite <- isGeminiKeyConfigured_iff. split; [congruence | now intros ->].
  - intros H Hd. apply analyze_not_configured; auto.
    rewrite <- isGeminiKeyConfigured_iff. congruence.
  - intros Hconf.
    destruct (keySource_names_key env Hconf) as [[Hk Ho] | [Hk Ho]];
      rewrite Hk, Ho; (split; [|reflexivity]);
      unfold Health.geminiKeyName; unfold Server.keySource in Hk;
      destruct (Server.env_truthy (Server.COGAPI3 env)); try reflexivity;
      try discriminate;
      destruct (Server.env_truthy (Server.GEMINI_API_KEY env));
      try reflexivity; discriminate.
Qed.

Section AuthFacts.
Import Json Auth.

Lemma google_url_sent (auth : Auth.Env) (u : string) :
  google_url auth = Sent 200 (JObj [("url", JStr u)]) ->
  exists a cid,
    appUrl auth = Some a /\ a <> EmptyString /\
    GOOGLE_CLIENT_ID auth = Some cid /\ cid <> EmptyString /\
    u = (rootUrl ++ "?" ++ to_query (options (redirect_of a) cid))%string.
Proof.
  unfold google_url. destruct (appUrl auth) as [a|] eqn:Ha; [|discriminate].
  destruct a as [|c a]; [discriminate|]. cbn [Str.truthy negb].
  destruct (GOOGLE_CLIENT_ID auth) as [cid|] eqn:Hc; [|discriminate].
  destruct cid as [|d cid]; [discriminate|]. cbn [Str.truthy negb].
  intros H. injection H as <-.
  exists (String c a), (String d cid). repeat split; auto; discriminate.
Qed.

End AuthFacts.

(** X18.  The three places that name the OAuth redirect address agree:
    whenever [GET /api/auth/google/url] answers with a URL, the address
    it puts in [redirect_uri] is the one the callback route sends when it
    exchanges the code, and the one the health report shows; and the
    route answers with a URL exactly when the health report shows a
    client id and a redirect address. *)
Theorem redirect_uri_agrees
        (env : Server.Env) (auth : Auth.Env) (firebase : bool) :
  let h := Health.health env auth firebase in
  (forall u,
     Auth.google_url auth = Sent 200 (Json.JObj [("url", Json.JStr u)]) ->
     exists client_id,
       Auth.GOOGLE_CLIENT_ID auth = Some client_id /\
       u = (Auth.rootUrl ++ "?" ++
            Auth.to_query (Auth.options (Auth.callback_redirect_uri auth)
                                        client_id))%string /\
       Client.prop h "redirectUri" =
         Some (Json.JStr (Auth.callback_redirect_uri auth))) /\
  ((exists u,
      Auth.google_url auth = Sent 200 (Json.JObj [("url", Json.JStr u)])) <->
   (Client.prop h "googleClientId" = Some (Json.JBool true) /\
    Client.prop h "redirectUri" <> Some (Json.JStr "APP_URL_MISSING"))).
Proof.
  intros h. subst h. split.
  - intros u Hu.
    destruct (google_url_sent _ _ Hu) as [a [cid [Ha [Hne [Hc [_ ->]]]]]].
    exists cid. unfold Auth.callback_redirect_uri. rewrite Ha.
    cbn [Auth.interpolate]. fold (Auth.redirect_of a).
    split; [exact Hc|]. split; [reflexivity|].
    unfold Health.health. rewrite Ha. cbn.
    destruct a; [now elim Hne | reflexivity].
  - unfold Health.health, Auth.google_url.
    destruct (Auth.appUrl auth) as [a|]; cbn.
    + destruct a as [|c a]; cbn.
      * split; [intros [u H]; discriminate | intros [_ H]; now elim H].
      * destruct (Auth.GOOGLE_CLIENT_ID auth) as [cid|]; cbn.
        { destruct cid as [|d cid]; cbn.
          - split; [intros [u H]; discriminate | intros [H _]; discriminate].
          - split; [|eauto]. intros _. split; [reflexivity|].
            intros H. apply (redirect_of_not_missing (String c a)).
            unfold Auth.redirect_of. cbn [String.append]. congruence. }
        { split; [intros [u H]; discriminate | intros [H _]; discriminate]. }
    + split; [intros [u H]; discriminate | intros [_ H]; now elim H].
Qed.

(** ** The query string of the sign-in address *)

Section QueryFacts.
Import Auth.

Lemma count_app c a b : count c (a ++ b) = (count c a + count c b)%nat.
Proof.
  induction a as [|x a IH]; cbn [String.append count]; auto.
  rewrite IH. lia.
Qed.

Lemma count_encode_byte c x : Auth.separator c -> count c (encode_byte x) = O.
Proof.
  intros [->|[->|[->|[->| ->]]]];
    destruct x as [[] [] [] [] [] [] [] []]; reflexivity.
Qed.

Lemma count_form_encode c s : Auth.separator c -> count c (form_encode s) = O.
Proof.
  intros Hc. induction s as [|x s IH]; cbn [form_encode count]; auto.
  now rewrite count_app, (count_encode_byte _ _ Hc), IH.
Qed.

(** The three forms of an encoded byte. *)
Lemma encode_byte_cases x :
  (unreserved x = true /\ encode_byte x = String x EmptyString) \/
  (x = " "%char /\ encode_byte x = "+") \/
  (encode_byte x =
     String "%" (String (hex_upper (nat_of_ascii x / 16))
                   (String (hex_upper (nat_of_ascii x mod 16)) EmptyString))).
Proof.
  unfold encode_byte. destruct (unreserved x) eqn:Hu; auto.
  destruct (Ascii.eqb x " ") eqn:Hs; auto.
  apply Ascii.eqb_eq in Hs. auto.
Qed.

Lemma hex_upper_inj m n :
  (m < 16)%nat -> (n < 16)%nat -> hex_upper m = hex_upper n -> m = n.
Proof.
  intros Hm Hn.
  do 16 (destruct m as [|m];
         [do 16 (destruct n as [|n];
                 [intros H; try reflexivity; vm_compute in H; discriminate H|]);
          lia|]).
  lia.
Qed.

Lemma nat_of_ascii_lt x : (nat_of_ascii x < 256)%nat.
Proof. apply nat_ascii_bounded. Qed.

Lemma encode_byte_prefix x y r1 r2 :
  (encode_byte x ++ r1)%string = (encode_byte y ++ r2)%string ->
  x = y /\ r1 = r2.
Proof.
  assert (Hpct : unreserved "%" = false) by reflexivity.
  assert (Hplus : unreserved "+" = false) by reflexivity.
  destruct (encode_byte_cases x) as [[Hx Ex] | [[Hx Ex] | Ex]];
    destruct (encode_byte_cases y) as [[Hy Ey] | [[Hy Ey] | Ey]];
    rewrite Ex, Ey; cbn [String.append]; intros H.
  - injection H as -> ->. auto.
  - injection H as -> _. congruence.
  - injection H as -> _. congruence.
  - injection H as <- _. congruence.
  - injection H as ->. subst. auto.
  - discriminate H.
  - injection H as <- _. congruence.
  - discriminate H.
  - pose proof (nat_of_ascii_lt x) as Bx. pose proof (nat_of_ascii_lt y) as By.
    assert (Bxd : (nat_of_ascii x / 16 < 16)%nat)
      by (apply Nat.Div0.div_lt_upper_bound; lia).
    assert (Byd : (nat_of_ascii y / 16 < 16)%nat)
      by (apply Nat.Div0.div_lt_upper_bound; lia).
    assert (Bxm : (nat_of_ascii x mod 16 < 16)%nat)
      by (apply Nat.mod_upper_bound; lia).
    assert (Bym : (nat_of_ascii y mod 16 < 16)%nat)
      by (apply Nat.mod_upper_bound; lia).
    pose proof (Nat.div_mod_eq (nat_of_ascii x) 16) as Dx.
    pose proof (Nat.div_mod_eq (nat_of_ascii y) 16) as Dy.
    remember (nat_of_ascii x / 16)%nat as xd.
    remember (nat_of_ascii y / 16)%nat as yd.
    remember (nat_of_ascii x mod 16)%nat as xm.
    remember (nat_of_ascii y mod 16)%nat as ym.
    injection H as H2 H3 H4. split; [|exact H4].
    apply hex_upper_inj in H2; auto. apply hex_upper_inj in H3; auto.
    assert (Hn : nat_of_ascii x = nat_of_ascii y) by lia.
    rewrite <- (ascii_nat_embedding x), <- (ascii_nat_embedding y).
    now rewrite Hn.
Qed.

Lemma encode_byte_head x sep :
  Auth.separator sep -> forall r1 r2,
  (encode_byte x ++ r1)%string <> String sep r2.
Proof.
  intros Hs r1 r2 H.
  pose proof (count_encode_byte sep x Hs) as Hc.
  destruct (encode_byte_cases x) as [[_ E] | [[_ E] | E]];
    rewrite E in H, Hc; cbn [String.append] in H; injection H as H _;
    subst; cbn [count] in Hc; rewrite Ascii.eqb_refl in Hc; discriminate.
Qed.

(** An encoded text ends where the next Auth.separator stands. *)
Lemma form_encode_until sep : Auth.separator sep ->
  forall a b r1 r2,
  (form_encode a ++ String sep r1)%string =
  (form_encode b ++ String sep r2)%string ->
  a = b /\ r1 = r2.
Proof.
  intros Hs. induction a as [|x a IH]; intros [|y b] r1 r2;
    cbn [form_encode String.append].
  - intros H. injection H as ->. auto.
  - rewrite string_app_assoc. intros H. symmetry in H.
    now apply encode_byte_head in H.
  - rewrite string_app_assoc. intros H.
    now apply encode_byte_head in H.
  - rewrite !string_app_assoc. intros H.
    apply encode_byte_prefix in H as [-> H].
    apply IH in H as [-> ->]. auto.
Qed.

(** The text [URLSearchParams] writes for [options]. *)
Lemma to_query_options r c :
  to_query (options r c) =
  ("redirect_uri=" ++ form_encode r ++
   "&client_id=" ++ form_encode c ++
   "&access_type=offline&response_type=code&prompt=consent&scope=https%3A%2F%2Fwww.googleapis.com%2Fauth%2Fuserinfo.profile+https%3A%2F%2Fwww.googleapis.com%2Fauth%2Fuserinfo.email")%string.
Proof.
  unfold to_query, options, pair_text.
  cbn [map Server.join fst snd].
  change (form_encode "redirect_uri") with "redirect_uri".
  change (form_encode "client_id") with "client_id".
  change (form_encode "access_type" ++ "=" ++ form_encode "offline" ++ "&" ++
          form_encode "response_type" ++ "=" ++ form_encode "code" ++ "&" ++
          form_encode "prompt" ++ "=" ++ form_encode "consent" ++ "&" ++
          form_encode "scope" ++ "=" ++
          form_encode (Server.join " "
             ["https://www.googleapis.com/auth/userinfo.profile";
              "https://www.googleapis.com/auth/userinfo.email"]))%string
    with "access_type=offline&response_type=code&prompt=consent&scope=https%3A%2F%2Fwww.googleapis.com%2Fauth%2Fuserinfo.profile+https%3A%2F%2Fwww.googleapis.com%2Fauth%2Fuserinfo.email".
  repeat (progress (rewrite ?string_app_assoc; cbn [String.append])).
  reflexivity.
Qed.

End QueryFacts.

(** X19.  No value of the environment can break out of its parameter in
    the sign-in address: whatever [APP_URL] and [GOOGLE_CLIENT_ID] hold,
    the query string has exactly six [=] and five [&], and no [#], [?] or
    space; and the address determines both values, so nothing of them is
    lost or merged by the encoding. *)
Theorem auth_query_keeps_parameters_apart (redirectUri client_id : string) :
  let qs := Auth.to_query (Auth.options redirectUri client_id) in
  Auth.count "=" qs = 6%nat /\
  Auth.count "&" qs = 5%nat /\
  Auth.count "#" qs = O /\ Auth.count "?" qs = O /\ Auth.count " " qs = O /\
  forall redirectUri' client_id',
    Auth.to_query (Auth.options redirectUri' client_id') = qs ->
    redirectUri' = redirectUri /\ client_id' = client_id.
Proof.
  intros qs. subst qs. rewrite to_query_options.
  assert (Hc : forall c, Auth.separator c ->
            Auth.count c (Auth.form_encode redirectUri) = O /\
            Auth.count c (Auth.form_encode client_id) = O).
  { intros c Hc. split; now apply count_form_encode. }
  repeat split.
  - destruct (Hc "="%char) as [H1 H2]; [unfold Auth.separator; auto|].
    rewrite !count_app, H1, H2. reflexivity.
  - destruct (Hc "&"%char) as [H1 H2]; [unfold Auth.separator; auto|].
    rewrite !count_app, H1, H2. reflexivity.
  - destruct (Hc "#"%char) as [H1 H2]; [unfold Auth.separator; auto|].
    rewrite !count_app, H1, H2. reflexivity.
  - destruct (Hc "?"%char) as [H1 H2]; [unfold Auth.separator; auto|].
    rewrite !count_app, H1, H2. reflexivity.
  - destruct (Hc " "%char) as [H1 H2]; [unfold Auth.separator; auto 6|].
    rewrite !count_app, H1, H2. reflexivity.
  - rewrite to_query_options in H.
    apply (f_equal (Json.drop 13)) in H. cbn [Json.drop String.append] in H.
    apply (form_encode_until "&"%char) in H as [H _]; [exact H|].
    unfold Auth.separator. auto.
  - rewrite to_query_options in H.
    apply (f_equal (Json.drop 13)) in H. cbn [Json.drop String.append] in H.
    apply (form_encode_until "&"%char) in H as [_ H];
      [|unfold Auth.separator; auto].
    apply (f_equal (Json.drop 10)) in H. cbn [Json.drop String.append] in H.
    apply (form_encode_until "&"%char) in H as [H _]; [exact H|].
    unfold Auth.separator. auto.
Qed.

(** ** The service account of Firebase Admin *)

Section TrimFacts.
Import Str.

(** A byte of white space, or of a character outside ASCII. *)
Local Abbreviation spacy :=
  (fun c : ascii => is_space c || (128 <=? nat_of_ascii c)%nat).

Lemma all_space_nil s : all_space s = true <-> trimStart s = EmptyString.
Proof.
  unfold all_space. destruct (trimStart s); split; congruence.
Qed.

Lemma is_byte_spacy c n :
  is_byte c n = true -> (128 <= n)%nat -> spacy c = true.
Proof.
  unfold is_byte. intros H Hn. apply Nat.eqb_eq in H.
  apply orb_true_iff. right. apply Nat.leb_le. lia.
Qed.

Lemma is_space2_bytes c d :
  is_space2 c d = true -> spacy c = true /\ spacy d = true.
Proof.
  unfold is_space2. intros H. apply andb_true_iff in H as [Hc Hd].
  split; [apply (is_byte_spacy c 194) | apply (is_byte_spacy d 160)];
    auto; lia.
Qed.

Lemma is_space3_bytes c d e :
  is_space3 c d e = true ->
  spacy c = true /\ spacy d = true /\ spacy e = true.
Proof.
  unfold is_space3, is_byte. cbv zeta. intros H.
  assert (Hb : (128 <= nat_of_ascii c /\ 128 <= nat_of_ascii d /\
                128 <= nat_of_ascii e)%nat).
  { repeat rewrite ?orb_true_iff, ?andb_true_iff, ?Nat.eqb_eq, ?Nat.leb_le
      in H. lia. }
  destruct Hb as [Hc [Hd He]].
  repeat split; apply orb_true_iff; right; apply Nat.leb_le; assumption.
Qed.

(** White space is made of bytes of white space and of bytes outside
    ASCII. *)
Lemma trimStart_nil_bytes n : forall x,
  (String.length x <= n)%nat -> trimStart x = EmptyString ->
  Text.every spacy x = true.
Proof.
  induction n as [|n IH]; intros x Hlen H.
  - destruct x; [reflexivity | cbn in Hlen; lia].
  - destruct x as [|c s1]; [reflexivity|]. cbn [String.length] in Hlen.
    cbn [trimStart] in H. destruct (is_space c) eqn:Hc.
    { cbn [Text.every]. rewrite Hc. cbn [orb andb]. apply IH; [lia | exact H]. }
    destruct s1 as [|d s2]; [discriminate|]. cbn [String.length] in Hlen.
    destruct (is_space2 c d) eqn:H2.
    { destruct (is_space2_bytes _ _ H2) as [Sc Sd].
      cbn [Text.every]. rewrite Sc, Sd. cbn [andb]. apply IH; [lia | exact H]. }
    destruct s2 as [|e s3]; [discriminate|]. cbn [String.length] in Hlen.
    destruct (is_space3 c d e) eqn:H3; [|discriminate].
    destruct (is_space3_bytes _ _ _ H3) as [Sc [Sd Se]].
    cbn [Text.every]. rewrite Sc, Sd, Se. cbn [andb]. apply IH; [lia | exact H].
Qed.

Lemma all_space_bytes x :
  all_space x = true -> Text.every spacy x = true.
Proof.
  intros H. apply (trimStart_nil_bytes (String.length x)); [lia|].
  now apply all_space_nil.
Qed.

Lemma trimStart_app_len n s : forall pre,
  (String.length pre <= n)%nat -> trimStart pre = EmptyString ->
  trimStart (pre ++ s) = trimStart s.
Proof.
  induction n as [|n IH]; intros pre Hlen H.
  - destruct pre; [reflexivity | cbn in Hlen; lia].
  - destruct pre as [|c s1]; [reflexivity|]. cbn [String.length] in Hlen.
    cbn [trimStart] in H. cbn [String.append trimStart].
    destruct (is_space c) eqn:Hc; [apply IH; [lia | exact H]|].
    destruct s1 as [|d s2]; [discriminate|]. cbn [String.length] in Hlen.
    cbn [String.append]. destruct (is_space2 c d) eqn:H2;
      [apply IH; [lia | exact H]|].
    destruct s2 as [|e s3]; [discriminate|]. cbn [String.length] in Hlen.
    cbn [String.append]. destruct (is_space3 c d e) eqn:H3; [|discriminate].
    apply IH; [lia | exact H].
Qed.

Lemma trimStart_app pre s :
  all_space pre = true -> trimStart (pre ++ s) = trimStart s.
Proof.
  intros H. apply (trimStart_app_len (String.length pre)); [lia|].
  now apply all_space_nil.
Qed.

Lemma trimEnd_space post : all_space post = true -> trimEnd post = EmptyString.
Proof.
  destruct post as [|c post]; cbn [trimEnd]; auto. now intros ->.
Qed.

(** A character of ASCII that is no white space starts no white space. *)
Lemma trimStart_ascii a s :
  spacy a = false -> trimStart (String a s) = String a s.
Proof.
  intros Ha. apply orb_false_iff in Ha as [Hs Hn].
  apply Nat.leb_gt in Hn.
  assert (Hb : forall n, (128 <= n)%nat -> is_byte a n = false).
  { intros n Hn'. unfold is_byte. apply Nat.eqb_neq. lia. }
  cbn [trimStart]. rewrite Hs.
  destruct s as [|d s2]; [reflexivity|].
  unfold is_space2. rewrite (Hb 194%nat) by lia. cbn [andb].
  destruct s2 as [|e s3]; [reflexivity|].
  unfold is_space3. cbv zeta.
  rewrite (Hb 225%nat), (Hb 226%nat), (Hb 227%nat), (Hb 239%nat) by lia.
  reflexivity.
Qed.

(** A text that ends in a character of ASCII that is no white space. *)
Lemma trimEnd_app body z post :
  spacy z = false -> all_space post = true ->
  trimEnd ((body ++ String z EmptyString) ++ post) =
  (body ++ String z EmptyString)%string.
Proof.
  intros Hz Hpost.
  assert (Hno : forall u, all_space (u ++ String z post) = false).
  { intros u. destruct (all_space (u ++ String z post)) eqn:Ha; [|reflexivity].
    apply all_space_bytes in Ha. rewrite every_app in Ha.
    cbn [Text.every] in Ha. rewrite Hz in Ha. cbn [andb] in Ha.
    now rewrite andb_false_r in Ha. }
  induction body as [|c body IH]; cbn [String.append trimEnd].
  - pose proof (Hno EmptyString) as H0. cbn [String.append] in H0.
    rewrite H0. now rewrite (trimEnd_space _ Hpost).
  - rewrite IH.
    assert (Heq : ((body ++ String z EmptyString) ++ post)%string =
                  (body ++ String z post)%string)
      by (rewrite string_app_assoc; reflexivity).
    pose proof (Hno (String c body)) as Hc. cbn [String.append] in Hc.
    now rewrite Heq, Hc.
Qed.

Lemma trim_padded pre a body z post :
  all_space pre = true -> all_space post = true ->
  spacy a = false -> spacy z = false ->
  trim (pre ++ (String a body ++ String z EmptyString) ++ post) =
  (String a body ++ String z EmptyString)%string.
Proof.
  intros Hpre Hpost Ha Hz. unfold trim. rewrite (trimStart_app _ _ Hpre).
  cbn [String.append]. rewrite (trimStart_ascii _ _ Ha).
  exact (trimEnd_app (String a body) z post Hz Hpost).
Qed.

End TrimFacts.

Section ObjectText.
Import Json.

Lemma print_tokens_app a b :
  print_tokens (a ++ b) = (print_tokens a ++ print_tokens b)%string.
Proof.
  induction a as [|t a IH]; cbn [List.app print_tokens]; auto.
  now rewrite IH, string_app_assoc.
Qed.

(** The text of an object is written between braces. *)
Lemma stringify_object fields :
  exists body,
    stringify (JObj fields) =
    (String "{" body ++ String "}" EmptyString)%string.
Proof.
  unfold stringify. rewrite tokens_of_object.
  cbn [print_tokens print_token]. rewrite print_tokens_app.
  cbn [print_tokens print_token String.append].
  now exists (print_tokens (tokens_members fields)).
Qed.

End ObjectText.

(** X20.  [getFirebaseAdmin] initializes lazily and once.  From an
    environment value that is the JSON text of an object, with or without
    white space around it (a trailing line feed, say), the SDK is handed
    exactly that object; and once an application exists, every later call
    returns it without reading the environment, calling the SDK or
    writing to the console. *)
Theorem getFirebaseAdmin_initializes_once
        (App : Type) (initializeApp : Json.json -> option App)
        (fields : list (string * Json.json)) (pre post : string) (app : App) :
  Json.value_ok (Json.JObj fields) = true ->
  Str.all_space pre = true ->
  Str.all_space post = true ->
  initializeApp (Json.JObj fields) = Some app ->
  let raw := (pre ++ Json.stringify (Json.JObj fields) ++ post)%string in
  Firebase.getFirebaseAdmin App initializeApp None (Some raw) =
    (Some app, [Firebase.Log "Firebase Admin initialized successfully."]) /\
  forall env,
    Firebase.getFirebaseAdmin App initializeApp
      (fst (Firebase.getFirebaseAdmin App initializeApp None (Some raw))) env =
    (Some app, []).
Proof.
  intros Hok Hpre Hpost Hinit raw.
  assert (H : Firebase.getFirebaseAdmin App initializeApp None (Some raw) =
    (Some app, [Firebase.Log "Firebase Admin initialized successfully."])).
  { subst raw. destruct (stringify_object fields) as [body Hs].
    assert (Htrim : Str.trim (pre ++ Json.stringify (Json.JObj fields) ++ post)
                    = Json.stringify (Json.JObj fields)).
    { rewrite Hs. apply trim_padded; auto. }
    assert (Htext : Firebase.serviceAccountText
                      (pre ++ Json.stringify (Json.JObj fields) ++ post) =
                    Json.stringify (Json.JObj fields)).
    { unfold Firebase.serviceAccountText. cbv zeta. rewrite Htrim, Hs.
      reflexivity. }
    unfold Firebase.getFirebaseAdmin.
    assert (Ht : Str.truthy (pre ++ Json.stringify (Json.JObj fields) ++ post)
                 = true).
    { rewrite Hs. destruct pre; reflexivity. }
    rewrite Ht. unfold Firebase.initialise.
    now rewrite Htext, (parse_stringify _ Hok), Hinit. }
  split; [exact H|]. intros env. now rewrite H.
Qed.

Lemma getFirebaseAdmin_initializes_once_witness :
  let account := Json.JObj [("project_id", Json.JStr "demo")] in
  let raw := (" " ++ Json.stringify account ++ Server.nl)%string in
  Firebase.getFirebaseAdmin Json.json (fun v => Some v) None (Some raw) =
    (Some account, [Firebase.Log "Firebase Admin initialized successfully."]).
Proof.
  intros account raw.
  apply (getFirebaseAdmin_initializes_once Json.json (fun v => Some v)
           [("project_id", Json.JStr "demo")] " " Server.nl account);
    reflexivity.
Defined.

(** ** The client and the analysis route together *)

Section RunFacts.
Import Json Client.

Variable syntax_error_message : string -> string.
Variable rows : list json.
Variable query context : string.
Variable now : N.
Variable fetch_analyze fetch_reports : Fetch.

Local Abbreviation runAnalysis :=
  (Client.runAnalysis syntax_error_message rows query context now
                      fetch_analyze fetch_reports).
Local Abbreviation persist :=
  (Client.persist query context now fetch_reports).

Lemma or_default_nonempty v d :
  d <> EmptyString -> Server.or_default v d <> EmptyString.
Proof.
  intros Hd. unfold Server.or_default. destruct v as [s|]; auto.
  destruct s; auto. discriminate.
Qed.

(** The outer [catch]: the spinner is off, the message is set, and
    nothing but the console line is added. *)
Lemma failed_facts st err :
  let st' := failed st err in
  user st' = user st /\ stored_user st' = stored_user st /\
  result st' = result st /\ isAnalyzing st' = false /\
  effects st' = effects st ++ [ConsoleError None err] /\
  exists m, error st' = Some m /\ m <> EmptyString.
Proof.
  cbn. repeat split. eexists. split; [reflexivity|].
  apply or_default_nonempty. discriminate.
Qed.

(** The persistence step changes nothing but the effects, and posts only
    for a user that is signed in. *)
Lemma persist_facts st json :
  let st' := persist st json in
  user st' = user st /\ stored_user st' = stored_user st /\
  result st' = result st /\ error st' = error st /\
  isAnalyzing st' = isAnalyzing st /\
  exists ext, effects st' = effects st ++ ext /\
    forall body, In (PostReport body) ext -> truthy (user st) = true.
Proof.
  unfold Client.persist. destruct (user st) as [u|] eqn:Hu.
  - destruct (truthy (Some u)) eqn:Ht.
    + destruct fetch_reports as [e|s ct bd]; cbn; rewrite ?Hu;
        repeat split; auto; rewrite <- List.app_assoc; eexists;
        (split; [reflexivity | auto]).
    + cbn. rewrite Hu. repeat split; auto. exists [].
      rewrite List.app_nil_r. split; [reflexivity | intros ? []].
  - cbn. rewrite Hu. repeat split; auto. exists [].
    rewrite List.app_nil_r. split; [reflexivity | intros ? []].
Qed.

End RunFacts.

(** X21.  Whatever the two requests come to, [runAnalysis] leaves the
    user and the stored session alone, does nothing at all without data,
    and otherwise ends with the spinner off and either a result and no
    error, or an error message that is not empty and the previous result;
    it sends a report only after an analysis that succeeded and only for
    a user who is signed in. *)
Theorem runAnalysis_outcomes
        (syntax_error_message : string -> string)
        (rows : list Json.json) (query context : string) (now : N)
        (fetch_analyze fetch_reports : Client.Fetch) (st : Client.AppState) :
  let st' := Client.runAnalysis syntax_error_message rows query context now
               fetch_analyze fetch_reports st in
  Client.user st' = Client.user st /\
  Client.stored_user st' = Client.stored_user st /\
  (rows = [] -> st' = st) /\
  (rows <> [] ->
   Client.isAnalyzing st' = false /\
   exists ext,
     Client.effects st' = Client.effects st ++ ext /\
     ((Client.error st' = None /\ exists json, Client.result st' = Some json) \/
      (exists m, Client.error st' = Some m /\ m <> EmptyString /\
                 Client.result st' = Client.result st /\
                 forall body, ~ In (Client.PostReport body) ext)) /\
     (forall body, In (Client.PostReport body) ext ->
        Json.truthy (Client.user st) = true /\ Client.error st' = None)).
Proof.
  intros st'. subst st'. unfold Client.runAnalysis.
  destruct rows as [|row rows'].
  { split; [reflexivity|]. split; [reflexivity|]. split; [reflexivity|].
    intros H. now elim H. }
  set (st1 := Client.mkState (Client.user st) (Client.result st) None true
                (Client.stored_user st) (Client.effects st)).
  assert (Hfail : forall err,
    Client.user (Client.failed st1 err) = Client.user st /\
    Client.stored_user (Client.failed st1 err) = Client.stored_user st /\
    (row :: rows' = [] -> Client.failed st1 err = st) /\
    (row :: rows' <> [] ->
     Client.isAnalyzing (Client.failed st1 err) = false /\
     exists ext,
       Client.effects (Client.failed st1 err) = Client.effects st ++ ext /\
       ((Client.error (Client.failed st1 err) = None /\
         exists json, Client.result (Client.failed st1 err) = Some json) \/
        (exists m, Client.error (Client.failed st1 err) = Some m /\
                   m <> EmptyString /\
                   Client.result (Client.failed st1 err) = Client.result st /\
                   forall body, ~ In (Client.PostReport body) ext)) /\
       (forall body, In (Client.PostReport body) ext ->
          Json.truthy (Client.user st) = true /\
          Client.error (Client.failed st1 err) = None))).
  { intros err.
    destruct (failed_facts st1 err) as [Hu [Hs [Hr [Ha [He [m [Hm Hne]]]]]]].
    split; [exact Hu|]. split; [exact Hs|]. split; [discriminate|].
    intros _. split; [exact Ha|]. exists [Client.ConsoleError None err].
    split; [exact He|]. split.
    - right. exists m. repeat split; auto. intros body [H|[]]. discriminate.
    - intros body [H|[]]. discriminate. }
  destruct fetch_analyze as [e|status contentType body]; [apply Hfail|].
  destruct (Client.read_body syntax_error_message contentType body)
    as [e|json]; [apply Hfail|].
  destruct (Client.ok status); cbn [negb]; [|apply Hfail].
  set (st2 := Client.mkState (Client.user st1) (Some json) (Client.error st1)
                (Client.isAnalyzing st1) (Client.stored_user st1)
                (Client.effects st1)).
  destruct (persist_facts query context now fetch_reports st2 json)
    as [Hu [Hs [Hr [He [_ [ext [Hext Hpost]]]]]]].
  cbn [Client.finished Client.user Client.stored_user Client.result
       Client.error Client.isAnalyzing Client.effects].
  split; [exact Hu|]. split; [exact Hs|]. split; [discriminate|].
  intros _. split; [reflexivity|]. exists ext. split; [exact Hext|]. split.
  - left. rewrite He, Hr. split; [reflexivity | now exists json].
  - intros b Hb. split; [exact (Hpost b Hb) | now rewrite He].
Qed.

Section ReplyFacts.
Import Json Server.

Lemma error_body_ok msg : value_ok (error_body msg) = true.
Proof. reflexivity. Qed.

Lemma fold_fill_ok ds : forall fields,
  forallb (fun kd => value_ok (snd kd)) ds = true ->
  value_ok (JObj fields) = true ->
  value_ok (JObj (fold_left fill ds fields)) = true.
Proof.
  induction ds as [|[k d] ds IH]; intros fields Hds Hf; cbn [fold_left]; auto.
  cbn [forallb snd] in Hds. apply andb_true_iff in Hds as [Hd Hds].
  apply IH; auto. unfold fill. cbn [fst snd].
  destruct (negb (truthy (get_field fields k))); auto.
  now apply set_field_ok.
Qed.

Lemma normalize_ok v r :
  value_ok v = true -> normalize v = inr r -> value_ok r = true.
Proof.
  destruct v; cbn [normalize]; intros Hv H; try discriminate;
    injection H as <-; auto.
  unfold fill_defaults. now apply fold_fill_ok.
Qed.

Lemma reply_shape_ok generateContent b status body :
  reply_shape generateContent b status body -> value_ok body = true.
Proof.
  intros [[msg ->] | [_ [rows [i [t [v [_ [_ [_ [Hp Hn]]]]]]]]]].
  - apply error_body_ok.
  - exact (normalize_ok _ _ (parse_ok _ _ Hp) Hn).
Qed.

End ReplyFacts.

(** X22.  The analysis from the click to the screen.  For the request
    [runAnalysis] sends, whatever the server's handler answers with
    [res.json] under status 200 or an error status comes out in the
    client as follows: a 200 reply is shown as the result, exactly the
    document the handler sent, with no error; any other reply leaves the
    previous result and shows the high-demand message for 429 or a
    message containing "rate exceeded", and otherwise the server's own
    message. *)
Theorem analysis_end_to_end
        (server_message client_message : string -> string)
        (generateContent :
           string -> nat -> Retry.Outcome Server.GenerateContentResponse)
        (env : Server.Env)
        (rows : list Json.json) (query context : string) (now : N)
        (fetch_reports : Client.Fetch) (st : Client.AppState)
        (status : Z) (body : Json.json) :
  rows <> [] ->
  Server.reply (Server.analyze server_message generateContent env
                  (App.analyze_request rows query context)) =
    Sent status body ->
  status = 200 \/ 400 <= status <= 599 ->
  let st' := Client.runAnalysis client_message rows query context now
               (Client.deliver status body) fetch_reports st in
  Client.isAnalyzing st' = false /\
  (status = 200 ->
   Client.result st' = Some body /\ Client.error st' = None) /\
  (status <> 200 ->
   exists m,
     body = error_body m /\
     Client.result st' = Client.result st /\
     Client.error st' =
       Some (if (status =? 429) ||
                Str.includes (Str.toLowerCase m) "rate exceeded"
             then Client.high_demand_message
             else if Str.truthy m then m
                  else "Intelligence Engine failed to process data.")).
Proof.
  intros Hrows Hreply Hstatus st'.
  destruct (analyze_reply_shape server_message generateContent env
              (App.analyze_request rows query context))
    as [status' [body' [Hr Hshape]]].
  rewrite Hreply in Hr. injection Hr as <- <-.
  pose proof (reply_shape_ok _ _ _ _ Hshape) as Hok.
  assert (Hread : Client.read_body client_message
                    (Some "application/json; charset=utf-8")
                    (Json.stringify body) = inr body).
  { unfold Client.read_body.
    replace (Str.truthy "application/json; charset=utf-8" &&
             Str.includes "application/json; charset=utf-8" "application/json")
      with true by reflexivity.
    now rewrite (parse_stringify _ Hok). }
  subst st'. unfold Client.runAnalysis, Client.deliver.
  destruct rows as [|row rows']; [now elim Hrows|]. rewrite Hread.
  destruct (Z.eq_dec status 200) as [-> | Hne].
  - replace (Client.ok 200) with true by reflexivity. cbn [negb].
    set (st2 := Client.mkState _ (Some body) _ _ _ _).
    destruct (persist_facts query context now fetch_reports st2 body)
      as [_ [_ [Hres [Herr _]]]].
    cbn [Client.finished Client.result Client.error Client.isAnalyzing].
    split; [reflexivity|]. split; [|intros H; now elim H].
    intros _. now rewrite Hres, Herr.
  - assert (Hnok : Client.ok status = false).
    { unfold Client.ok. apply andb_false_iff. right. apply Z.leb_gt. lia. }
    rewrite Hnok. cbn [negb].
    destruct Hshape as [[m ->] | [H200 _]]; [|contradiction].
    split; [reflexivity|]. split; [intros H; contradiction|].
    intros _. exists m. split; [reflexivity|]. split; [reflexivity|].
    cbn [Client.failed Client.error]. f_equal.
    unfold Client.not_ok_error.
    destruct (status =? 429); [reflexivity|]. cbn [orb].
    unfold error_body. cbn [Client.prop Json.get_field String.eqb Ascii.eqb
                            Bool.eqb].
    destruct (Str.includes (Str.toLowerCase m) "rate exceeded");
      [reflexivity|].
    destruct m; reflexivity.
Qed.

Lemma analysis_end_to_end_witness :
  let env := Server.mkEnv (Some "key-1") None in
  let up := fun (_ : string) (_ : nat) =>
    Retry.Resolved (Server.mkResponse (Some "{}")) in
  let st := Client.mkState (Some Json.JNull) (Some Json.JNull) None false
              None [] in
  let st' := Client.runAnalysis (fun _ => "Unexpected token") [Json.JNull]
               "q" "c" 7%N
               (Client.deliver 200 (Json.JObj (Server.fill_defaults [])))
               (Client.NetworkError (Server.js_error "offline")) st in
  Client.isAnalyzing st' = false /\
  Client.result st' = Some (Json.JObj (Server.fill_defaults [])) /\
  Client.error st' = None.
Proof.
  intros env up st st'.
  destruct (analysis_end_to_end (fun _ => "Unexpected token")
              (fun _ => "Unexpected token") up env [Json.JNull] "q" "c" 7%N
              (Client.NetworkError (Server.js_error "offline")) st
              200 (Json.JObj (Server.fill_defaults [])))
    as [Ha [Hok _]].
  - discriminate.
  - reflexivity.
  - left. reflexivity.
  - destruct (Hok eq_refl) as [Hr He]. repeat split; assumption.
Defined.

(** ** The session across page loads *)

Section SessionFacts.
Import Json Client.

Lemma stringify_nonempty v : value_ok v = true -> stringify v <> EmptyString.
Proof.
  intros Hok H. pose proof (parse_stringify v Hok) as Hp.
  rewrite H in Hp. discriminate Hp.
Qed.

(** A message that passes both tests of [handleMessage]. *)
Lemma handleMessage_accepted st event v :
  origin_allowed (origin event) = true ->
  data event = Some v ->
  is_auth_success (data event) = true ->
  handleMessage st event =
  mkState (prop v "user") (result st) (error st) (isAnalyzing st)
    (Some (stored_text (prop v "user")))
    (effects st ++
     [match prop v "user" with
      | None => Uncaught (Server.js_error
                  "Cannot read properties of undefined (reading 'id')")
      | Some JNull => Uncaught (Server.js_error
                        "Cannot read properties of null (reading 'id')")
      | Some u => FetchHistory (prop u "id")
      end]).
Proof.
  intros Ho Hd Hs. unfold handleMessage.
  assert (Hguard :
    negb (Str.endsWith (origin event) ".run.app") &&
    negb (Str.includes (origin event) "localhost") = false).
  { unfold origin_allowed in Ho. rewrite <- negb_orb, Ho. reflexivity. }
  rewrite Hguard, Hs, Hd. reflexivity.
Qed.

End SessionFacts.

(** X23.  Signing in survives a reload: the text [handleMessage] stores
    for the user of an accepted [OAUTH_AUTH_SUCCESS] message is read back
    by the mount effect of the next page as the same user, and the same
    history request follows. *)
Theorem sign_in_survives_reload
        (syntax_error_message : string -> string)
        (st : Client.AppState) (event : Client.MessageEvent)
        (v u : Json.json) :
  Client.origin_allowed (Client.origin event) = true ->
  Client.data event = Some v ->
  Client.is_auth_success (Client.data event) = true ->
  Client.prop v "user" = Some u ->
  Json.value_ok u = true ->
  u <> Json.JNull ->
  let signed := Client.handleMessage st event in
  let next := App.restore syntax_error_message
                (App.state (App.loaded (Client.stored_user signed))) in
  Client.user signed = Some u /\
  Client.user next = Some u /\
  Client.stored_user next = Client.stored_user signed /\
  Client.effects signed =
    Client.effects st ++ [Client.FetchHistory (Client.prop u "id")] /\
  Client.effects next = [Client.FetchHistory (Client.prop u "id")].
Proof.
  intros Ho Hd Hs Hu Hok Hnn signed next. subst signed next.
  rewrite (handleMessage_accepted st event v Ho Hd Hs), Hu.
  cbn [Client.user Client.stored_user Client.effects Client.stored_text
       App.loaded App.state].
  unfold App.restore. cbn [Client.stored_user].
  assert (Ht : Str.truthy (Json.stringify u) = true).
  { pose proof (stringify_nonempty u Hok).
    destruct (Json.stringify u); [contradiction | reflexivity]. }
  rewrite Ht, (parse_stringify u Hok). cbn [negb].
  cbn [Client.user Client.stored_user Client.effects List.app].
  destruct u; try (now elim Hnn); repeat split; reflexivity.
Qed.

Lemma sign_in_survives_reload_witness :
  let u := Json.JObj [("id", Json.JStr "u1"); ("name", Json.JStr "Ann")] in
  let payload := Json.JObj [("type", Json.JStr "OAUTH_AUTH_SUCCESS");
                            ("user", u)] in
  let event := Client.mkEvent "https://app-1.run.app" (Some payload) in
  let signed := Client.handleMessage
                  (App.state (App.loaded None)) event in
  let next := App.restore (fun _ => "Unexpected token")
                (App.state (App.loaded (Client.stored_user signed))) in
  Client.user next = Some u /\
  Client.effects next = [Client.FetchHistory (Some (Json.JStr "u1"))].
Proof.
  intros u payload event signed next.
  destruct (sign_in_survives_reload (fun _ => "Unexpected token")
              (App.state (App.loaded None)) event payload u)
    as [_ [H1 [_ [_ H2]]]]; try reflexivity; try discriminate.
  split; [exact H1 | exact H2].
Defined.

(** X24.  An accepted [OAUTH_AUTH_SUCCESS] message without a [user]
    leaves the text [undefined] in the stored session, which is not JSON:
    the handler itself throws after storing it, and the mount effect of
    every later page throws out of [JSON.parse] before it restores
    anything, until the entry is removed. *)
Theorem sign_in_without_user_breaks_reload
        (syntax_error_message : string -> string)
        (st : Client.AppState) (event : Client.MessageEvent)
        (v : Json.json) :
  Client.origin_allowed (Client.origin event) = true ->
  Client.data event = Some v ->
  Client.is_auth_success (Client.data event) = true ->
  Client.prop v "user" = None ->
  let signed := Client.handleMessage st event in
  let page := App.state (App.loaded (Client.stored_user signed)) in
  Client.stored_user signed = Some "undefined" /\
  (exists e, Client.effects signed = Client.effects st ++ [Client.Uncaught e]) /\
  App.restore syntax_error_message page =
    App.perform (Client.Uncaught
                   (Server.js_error (syntax_error_message "undefined")))
                page /\
  Client.stored_user (App.restore syntax_error_message page) =
    Some "undefined".
Proof.
  intros Ho Hd Hs Hu signed page. subst page signed.
  rewrite (handleMessage_accepted st event v Ho Hd Hs), Hu.
  cbn [Client.stored_user Client.effects Client.stored_text].
  split; [reflexivity|]. split; [eauto|]. split; reflexivity.
Qed.

Lemma sign_in_without_user_breaks_reload_witness :
  let payload := Json.JObj [("type", Json.JStr "OAUTH_AUTH_SUCCESS")] in
  let event := Client.mkEvent "http://localhost:3000" (Some payload) in
  let signed := Client.handleMessage (App.state (App.loaded None)) event in
  Client.stored_user signed = Some "undefined" /\
  Client.effects
    (App.restore (fun _ => "Unexpected token")
       (App.state (App.loaded (Client.stored_user signed)))) =
  [Client.Uncaught (Server.js_error "Unexpected token")].
Proof.
  intros payload event signed.
  destruct (sign_in_without_user_breaks_reload (fun _ => "Unexpected token")
              (App.state (App.loaded None)) event payload)
    as [H1 [_ [H2 _]]]; try reflexivity.
  split; [exact H1|]. subst signed. rewrite H2. reflexivity.
Defined.

(** X25.  Signing out ends the session for good: the user and the
    result are [null], the data and the history are empty, the query and
    the context are the empty string, the history panel is closed, the
    error is cleared and the stored entry is removed, while the headers
    and the spinner stay as they were and no request is sent; so that
    [runAnalysis] does nothing (no request, no spinner), the next page
    load restores no user and fetches no history, and signing out again
    changes nothing. *)
Theorem handleSignOut_ends_session
        (syntax_error_message : string -> string) (now : N)
        (fetch_analyze fetch_reports : Client.Fetch) (v : App.View) :
  let out := App.handleSignOut v in
  Client.user (App.state out) = Some Json.JNull /\
  Json.truthy (Client.user (App.state out)) = false /\
  Client.result (App.state out) = Some Json.JNull /\
  Client.stored_user (App.state out) = None /\
  App.data out = [] /\ App.history out = Json.JArr [] /\
  App.query out = EmptyString /\ App.context out = EmptyString /\
  App.showHistory out = false /\
  Client.error (App.state out) = None /\
  App.headers out = App.headers v /\
  Client.isAnalyzing (App.state out) = Client.isAnalyzing (App.state v) /\
  Client.effects (App.state out) = Client.effects (App.state v) /\
  App.runAnalysis syntax_error_message now fetch_analyze fetch_reports out
    = out /\
  App.restore syntax_error_message
    (App.state (App.loaded (Client.stored_user (App.state out)))) =
    App.state (App.loaded None) /\
  App.handleSignOut out = out.
Proof.
  intros out. subst out.
  assert (Hrun : App.runAnalysis syntax_error_message now fetch_analyze
                   fetch_reports (App.handleSignOut v) = App.handleSignOut v).
  { unfold App.runAnalysis, Client.runAnalysis.
    cbn [App.handleSignOut App.data]. reflexivity. }
  assert (Hnext : App.restore syntax_error_message
            (App.state (App.loaded
               (Client.stored_user (App.state (App.handleSignOut v))))) =
          App.state (App.loaded None)).
  { unfold App.restore. cbn [App.handleSignOut App.state Client.stored_user
                              App.loaded]. reflexivity. }
  rewrite Hrun, Hnext. repeat split.
Qed.

(** ** Uploading a file *)

Section UploadFacts.
Import Json Client App.

Lemma setFields_facts fields v :
  state (setFields fields v) = state v /\ data (setFields fields v) = data v /\
  query (setFields fields v) = query v /\
  context (setFields fields v) = context v /\
  history (setFields fields v) = history v.
Proof. destruct fields; repeat split. Qed.

End UploadFacts.

(** X26.  Whatever the file and whatever the parser makes of it,
    [processFile] never empties the table and never leaves the spinner
    on: the rows afterwards are the rows before or new rows, at least
    one; a name that ends in none of [.csv], [.xlsx], [.xls] (in any
    case) changes nothing but the error message; a file that is accepted
    ends with the spinner off, and with no error only if it put new rows
    in the table; and the user, the result, the query, the context and
    the stored session are never touched. *)
Theorem processFile_outcomes
        (name : string) (papa : App.CsvOutcome) (xlsx : App.ExcelOutcome)
        (v : App.View) :
  let v' := App.processFile name papa xlsx v in
  let lower := Str.toLowerCase name in
  let accepted := Str.endsWith lower ".csv" || Str.endsWith lower ".xlsx"
                  || Str.endsWith lower ".xls" in
  (App.data v' = App.data v \/ App.data v' <> []) /\
  (accepted = false ->
   v' = App.fail "Invalid file type. Please upload a CSV or Excel file." v) /\
  (accepted = true ->
   Client.isAnalyzing (App.state v') = false /\
   (Client.error (App.state v') = None ->
    App.data v' <> [] /\
    (App.data v' = match papa with
                   | App.Complete rows _ _ => rows
                   | _ => []
                   end \/
     App.data v' = match xlsx with
                   | App.Loaded rows => map Json.JObj rows
                   | _ => []
                   end))) /\
  Client.user (App.state v') = Client.user (App.state v) /\
  Client.result (App.state v') = Client.result (App.state v) /\
  Client.stored_user (App.state v') = Client.stored_user (App.state v) /\
  Client.effects (App.state v') = Client.effects (App.state v) /\
  App.query v' = App.query v /\ App.context v' = App.context v /\
  App.history v' = App.history v.
Proof.
  intros v' lower accepted. subst v' accepted lower.
  unfold App.processFile. cbv zeta.
  destruct (Str.endsWith (Str.toLowerCase name) ".csv") eqn:Hcsv;
    cbn [negb andb orb].
  - (* a CSV file *)
    destruct papa as [rows errors fields | message].
    + destruct (0 <? errors)%nat; destruct rows as [|row rows];
        try (destruct (setFields_facts fields
               (App.setData (row :: rows)
                  (App.fail "Failed to parse CSV file. Some rows may be malformed."
                     (App.stop (App.with_state
                        (App.setError None
                           (App.setIsAnalyzing true (App.state v))) v)))))
               as [Hs [Hd [Hq [Hc Hh]]]]);
        try (destruct (setFields_facts fields
               (App.setData (row :: rows)
                  (App.stop (App.with_state
                     (App.setError None
                        (App.setIsAnalyzing true (App.state v))) v))))
               as [Hs' [Hd' [Hq' [Hc' Hh']]]]);
        rewrite ?Hs, ?Hd, ?Hq, ?Hc, ?Hh, ?Hs', ?Hd', ?Hq', ?Hc', ?Hh';
        cbn; repeat split; auto; try discriminate;
        try (right; discriminate); try (left; reflexivity).
    + cbn. repeat split; auto; discriminate.
  - destruct (Str.endsWith (Str.toLowerCase name) ".xlsx" ||
              Str.endsWith (Str.toLowerCase name) ".xls") eqn:Hx.
    + (* a spreadsheet *)
      destruct xlsx as [rows | message | ].
      * destruct rows as [|first rows]; cbn; repeat split; auto;
          try discriminate; try (right; discriminate);
          try (right; reflexivity).
      * cbn. repeat split; auto; discriminate.
      * cbn. repeat split; auto; discriminate.
    + cbn. repeat split; auto; discriminate.
Qed.

(** ** The history panel *)

Section HistoryFacts.
Import Json Store.

Lemma report_json_ok r parsed :
  value_ok parsed = true -> value_ok (report_json r parsed) = true.
Proof.
  intros H. unfold report_json. cbn [value_ok map fst forallb snd].
  rewrite H. destruct (user_id r); reflexivity.
Qed.

Lemma decode_rows_ok rows : forall l,
  decode_rows rows = Some l -> forallb value_ok l = true.
Proof.
  induction rows as [|r rows IH]; intros l; cbn [decode_rows].
  - intros H. injection H as <-. reflexivity.
  - destruct (decode (result r)) as [parsed|] eqn:Hd; [|discriminate].
    destruct (decode_rows rows) as [l'|]; [|discriminate].
    intros H. injection H as <-. cbn [forallb].
    rewrite (report_json_ok r parsed (parse_ok _ _ Hd)). now apply IH.
Qed.

(** What [GET /api/reports] sends is a 400 error object or a 200 list. *)
Lemma get_reports_sent db userId status body :
  get_reports db userId (Sent status body) ->
  value_ok body = true /\
  ((status = 400 /\ body = error_body "userId required") \/
   (status = 200 /\ exists l, body = JArr l /\ (List.length l <= 10)%nat)).
Proof.
  intros Hg. inversion Hg as [u Hq Heq | u rows Ht Hs Heq]; subst.
  - split; [reflexivity | left; split; reflexivity].
  - unfold respond_rows in *.
    destruct (decode_rows rows) as [l|] eqn:Hl; [|discriminate].
    match goal with H : Sent _ _ = Sent _ _ |- _ => injection H as <- <- end.
    split; [exact (decode_rows_ok _ _ Hl)|]. right. split; [reflexivity|].
    exists l. split; [reflexivity|].
    destruct (select_by_user_facts _ _ _ Hs) as [Hlen _].
    assert (Hll : forall rs l0, decode_rows rs = Some l0 ->
                                List.length l0 = List.length rs).
    { induction rs as [|r rs IH]; intros l0; cbn [decode_rows].
      - intros H. now injection H as <-.
      - destruct (decode (result r)); [|discriminate].
        destruct (decode_rows rs) as [l1|]; [|discriminate].
        intros H. injection H as <-. cbn. now rewrite (IH l1). }
    rewrite (Hll _ _ Hl). exact Hlen.
Qed.

End HistoryFacts.

(** X27.  The history panel shows what the route lists.  Whatever [GET
    /api/reports] sends, [fetchHistory] takes a 200 reply as the new
    history, exactly the list the route sent (at most ten reports), and
    leaves the history alone on the 400 reply; in either case it writes
    nothing to the console and changes no other state. *)
Theorem fetchHistory_shows_the_listing
        (syntax_error_message : string -> string)
        (db : Store.Db) (userId : option string)
        (status : Z) (body : Json.json) (v : App.View) :
  Store.get_reports db userId (Sent status body) ->
  let v' := App.fetchHistory syntax_error_message
              (Client.deliver status body) v in
  App.history v' = (if status =? 200 then body else App.history v) /\
  (status = 200 \/ status = 400) /\
  App.state v' = App.state v /\ App.data v' = App.data v /\
  App.headers v' = App.headers v /\ App.query v' = App.query v /\
  App.context v' = App.context v /\ App.showHistory v' = App.showHistory v.
Proof.
  intros Hg v'. subst v'.
  destruct (get_reports_sent _ _ _ _ Hg) as [Hok Hcases].
  unfold App.fetchHistory, Client.deliver.
  destruct Hcases as [[-> ->] | [-> [l [-> Hlen]]]].
  - cbn. repeat split; auto.
  - replace (Client.ok 200) with true by reflexivity.
    replace (Str.truthy "application/json; charset=utf-8" &&
             Str.includes "application/json; charset=utf-8" "application/json")
      with true by reflexivity.
    rewrite (parse_stringify _ Hok). cbn. repeat split; auto.
Qed.

Lemma fetchHistory_shows_the_listing_witness :
  let db := Store.mkDb ["u1"]
              [Store.mkReport "rep_1" (Some "u1") "q" "c" "{}"
                              "2025-01-01 10:00:00"]
              true in
  let listing := Json.JArr
    [Store.report_json
       (Store.mkReport "rep_1" (Some "u1") "q" "c" "{}"
                       "2025-01-01 10:00:00")
       (Json.JObj [])] in
  App.history (App.fetchHistory (fun _ => "Unexpected token")
                 (Client.deliver 200 listing) (App.loaded None)) = listing.
Proof.
  intros db listing.
  destruct (fetchHistory_shows_the_listing (fun _ => "Unexpected token")
              db (Some "u1") 200 listing (App.loaded None)) as [H _].
  - change (Sent 200 listing) with (Store.respond_rows (Store.stmt_all db "u1")).
    apply (Store.get_reports_rows db "u1"); [reflexivity|].
    apply stmt_all_select.
  - exact H.
Defined.

(** ** Replaying a report, and starting the sign-in *)

Section ReplayFacts.
Import Json Store.

(** An entry of a decoded listing is a stored row with its result
    decoded. *)
Lemma decode_rows_in rows : forall l h,
  decode_rows rows = Some l -> In h l ->
  exists r x, In r rows /\ decode (result r) = Some x /\ h = report_json r x.
Proof.
  induction rows as [|r rows IH]; intros l h; cbn [decode_rows].
  - intros H. injection H as <-. intros [].
  - destruct (decode (result r)) as [x|] eqn:Hd; [|discriminate].
    destruct (decode_rows rows) as [l'|] eqn:Hl; [|discriminate].
    intros H. injection H as <-. intros [<-|Hin].
    + exists r, x. repeat split; auto. now left.
    + destruct (IH l' h eq_refl Hin) as [r' [x' [Hr [Hx ->]]]].
      exists r', x'. repeat split; auto. now right.
Qed.

End ReplayFacts.

(** X28.  Replaying a report from the history panel shows what was
    stored.  For every listing [GET /api/reports] sends and every entry
    of the history [fetchHistory] makes of it, [loadFromHistory] puts on
    the screen the decoded result, the query and the context of a stored
    report of that user, and closes the panel. *)
Theorem history_replay_shows_stored_report
        (syntax_error_message : string -> string)
        (db : Store.Db) (userId : string) (body : Json.json)
        (entries : list Json.json) (h : Json.json) (v : App.View) :
  Store.get_reports db (Some userId) (Sent 200 body) ->
  let v1 := App.fetchHistory syntax_error_message
              (Client.deliver 200 body) v in
  App.history v1 = Json.JArr entries ->
  In h entries ->
  exists r x,
    In r (Store.reports db) /\ Store.user_id r = Some userId /\
    Store.decode (Store.result r) = Some x /\
    App.loadFromHistory h v1 =
      Some (App.mkView (App.setResult (Some x) (App.state v))
                       (App.data v) (App.headers v)
                       (Store.query r) (Store.context r)
                       (Json.JArr entries) false).
Proof.
  intros Hg v1 Hhist Hin. subst v1.
  destruct (get_reports_sent _ _ _ _ Hg) as [Hok _].
  assert (Hv1 : App.fetchHistory syntax_error_message
                  (Client.deliver 200 body) v =
                App.mkView (App.state v) (App.data v) (App.headers v)
                           (App.query v) (App.context v) body
                           (App.showHistory v)).
  { unfold App.fetchHistory, Client.deliver.
    replace (Client.ok 200) with true by reflexivity.
    replace (Str.truthy "application/json; charset=utf-8" &&
             Str.includes "application/json; charset=utf-8" "application/json")
      with true by reflexivity.
    now rewrite (parse_stringify _ Hok). }
  rewrite Hv1 in *. cbn [App.history] in Hhist. subst body.
  inversion Hg as [u Hq Heq | u rows Ht Hs Heq]; subst.
  unfold Store.respond_rows in *.
  destruct (Store.decode_rows rows) as [l|] eqn:Hl; [|discriminate].
  match goal with H : Sent _ _ = Sent _ _ |- _ => injection H as -> end.
  destruct (decode_rows_in _ _ _ Hl Hin) as [r [x [Hr [Hx ->]]]].
  destruct (select_by_user_facts _ _ _ Hs) as [_ [Hall _]].
  destruct (proj1 (Forall_forall _ _) Hall r Hr) as [Hu Hdb].
  exists r, x. repeat split; auto.
Qed.

Lemma history_replay_shows_stored_report_witness :
  let row := Store.mkReport "rep_1" (Some "u1") "growth?" "sales" "{}"
                            "2025-01-01 10:00:00" in
  let db := Store.mkDb ["u1"] [row] true in
  let listing := Json.JArr [Store.report_json row (Json.JObj [])] in
  let v1 := App.fetchHistory (fun _ => "Unexpected token")
              (Client.deliver 200 listing) (App.loaded None) in
  exists r x,
    In r (Store.reports db) /\ Store.user_id r = Some "u1" /\
    Store.decode (Store.result r) = Some x /\
    App.loadFromHistory (Store.report_json row (Json.JObj [])) v1 =
      Some (App.mkView
              (App.setResult (Some x) (App.state (App.loaded None)))
              [] [] (Store.query r) (Store.context r) listing false).
Proof.
  intros row db listing v1.
  apply (history_replay_shows_stored_report (fun _ => "Unexpected token")
           db "u1" listing [Store.report_json row (Json.JObj [])]
           (Store.report_json row (Json.JObj [])) (App.loaded None)).
  - change (Sent 200 listing) with (Store.respond_rows (Store.stmt_all db "u1")).
    apply (Store.get_reports_rows db "u1"); [reflexivity|].
    apply stmt_all_select.
  - reflexivity.
  - now left.
Defined.

(** X29.  Starting the sign-in.  Whatever the environment, [GET
    /api/auth/google/url] answers 200 with a URL or 500 with an error,
    and [handleSignIn] follows: for the 200 reply it opens the popup at
    exactly the URL the route built (and alerts if the browser blocks
    it), setting no error; for the 500 reply it opens nothing, logs the
    failure and shows "Failed to initiate Google Sign-In.". *)
Theorem handleSignIn_follows_the_route
        (syntax_error_message : string -> string)
        (auth : Auth.Env) (popup_opens : bool) (v : App.View) :
  (exists client_id,
     Auth.GOOGLE_CLIENT_ID auth = Some client_id /\
     let u := (Auth.rootUrl ++ "?" ++
               Auth.to_query (Auth.options (Auth.callback_redirect_uri auth)
                                           client_id))%string in
     Auth.google_url auth = Sent 200 (Json.JObj [("url", Json.JStr u)]) /\
     App.handleSignIn syntax_error_message
       (Client.deliver 200 (Json.JObj [("url", Json.JStr u)]))
       popup_opens v =
     (v, App.OpenWindow (Some (Json.JStr u)) ::
         if popup_opens then []
         else [App.Alert
                 "Please allow popups for this site to connect your account."]))
  \/
  (exists msg,
     Auth.google_url auth = Sent 500 (error_body msg) /\
     App.handleSignIn syntax_error_message
       (Client.deliver 500 (error_body msg)) popup_opens v =
     (App.with_state
        (App.setError (Some "Failed to initiate Google Sign-In.")
           (App.perform
              (Client.ConsoleError (Some "Sign in failed")
                 (Server.js_error "Failed to get auth URL"))
              (App.state v))) v,
      [])).
Proof.
  assert (Herr : forall msg,
    App.handleSignIn syntax_error_message
      (Client.deliver 500 (error_body msg)) popup_opens v =
    (App.with_state
       (App.setError (Some "Failed to initiate Google Sign-In.")
          (App.perform
             (Client.ConsoleError (Some "Sign in failed")
                (Server.js_error "Failed to get auth URL"))
             (App.state v))) v,
     [])) by reflexivity.
  assert (Hurl : forall u,
    App.handleSignIn syntax_error_message
      (Client.deliver 200 (Json.JObj [("url", Json.JStr u)]))
      popup_opens v =
    (v, App.OpenWindow (Some (Json.JStr u)) ::
        if popup_opens then []
        else [App.Alert
                "Please allow popups for this site to connect your account."])).
  { intros u. unfold App.handleSignIn, Client.deliver.
    replace (Client.ok 200) with true by reflexivity. cbn [negb].
    assert (Hok : Json.value_ok (Json.JObj [("url", Json.JStr u)]) = true)
      by reflexivity.
    now rewrite (parse_stringify _ Hok). }
  unfold Auth.google_url, Auth.callback_redirect_uri.
  destruct (Auth.appUrl auth) as [a|]; [|right; eauto].
  destruct a as [|c a]; cbn [Str.truthy negb]; [right; eauto|].
  destruct (Auth.GOOGLE_CLIENT_ID auth) as [cid|]; [|right; eauto].
  destruct cid as [|d cid]; cbn [Str.truthy negb]; [right; eauto|].
  left. exists (String d cid). split; [reflexivity|].
  cbv zeta. cbn [Auth.interpolate]. fold (Auth.redirect_of (String c a)).
  split; [reflexivity | apply Hurl].
Qed.
